(** * Magic Formula screener (magicformula.py): embedding and properties

    The screener pulls fundamentals from a data provider, derives
    Earnings Yield and Return on Capital per symbol, and ranks the
    resulting records.  This file embeds the functions of
    [magicformula.py] and states the properties of the specification
    over that embedding.

    Modelling conventions.
    - The program is embedded twice.  The first embedding follows the
      control flow and the effects of every function; there a Python
      number ([int] or [float]) is the exact rational [Q] it stands
      for, and a rank, which pandas stores as a float holding a whole
      number, is a [nat].  The second embedding, module [F64], follows
      the arithmetic of [pull_company]: there a number is an [int] of
      any size or an IEEE 754 binary64 [float] with its infinities and
      NaN, and every operation rounds as Python's does.  Properties of
      the values a record stores are stated over [F64].
    - A JSON object is a finite map from field names to scalar values
      ([gmap string value]); a provider payload is [null], an array of
      objects, or a single object.
    - Effects (environment, clock, rate limiter, HTTP traffic, cache
      files, standard output) live in a [world] that every operation
      threads through; a Python exception is the [Raise] outcome. *)

From Stdlib Require Import QArith Qminmax Lqa Ascii String SpecFloat.
From stdpp Require Import gmap strings list sorting pretty.

(** ** Python values *)

Inductive value : Type :=
  | VNone
  | VBool (b : bool)
  | VNum (q : Q)
  | VStr (s : string).

(** A JSON object / Python [dict] with string keys. *)
Abbreviation row := (gmap string value).

(** What [r.json()] can hand back. *)
Inductive payload : Type :=
  | PNull
  | PRows (rows : list row)
  | PObj (obj : row).

Inductive exn : Type :=
  | RuntimeError
  | HTTPError
  | ConnectionError
  | TypeError
  | AttributeError
  | KeyError
  | ValueError
  | OSError.

Inductive res (A : Type) : Type :=
  | Ok (a : A)
  | Raise (e : exn).
Arguments Ok {A} a.
Arguments Raise {A} e.

Definition Qltb (x y : Q) : bool := negb (Qle_bool y x).

(** Truth value of an object, as used by [not x], [x or y], [if x]. *)
Definition truthy (v : value) : bool :=
  match v with
  | VNone => false
  | VBool b => b
  | VNum q => negb (Qeq_bool q 0)
  | VStr s => negb (String.eqb s "")
  end.

(** [a or b] *)
Definition py_or (a b : value) : value := if truthy a then a else b.

(** [d.get(f)]: the value under [f], [None] when the key is absent. *)
Definition dict_get (d : row) (f : string) : value := default VNone (d !! f).

(** The number an operand of [+], [/], [<] stands for ([bool] is a
    subclass of [int]); anything else is a [TypeError]. *)
Definition as_number (v : value) : res Q :=
  match v with
  | VNum q => Ok q
  | VBool b => Ok (if b then 1%Q else 0%Q)
  | _ => Raise TypeError
  end.

(** [v in (None, "")] *)
Definition is_blank (v : value) : bool :=
  match v with
  | VNone => true
  | VStr s => String.eqb s ""
  | _ => false
  end.

(** [a <= b] and [a > b] on values: numbers compare by value, strings
    lexicographically, every other pairing is a [TypeError]. *)
Definition py_le (a b : value) : res bool :=
  match a, b with
  | VStr s, VStr t => Ok (String.leb s t)
  | VStr _, _ | _, VStr _ => Raise TypeError
  | _, _ =>
      match as_number a, as_number b with
      | Ok x, Ok y => Ok (Qle_bool x y)
      | _, _ => Raise TypeError
      end
  end.

Definition py_gt (a b : value) : res bool :=
  match a, b with
  | VStr s, VStr t => Ok (String.ltb t s)
  | VStr _, _ | _, VStr _ => Raise TypeError
  | _, _ =>
      match as_number a, as_number b with
      | Ok x, Ok y => Ok (Qltb y x)
      | _, _ => Raise TypeError
      end
  end.

(** [bool(p)] of a payload. *)
Definition payload_truthy (p : payload) : bool :=
  match p with
  | PNull => false
  | PRows l => negb (Nat.eqb (length l) 0)
  | PObj d => negb (Nat.eqb (size d) 0)
  end.

(** [p or []] *)
Definition or_empty_list (p : payload) : payload :=
  if payload_truthy p then p else PRows [].

(** ** The record a derivation returns *)

Record FinancialRecord : Type := {
  ticker : string;
  name : value;
  exchange : value;
  country : value;
  sector : value;
  industry : value;
  marketCap : Q;
  EV : Q;
  EBIT : Q;
  NWC : Q;
  PPE_Net : Q;
  Capital : Q;
  Cash : Q;
  TotalDebt : Q;
  EY : Q;
  ROC : Q
}.

(** ** The world *)

Record request : Type := { req_url : string; req_params : row }.

(** An HTTP answer: its status and its body, already decoded from
    JSON. *)
Record response : Type := { status_code : Z; json : payload }.

(** A cache file: modification time and the record stored in it (the
    text is [json.dumps] of the record, read back by [json.loads]).
    Only files written by [pull_company_cached] and left whole are
    modelled: a file with other contents has no counterpart here. *)
Record cache_file : Type := { st_mtime : Q; content : FinancialRecord }.

Record world : Type := {
  environ : gmap string string;    (* os.environ *)
  clock : Q;                       (* time.time() *)
  limiter_calls : list Q;          (* limiter.calls, oldest first *)
  inbox : list response;           (* what the provider answers, in order *)
  sent : list request;             (* requests issued, newest first *)
  files : gmap string cache_file;  (* the cache directory *)
  disk_writable : bool;            (* false: write_text raises OSError *)
  stdout : list string             (* printed lines, newest first *)
}.

Definition with_clock (t : Q) (w : world) : world :=
  {| environ := environ w; clock := t; limiter_calls := limiter_calls w;
     inbox := inbox w; sent := sent w; files := files w;
     disk_writable := disk_writable w; stdout := stdout w |}.

Definition with_limiter_calls (c : list Q) (w : world) : world :=
  {| environ := environ w; clock := clock w; limiter_calls := c;
     inbox := inbox w; sent := sent w; files := files w;
     disk_writable := disk_writable w; stdout := stdout w |}.

Definition with_traffic (i : list response) (s : list request) (w : world) : world :=
  {| environ := environ w; clock := clock w; limiter_calls := limiter_calls w;
     inbox := i; sent := s; files := files w;
     disk_writable := disk_writable w; stdout := stdout w |}.

Definition with_files (f : gmap string cache_file) (w : world) : world :=
  {| environ := environ w; clock := clock w; limiter_calls := limiter_calls w;
     inbox := inbox w; sent := sent w; files := f;
     disk_writable := disk_writable w; stdout := stdout w |}.

Definition with_stdout (o : list string) (w : world) : world :=
  {| environ := environ w; clock := clock w; limiter_calls := limiter_calls w;
     inbox := inbox w; sent := sent w; files := files w;
     disk_writable := disk_writable w; stdout := o |}.

(** ** State and exception monad *)

Definition M (A : Type) : Type := world -> res A * world.

Definition ret {A} (a : A) : M A := fun w => (Ok a, w).

Definition raise {A} (e : exn) : M A := fun w => (Raise e, w).

Definition bind {A B} (m : M A) (k : A -> M B) : M B :=
  fun w =>
    match m w with
    | (Ok a, w') => k a w'
    | (Raise e, w') => (Raise e, w')
    end.

(** [try: m  except Exception: h] *)
Definition try_except {A} (m : M A) (h : M A) : M A :=
  fun w =>
    match m w with
    | (Ok a, w') => (Ok a, w')
    | (Raise _, w') => h w'
    end.

(** Lift a pure, possibly raising, computation. *)
Definition lift {A} (r : res A) : M A := fun w => (r, w).

Notation "'do' x <- m 'in' k" := (bind m (fun x => k))
  (at level 10, x name, m at level 100, k at level 200, only parsing).

(** ** Rate limiter *)

Definition calls_per_minute : nat := 300.
Definition window : Q := 60%Q.

Definition time_sleep (d : Q) : M unit :=
  fun w => (Ok tt, with_clock (clock w + d)%Q w).

(** [while self.calls and now - self.calls[0] > self.window: popleft()] *)
Fixpoint drop_expired (now : Q) (calls : list Q) : list Q :=
  match calls with
  | c :: cs => if Qltb window (now - c)%Q then drop_expired now cs else calls
  | [] => []
  end.

Definition limiter_wait : M unit :=
  fun w =>
    let now := clock w in
    let calls := drop_expired now (limiter_calls w) in
    let w1 := with_limiter_calls calls w in
    let w2 :=
      if (calls_per_minute <=? length calls)%nat then
        let sleep_for := (window - (now - hd 0%Q calls) + 0.01)%Q in
        if Qltb 0 sleep_for then with_clock (clock w1 + sleep_for)%Q w1 else w1
      else w1 in
    (Ok tt, with_limiter_calls (limiter_calls w2 ++ [clock w2]) w2).

(** ** HTTP helper *)

Definition FMP_BASE : string := "https://financialmodelingprep.com/api/v3".

(** [os.getenv(k, "")] *)
Definition getenv (k : string) : M string :=
  fun w => (Ok (default "" (environ w !! k)), w).

(** [S.get(url, params=params, timeout=30)]: the request is recorded and
    the next answer of the provider is taken; no answer is a
    connection error. *)
Definition S_get (url : string) (params : row) : M response :=
  fun w =>
    let rq := {| req_url := url; req_params := params |} in
    match inbox w with
    | r :: rest => (Ok r, with_traffic rest (rq :: sent w) w)
    | [] => (Raise ConnectionError, with_traffic [] (rq :: sent w) w)
    end.

(** [r.raise_for_status()] *)
Definition raise_for_status (r : response) : M unit :=
  if ((400 <=? status_code r)%Z && (status_code r <? 600)%Z)%bool
  then raise HTTPError else ret tt.

(** The body of [for a in range(retries)], from iteration [a] with [n]
    iterations left. *)
Fixpoint fmp_get_attempts (url : string) (params : row) (backoff : Q)
    (a n : nat) : M payload :=
  match n with
  | O => raise HTTPError
  | S n' =>
      do _ <- limiter_wait in
      do r <- S_get url params in
      if (status_code r =? 429)%Z then
        do _ <- time_sleep (backoff * (inject_Z (Z.of_nat a) + 1))%Q in
        fmp_get_attempts url params backoff (S a) n'
      else
        do _ <- raise_for_status r in
        ret (json r)
  end.

Definition fmp_get_with (path : string) (params : row) (retries : nat)
    (backoff : Q) : M payload :=
  do api_key <- getenv "FMP_API_KEY" in
  if String.eqb api_key "" then raise RuntimeError
  else
    let params := <["apikey" := VStr api_key]> params in
    let url := FMP_BASE +:+ path in
    fmp_get_attempts url params backoff 0 retries.

(** [fmp_get(path, params)] with the default [retries=3, backoff=0.8]. *)
Definition fmp_get (path : string) (params : row) : M payload :=
  fmp_get_with path params 3 0.8%Q.

(** ** Data pulling *)

(** [len(p)]; the code only takes the length of a payload it has just
    found truthy, so [PNull] never reaches it. *)
Definition payload_size (p : payload) : nat :=
  match p with
  | PNull => 0
  | PRows l => length l
  | PObj d => size d
  end.

(** The objects a loop [for q in p: q.get(...)] visits.  Iterating a
    [dict] yields its keys, and a [str] has no [get]. *)
Definition payload_rows (p : payload) : res (list row) :=
  match p with
  | PNull => Raise TypeError
  | PRows l => Ok l
  | PObj d => if Nat.eqb (size d) 0 then Ok [] else Raise AttributeError
  end.

(** [p[0]] *)
Definition payload_first (p : payload) : res row :=
  match p with
  | PNull => Raise TypeError
  | PRows [] => Raise KeyError
  | PRows (r :: _) => Ok r
  | PObj _ => Raise KeyError
  end.

(** [p[:n]] followed by iteration with [q.get(...)] *)
Definition payload_head (n : nat) (p : payload) : res (list row) :=
  match p with
  | PNull => Raise TypeError
  | PRows l => Ok (firstn n l)
  | PObj _ => Raise TypeError
  end.

(** [sym.endswith(x)] *)
Definition endswith (s x : string) : bool :=
  (String.length x <=? String.length s)%nat &&
  String.eqb (String.substring (String.length s - String.length x)
                (String.length x) s) x.

(** [c in sym] for a one-character string [c] *)
Definition contains_char (c : ascii) (s : string) : bool :=
  existsb (Ascii.eqb c) (list_ascii_of_string s).

Definition ascii_isalpha (c : ascii) : bool :=
  let n := nat_of_ascii c in
  ((65 <=? n) && (n <=? 90) || (97 <=? n) && (n <=? 122))%nat.

(** [sym.isalpha()] on a ticker written in ASCII: non-empty and made
    of letters only.  A string is the sequence of its bytes; a ticker
    with other characters, which Python tests by their Unicode
    category, is outside what this test and [String.length] model. *)
Definition isalpha (s : string) : bool :=
  negb (String.eqb s "") && forallb ascii_isalpha (list_ascii_of_string s).

(** The part of the filter of [list_symbols] that cannot raise:
    everything up to, and excluding, [mcap >= min_mcap]. *)
Definition symbol_ok (countries : option (list string)) (r : row) : bool :=
  match dict_get r "symbol" with
  | VStr sym =>
      negb (String.eqb sym "")
      && match countries with
         | None => true
         | Some cs =>
             match dict_get r "country" with
             | VStr c => existsb (String.eqb c) cs
             | _ => false
             end
         end
      && negb (existsb (endswith sym) ["WT"; "WS"; "PR"])
      && negb (contains_char "-"%char sym)
      && isalpha sym
      && (String.length sym <=? 5)%nat
  | _ => false
  end.

(** One iteration of the loop of [list_symbols]: is [r] kept? *)
Definition keep_symbol (min_mcap : Q) (countries : option (list string))
    (r : row) : res bool :=
  let mcap := py_or (dict_get r "marketCap") (VNum 0) in
  if symbol_ok countries r then
    match as_number mcap with
    | Ok m => Ok (Qle_bool min_mcap m)
    | Raise e => Raise e
    end
  else Ok false.

Fixpoint filter_symbols (min_mcap : Q) (countries : option (list string))
    (rows : list row) : res (list row) :=
  match rows with
  | [] => Ok []
  | r :: rest =>
      match keep_symbol min_mcap countries r with
      | Raise e => Raise e
      | Ok b =>
          match filter_symbols min_mcap countries rest with
          | Raise e => Raise e
          | Ok kept => Ok (if b then r :: kept else kept)
          end
      end
  end.

Definition screener_params (ex : string) : row :=
  <["exchange" := VStr ex]>
    (<["isEtf" := VBool false]>
      (<["isFund" := VBool false]>
        (<["isActivelyTrading" := VBool true]>
          (<["limit" := VNum 10000]> ∅)))).

Definition list_symbols (ex : string) (min_mcap : Q)
    (countries : option (list string)) : M (list row) :=
  do p <- fmp_get "/stock-screener" (screener_params ex) in
  do rows <- lift (payload_rows (or_empty_list p)) in
  lift (filter_symbols min_mcap countries rows).

Definition fmp_profile (ticker : string) : M row :=
  do p <- fmp_get ("/profile/" +:+ ticker) ∅ in
  match or_empty_list p with
  | PRows (r :: _) => ret r
  | _ => ret ∅
  end.

Definition period_params (period : string) (limit : Q) : row :=
  <["period" := VStr period]> (<["limit" := VNum limit]> ∅).

Definition fmp_income (ticker : string) (annual : bool) : M payload :=
  if annual then
    do p <- fmp_get ("/income-statement/" +:+ ticker) (period_params "annual" 1) in
    ret (or_empty_list p)
  else
    do p <- fmp_get ("/income-statement/" +:+ ticker) (period_params "quarter" 4) in
    ret (or_empty_list p).

Definition fmp_balance (ticker : string) : M payload :=
  do p <- fmp_get ("/balance-sheet-statement/" +:+ ticker) (period_params "quarter" 1) in
  ret (or_empty_list p).

(** ** Health checks *)

(** A debt-to-equity ratio; [float('inf')] when equity is not positive. *)
Inductive ratio : Type :=
  | Fin (q : Q)
  | Inf.

(** [a >= b] on ratios *)
Definition ratio_ge (a b : ratio) : bool :=
  match a, b with
  | Inf, _ => true
  | Fin _, Inf => false
  | Fin x, Fin y => Qle_bool y x
  end.

Fixpoint mapM_res {A B} (f : A -> res B) (l : list A) : res (list B) :=
  match l with
  | [] => Ok []
  | a :: rest =>
      match f a with
      | Raise e => Raise e
      | Ok b =>
          match mapM_res f rest with
          | Raise e => Raise e
          | Ok bs => Ok (b :: bs)
          end
      end
  end.

(** [all(c(x) for x in l)]: stops at the first false, raises what [c]
    raises before that. *)
Fixpoint all_res {A} (c : A -> res bool) (l : list A) : res bool :=
  match l with
  | [] => Ok true
  | a :: rest =>
      match c a with
      | Raise e => Raise e
      | Ok false => Ok false
      | Ok true => all_res c rest
      end
  end.

(** [all(c(l[i], l[i+1]) for i in range(len(l) - 1))] *)
Fixpoint all_adjacent {A} (c : A -> A -> res bool) (l : list A) : res bool :=
  match l with
  | a :: (b :: _) as rest =>
      match c a b with
      | Raise e => Raise e
      | Ok false => Ok false
      | Ok true => all_adjacent c rest
      end
  | _ => Ok true
  end.

(** One quarter's entry of [de_ratios], the quotient taken exactly. *)
Definition de_ratio (q : row) : res ratio :=
  let equity := py_or (dict_get q "totalStockholdersEquity") (VNum 0) in
  let debt := py_or (dict_get q "totalDebt") (VNum 0) in
  match py_gt equity (VNum 0) with
  | Raise e => Raise e
  | Ok false => Ok Inf
  | Ok true =>
      match as_number debt, as_number equity with
      | Ok d, Ok e => Ok (Fin (d / e))
      | Raise e, _ | _, Raise e => Raise e
      end
  end.

(** The [try] body of check 1, once both statements are fetched. *)
Definition debt_revenue_verdict (bs_data is_data : payload) : res (option bool) :=
  if payload_truthy bs_data && payload_truthy is_data
     && (3 <=? payload_size bs_data)%nat && (3 <=? payload_size is_data)%nat
  then
    match payload_rows bs_data with
    | Raise e => Raise e
    | Ok bs =>
        match mapM_res de_ratio (rev bs) with
        | Raise e => Raise e
        | Ok de_ratios =>
            match payload_rows is_data with
            | Raise e => Raise e
            | Ok inc =>
                let revenues :=
                  map (fun q => py_or (dict_get q "revenue") (VNum 0)) (rev inc) in
                let de_decreasing :=
                  all_adjacent (fun a b => Ok (ratio_ge a b)) de_ratios in
                match de_decreasing, all_adjacent py_le revenues with
                | Ok d, Ok r => Ok (Some (d && r))
                | Raise e, _ | _, Raise e => Raise e
                end
            end
        end
    end
  else Ok None.

(** The [try] body of check 2, once the cash-flow statement is fetched. *)
Definition cashflow_verdict (cf_data : payload) : res (option bool) :=
  if payload_truthy cf_data && (4 <=? payload_size cf_data)%nat then
    match payload_rows cf_data with
    | Raise e => Raise e
    | Ok cf =>
        match all_res (fun q =>
                 py_gt (py_or (dict_get q "operatingCashFlow") (VNum 0))
                       (py_or (dict_get q "netIncome") (VNum 0))) cf with
        | Raise e => Raise e
        | Ok b => Ok (Some b)
        end
    end
  else Ok None.

(** The [results] dictionary.  A check that did not run leaves its key
    out ([None] here); a check that ran stores [True], [False] or
    Python's [None] ([Some (Some true)], [Some (Some false)],
    [Some None]). *)
Record HealthResult : Type := {
  symbol : string;
  passes_all : bool;
  debt_revenue_check : option (option bool);
  cashflow_quality_check : option (option bool)
}.

Definition set_debt_revenue_check (v : option bool) (h : HealthResult) : HealthResult :=
  {| symbol := symbol h; passes_all := passes_all h;
     debt_revenue_check := Some v;
     cashflow_quality_check := cashflow_quality_check h |}.

Definition set_cashflow_quality_check (v : option bool) (h : HealthResult) : HealthResult :=
  {| symbol := symbol h; passes_all := passes_all h;
     debt_revenue_check := debt_revenue_check h;
     cashflow_quality_check := Some v |}.

Definition set_passes_all (b : bool) (h : HealthResult) : HealthResult :=
  {| symbol := symbol h; passes_all := b;
     debt_revenue_check := debt_revenue_check h;
     cashflow_quality_check := cashflow_quality_check h |}.

(** [results.get(key) is False] *)
Definition is_False (v : option (option bool)) : bool :=
  match v with
  | Some (Some false) => true
  | _ => false
  end.

Definition run_debt_revenue_check (sym : string) (quarters : Q)
    (results : HealthResult) : M HealthResult :=
  do results <-
    try_except
      (do bs_data <- fmp_get ("/balance-sheet-statement/" +:+ sym)
                       (period_params "quarter" quarters) in
       do is_data <- fmp_get ("/income-statement/" +:+ sym)
                       (period_params "quarter" quarters) in
       do v <- lift (debt_revenue_verdict bs_data is_data) in
       ret (set_debt_revenue_check v results))
      (ret (set_debt_revenue_check None results)) in
  if is_False (debt_revenue_check results)
  then ret (set_passes_all false results)
  else ret results.

Definition run_cashflow_quality_check (sym : string) (quarters : Q)
    (results : HealthResult) : M HealthResult :=
  do results <-
    try_except
      (do cf_data <- fmp_get ("/cash-flow-statement/" +:+ sym)
                       (period_params "quarter" quarters) in
       do v <- lift (cashflow_verdict cf_data) in
       ret (set_cashflow_quality_check v results))
      (ret (set_cashflow_quality_check None results)) in
  if is_False (cashflow_quality_check results)
  then ret (set_passes_all false results)
  else ret results.

Definition check_financial_health_with (sym : string)
    (check_debt_revenue check_cashflow_quality : bool)
    (debt_revenue_quarters cashflow_quarters : Q) : M HealthResult :=
  let results :=
    {| symbol := sym; passes_all := true;
       debt_revenue_check := None; cashflow_quality_check := None |} in
  do results <-
    (if check_debt_revenue
     then run_debt_revenue_check sym debt_revenue_quarters results
     else ret results) in
  if check_cashflow_quality
  then run_cashflow_quality_check sym cashflow_quarters results
  else ret results.

(** [check_financial_health] with the default windows of 6 and 8
    quarters. *)
Definition check_financial_health (sym : string)
    (check_debt_revenue check_cashflow_quality : bool) : M HealthResult :=
  check_financial_health_with sym check_debt_revenue check_cashflow_quality 6 8.

(** ** Metric derivation *)

Definition EXCLUDE_SECTORS : list string :=
  ["Financial Services"; "Financial"; "Banks"; "Insurance"; "Utilities";
   "Utility"; "Real Estate"; "Real Estate Investment Trust"; "REIT"].

(** [v in EXCLUDE_SECTORS] *)
Definition in_excluded_sectors (v : value) : bool :=
  match v with
  | VStr s => existsb (String.eqb s) EXCLUDE_SECTORS
  | _ => false
  end.

(** [sum(q.get(field) or 0 for q in qs)] *)
Fixpoint sum_field (field : string) (acc : Q) (qs : list row) : res Q :=
  match qs with
  | [] => Ok acc
  | q :: rest =>
      match as_number (py_or (dict_get q field) (VNum 0)) with
      | Raise e => Raise e
      | Ok x => sum_field field (acc + x)%Q rest
      end
  end.

(** [sum(... for q in inc[:4])] *)
Definition sum_last_four (inc : payload) : res Q :=
  match payload_head 4 inc with
  | Raise e => Raise e
  | Ok qs => sum_field "operatingIncome" 0 qs
  end.

(** [sum(... for q in inc) * (4 / len(inc))] *)
Definition sum_annualized (inc : payload) : res Q :=
  match payload_rows inc with
  | Raise e => Raise e
  | Ok qs =>
      match sum_field "operatingIncome" 0 qs with
      | Raise e => Raise e
      | Ok s => Ok (s * (4 / inject_Z (Z.of_nat (payload_size inc))))%Q
      end
  end.

(** The first, unconditional EBIT computation of [pull_company]
    (trailing twelve months).  Its value is overwritten by [ebit_of];
    what it raises is not. *)
Definition ttm_ebit (inc : payload) : res (option Q) :=
  if payload_truthy inc && (4 <=? payload_size inc)%nat then
    match sum_last_four inc with Raise e => Raise e | Ok s => Ok (Some s) end
  else if payload_truthy inc then
    match sum_annualized inc with Raise e => Raise e | Ok s => Ok (Some s) end
  else Ok None.

Definition missing_if {A} (o : option A) (label : string) : list string :=
  match o with
  | None => [label]
  | Some _ => []
  end.

Definition missing_fields (ebit tca tcl ppe cash debt mcap : option Q) : list string :=
  missing_if ebit "ebit" ++ missing_if tca "tca" ++ missing_if tcl "tcl"
  ++ missing_if ppe "ppe" ++ missing_if cash "cash" ++ missing_if debt "debt"
  ++ missing_if mcap "mcap".

(** [repr] of a list of plain strings, as an f-string prints it. *)
Definition repr_list (l : list string) : string :=
  "[" +:+ String.concat ", " (map (fun s => "'" +:+ s +:+ "'") l) +:+ "]".

Definition print (line : string) : M unit :=
  fun w => (Ok tt, with_stdout (line :: stdout w) w).

(** [max(x, 0)]: the first argument unless the second is greater. *)
Definition max0 (x : Q) : Q := if Qltb x 0 then 0%Q else x.

Section Derivation.

(** [float(s)] for a string [s]; [None] stands for [ValueError]. *)
Variable str_to_float : string -> option Q.

(** [float(v)] *)
Definition py_float (v : value) : res Q :=
  match v with
  | VNone => Raise TypeError
  | VBool b => Ok (if b then 1%Q else 0%Q)
  | VNum q => Ok q
  | VStr s => match str_to_float s with
              | Some q => Ok q
              | None => Raise ValueError
              end
  end.

Definition _latest (items : payload) (field : string) : res (option Q) :=
  if negb (payload_truthy items) then Ok None
  else
    match payload_first items with
    | Raise e => Raise e
    | Ok r =>
        let v := dict_get r field in
        if is_blank v then Ok None
        else match py_float v with
             | Raise e => Raise e
             | Ok x => Ok (Some x)
             end
    end.

(** The loop of [_first_available] over the object [r = items[0]]. *)
Fixpoint first_available_in (r : row) (fields : list string) : option Q :=
  match fields with
  | [] => None
  | f :: rest =>
      let v := dict_get r f in
      if negb (is_blank v) then
        match py_float v with
        | Ok x => Some x
        | Raise _ => None
        end
      else first_available_in r rest
  end.

Definition _first_available (items : payload) (fields : list string) : res (option Q) :=
  if negb (payload_truthy items) then Ok None
  else
    match fields with
    | [] => Ok None
    | _ =>
        match payload_first items with
        | Raise e => Raise e
        | Ok r => Ok (first_available_in r fields)
        end
    end.

(** The second EBIT computation, the one whose value is used. *)
Definition ebit_of (annual : bool) (inc : payload) : res (option Q) :=
  if annual then _latest inc "operatingIncome"
  else ttm_ebit inc.

(** Market cap from the profile: [mktCap], else [marketCap]; a value
    [float] rejects counts as missing. *)
Definition profile_mcap (prof : row) : option Q :=
  let mcap :=
    match dict_get prof "mktCap" with
    | VNone => dict_get prof "marketCap"
    | v => v
    end in
  match mcap with
  | VNone => None
  | v => match py_float v with
         | Ok x => Some x
         | Raise _ => None
         end
  end.

(** [pull_company] from the balance-sheet fields on: everything after
    the last fetch.  Numbers are exact here; what the floats of Python
    make of the same arithmetic is [F64.derive] below. *)
Definition derive (sym : string) (prof : row)
    (ebit tca tcl ppe cash debt mcap : option Q) : M (option FinancialRecord) :=
  match ebit, tca, tcl, ppe, cash, debt, mcap with
  | Some ebit, Some tca, Some tcl, Some ppe, Some cash, Some debt, Some mcap =>
      let ev := (mcap + debt - cash)%Q in
      let nwc := ((tca - cash) - (tcl - debt))%Q in
      let nwc := max0 nwc in
      let capital := (nwc + ppe)%Q in
      if Qle_bool ev 0 then ret None
      else if Qle_bool capital 0 then ret None
      else
        let ey := (ebit / ev)%Q in
        let roc := (ebit / capital)%Q in
        let roc := if Qltb 1 roc then 1%Q else roc in
        if Qltb 0.5 ey then ret None
        else if Qltb capital 10e6 then ret None
        else
          ret (Some
            {| ticker := sym;
               name := py_or (dict_get prof "companyName")
                         (py_or (dict_get prof "company") (dict_get prof "symbol"));
               exchange := dict_get prof "exchangeShortName";
               country := dict_get prof "country";
               sector := dict_get prof "sector";
               industry := dict_get prof "industry";
               marketCap := mcap;
               EV := ev;
               EBIT := ebit;
               NWC := nwc;
               PPE_Net := ppe;
               Capital := capital;
               Cash := cash;
               TotalDebt := debt;
               EY := ey;
               ROC := roc |})
  | _, _, _, _, _, _, _ =>
      let missing := missing_fields ebit tca tcl ppe cash debt mcap in
      do _ <- print ("DEBUG: Skipping " +:+ sym +:+ " -> Missing: "
                     +:+ repr_list missing) in
      ret None
  end.

(** The [try] body of [pull_company]. *)
Definition pull_company_body (sym : string) (annual : bool) : M (option FinancialRecord) :=
  do prof <- fmp_profile sym in
  if Nat.eqb (size prof) 0 then ret None
  else if in_excluded_sectors (dict_get prof "sector") then ret None
  else
    do inc <- fmp_income sym annual in
    do bal <- fmp_balance sym in
    do _ <- lift (ttm_ebit inc) in
    do ebit <- lift (ebit_of annual inc) in
    do tca <- lift (_latest bal "totalCurrentAssets") in
    do tcl <- lift (_latest bal "totalCurrentLiabilities") in
    do ppe <- lift (_latest bal "propertyPlantEquipmentNet") in
    do cash <- lift (_latest bal "cashAndShortTermInvestments") in
    do debt <- lift (_first_available bal ["totalDebt"; "shortTermDebt"; "longTermDebt"]) in
    derive sym prof ebit tca tcl ppe cash debt (profile_mcap prof).

Definition pull_company (sym : string) (annual : bool) : M (option FinancialRecord) :=
  try_except (pull_company_body sym annual) (ret None).

(** ** Result cache *)

Definition cache_path (sym : string) : string := "cache/" +:+ sym +:+ ".json".

(** [timedelta(days=7).total_seconds()] *)
Definition seven_days : Q := 604800%Q.

(** [cache_file.write_text(json.dumps(rec))]; a write that fails is
    one that could not open the file, and leaves the directory as it
    was. *)
Definition write_cache (path : string) (rec : FinancialRecord) : M unit :=
  fun w =>
    if disk_writable w then
      (Ok tt, with_files (<[path := {| st_mtime := clock w; content := rec |}]> (files w)) w)
    else (Raise OSError, w).

(** The record in [cache_file], when the file exists and is younger
    than seven days. *)
Definition fresh_entry (cache_file : string) (w : world) : option FinancialRecord :=
  match files w !! cache_file with
  | Some f =>
      let age := (clock w - st_mtime f)%Q in
      if Qltb age seven_days then Some (content f) else None
  | None => None
  end.

Definition pull_company_cached (sym : string) (annual : bool) : M (option FinancialRecord) :=
  fun w =>
    let cache_file := cache_path sym in
    match fresh_entry cache_file w with
    | Some cached => (Ok (Some cached), w)
    | None =>
        (do rec <- pull_company sym annual in
         match rec with
         | Some r => do _ <- write_cache cache_file r in ret rec
         | None => ret rec
         end) w
    end.

End Derivation.

(** ** Ranking *)

(** A row of the ranked frame: the input row and the three added
    columns. *)
Record Ranked (A : Type) : Type := {
  base : A;
  EY_rank : nat;
  ROC_rank : nat;
  MF_score : nat
}.
Arguments base {A} _.
Arguments EY_rank {A} _.
Arguments ROC_rank {A} _.
Arguments MF_score {A} _.

(** Descending sort of a column, as [rank(ascending=False)] orders it. *)
Fixpoint insert_desc (x : Q) (l : list Q) : list Q :=
  match l with
  | [] => [x]
  | y :: rest => if Qle_bool y x then x :: l else y :: insert_desc x rest
  end.

Fixpoint sort_desc (l : list Q) : list Q :=
  match l with
  | [] => []
  | x :: rest => insert_desc x (sort_desc rest)
  end.

(** Number of leading entries of [l] strictly greater than [x]. *)
Fixpoint leading_greater (x : Q) (l : list Q) : nat :=
  match l with
  | [] => 0
  | y :: rest => if Qltb x y then S (leading_greater x rest) else 0
  end.

(** [col.rank(ascending=False, method="min")] at a cell holding [x]:
    the 1-based position, in the descending order of the column, of
    the first cell of [x]'s group of ties. *)
Definition rank_desc_min (col : list Q) (x : Q) : nat :=
  S (leading_greater x (sort_desc col)).

(** [(MF_score, EY_rank, ROC_rank)] of [a] before or equal to that of
    [b], lexicographically. *)
Definition key_leb {A} (a b : Ranked A) : bool :=
  (MF_score a <? MF_score b)%nat
  || (MF_score a =? MF_score b)%nat
     && ((EY_rank a <? EY_rank b)%nat
         || (EY_rank a =? EY_rank b)%nat && (ROC_rank a <=? ROC_rank b)%nat).

(** [df.sort_values([...])] on several columns is a stable sort: rows
    with equal keys keep their order. *)
Fixpoint insert_row {A} (x : Ranked A) (l : list (Ranked A)) : list (Ranked A) :=
  match l with
  | [] => [x]
  | y :: rest => if key_leb x y then x :: l else y :: insert_row x rest
  end.

Fixpoint sort_values {A} (l : list (Ranked A)) : list (Ranked A) :=
  match l with
  | [] => []
  | x :: rest => insert_row x (sort_values rest)
  end.

Section Ranking.

(** The frame: rows of any type with an [EY] and a [ROC] column whose
    cells may be missing ([None] or NaN). *)
Context {A : Type}.
Variable ey roc : A -> option Q.

(** [df.dropna(subset=["EY", "ROC"])], each kept row with its two
    values. *)
Definition dropna (df : list A) : list (A * Q * Q) :=
  omap (fun r =>
          match ey r, roc r with
          | Some e, Some c => Some (r, e, c)
          | _, _ => None
          end) df.

(** The row of the ranked frame for a kept row [t], given the two
    columns. *)
Definition ranked_row (ey_col roc_col : list Q) (t : A * Q * Q) : Ranked A :=
  let ey_rank := rank_desc_min ey_col (snd (fst t)) in
  let roc_rank := rank_desc_min roc_col (snd t) in
  {| base := fst (fst t);
     EY_rank := ey_rank;
     ROC_rank := roc_rank;
     MF_score := ey_rank + roc_rank |}.

Definition magic_formula_rank (df : list A) : list (Ranked A) :=
  let kept := dropna df in
  let ey_col := map (fun t => snd (fst t)) kept in
  let roc_col := map snd kept in
  sort_values (map (ranked_row ey_col roc_col) kept).

End Ranking.

(** ** Command-line pipeline *)

(** The parsed arguments; [--limit] and [--top] take any [int]. *)
Record Args : Type := {
  exchanges : list string;
  min_mcap : Q;
  limit : Z;
  sleep : Q;
  top : Z;
  random : bool;
  countries : list string;
  annual : bool
}.

(** [l[:n]] and [df.head(n)]: the first [n] items, and for a negative
    [n] all but the last [-n]. *)
Definition take_upto {B} (n : Z) (l : list B) : list B :=
  if (0 <=? n)%Z then firstn (Z.to_nat n) l
  else firstn (length l - Z.to_nat (- n)) l.

(** [list(dict.fromkeys(l))]: duplicates removed, first occurrences
    kept in order. *)
Fixpoint dedup (seen l : list string) : list string :=
  match l with
  | [] => []
  | x :: rest =>
      if existsb (String.eqb x) seen then dedup seen rest
      else x :: dedup (x :: seen) rest
  end.

(** The symbols of the rows one exchange contributes
    ([r.get("symbol") or r.get("displaySymbol")], appended when
    truthy); [list_symbols] only returns rows whose symbol is a
    non-empty string. *)
Definition row_symbols (rows : list row) : list string :=
  omap (fun r =>
          match py_or (dict_get r "symbol") (dict_get r "displaySymbol") with
          | VStr s => if String.eqb s "" then None else Some s
          | _ => None
          end) rows.

(** The columns [EY] and [ROC] of [pd.DataFrame(records)]: every cell
    is filled. *)
Definition frame_ey (r : FinancialRecord) : option Q := Some (EY r).
Definition frame_roc (r : FinancialRecord) : option Q := Some (ROC r).

Section Pipeline.

Variable str_to_float : string -> option Q.

(** [random.shuffle] *)
Variable shuffle : list string -> list string.

(** [for ex in exchanges: ...] *)
Fixpoint gather_symbols (a : Args) (exs : list string) (acc : list string) : M (list string) :=
  match exs with
  | [] => ret acc
  | ex :: rest =>
      do rows <- list_symbols ex (min_mcap a) (Some (countries a)) in
      do _ <- time_sleep (sleep a) in
      gather_symbols a rest (acc ++ row_symbols rows)
  end.

(** [for sym in symbols: ...] *)
Fixpoint pull_all (a : Args) (syms : list string) (acc : list FinancialRecord)
    : M (list FinancialRecord) :=
  match syms with
  | [] => ret acc
  | sym :: rest =>
      do rec <- pull_company_cached str_to_float sym (annual a) in
      match rec with
      | Some r =>
          if Qle_bool (min_mcap a) (marketCap r)
          then pull_all a rest (acc ++ [r])
          else pull_all a rest acc
      | None => pull_all a rest acc
      end
  end.

(** [main], from the parsed arguments to the frame it exports: the
    ranked head, or nothing when no record qualifies. *)
Definition main (a : Args) : M (option (list (Ranked FinancialRecord))) :=
  do symbols <- gather_symbols a (exchanges a) [] in
  let symbols := dedup [] symbols in
  do symbols <-
    (if random a then
       do _ <- print ("Randomizing " +:+ pretty (length symbols)
                      +:+ " symbols before sampling...") in
       ret (shuffle symbols)
     else ret symbols) in
  let symbols :=
    if negb (limit a =? 0)%Z && (limit a <? Z.of_nat (length symbols))%Z
    then take_upto (limit a) symbols else symbols in
  do records <- pull_all a symbols [] in
  match records with
  | [] =>
      do _ <- print "No qualifying records. Try increasing --limit or lowering --min-mcap." in
      ret None
  | _ =>
      let ranked :=
        magic_formula_rank frame_ey frame_roc records in
      ret (Some (take_upto (top a) ranked))
  end.

End Pipeline.

(** ** The derivation on Python's numbers

    [pull_company] once more, this time on the numbers Python computes
    with: whole numbers of any size and binary64 floats.  The provider
    is reduced to what its three answers are (the payload [fmp_get]
    hands back, or the exception it raises), since nothing here depends
    on how they were fetched; the DEBUG line printed for a missing
    field is an effect and belongs to the first embedding. *)

Module F64.

(** *** IEEE 754 binary64, the [float] of Python *)

Definition prec : Z := 53.
Definition emax : Z := 1024.

Abbreviation float := spec_float.

Definition fadd : float -> float -> float := SFadd prec emax.
Definition fsub : float -> float -> float := SFsub prec emax.
Definition fmul : float -> float -> float := SFmul prec emax.
Definition fdiv : float -> float -> float := SFdiv prec emax.
Definition fltb : float -> float -> bool := SFltb.
Definition fleb : float -> float -> bool := SFleb.
Definition feqb : float -> float -> bool := SFeqb.

(** The float nearest to a whole number (ties to even), infinite past
    the largest finite float. *)
Definition float_of_Z (z : Z) : float := binary_normalize prec emax z 0 false.

Definition fzero : float := S754_zero false.
Definition fone : float := float_of_Z 1.
Definition fhalf : float := binary_normalize prec emax 1 (-1) false.
Definition ten_million : float := float_of_Z 10000000.
Definition infinity : float := S754_infinity false.
Definition nan : float := S754_nan.

Definition is_nan (x : float) : bool :=
  match x with S754_nan => true | _ => false end.
Definition is_infinite (x : float) : bool :=
  match x with S754_infinity _ => true | _ => false end.
Definition is_zero (x : float) : bool :=
  match x with S754_zero _ => true | _ => false end.

(** *** Python values *)

(** A number is an [int], of any size, or a [float]. *)
Inductive number : Type :=
  | PInt (z : Z)
  | PFloat (x : float).

Inductive value : Type :=
  | VNone
  | VBool (b : bool)
  | VNum (n : number)
  | VStr (s : string).

Abbreviation row := (gmap string value).

Inductive payload : Type :=
  | PNull
  | PRows (rows : list row)
  | PObj (obj : row).

Inductive exn : Type :=
  | RuntimeError
  | HTTPError
  | ConnectionError
  | TypeError
  | AttributeError
  | KeyError
  | ValueError
  | OverflowError
  | ZeroDivisionError.

Inductive res (A : Type) : Type :=
  | Ok (a : A)
  | Raise (e : exn).
Arguments Ok {A} a.
Arguments Raise {A} e.

#[export] Instance res_ret : MRet res := fun A a => Ok a.
#[export] Instance res_bind : MBind res :=
  fun A B k r => match r with Ok a => k a | Raise e => Raise e end.

Definition truthy (v : value) : bool :=
  match v with
  | VNone => false
  | VBool b => b
  | VNum (PInt z) => negb (z =? 0)%Z
  | VNum (PFloat x) => negb (is_zero x)
  | VStr s => negb (String.eqb s "")
  end.

Definition py_or (a b : value) : value := if truthy a then a else b.

Definition dict_get (d : row) (f : string) : value := default VNone (d !! f).

(** [v in (None, "")] *)
Definition is_blank (v : value) : bool :=
  match v with
  | VNone => true
  | VStr s => String.eqb s ""
  | _ => false
  end.

Definition payload_truthy (p : payload) : bool :=
  match p with
  | PNull => false
  | PRows l => negb (Nat.eqb (length l) 0)
  | PObj d => negb (Nat.eqb (size d) 0)
  end.

Definition or_empty_list (p : payload) : payload :=
  if payload_truthy p then p else PRows [].

Definition payload_size (p : payload) : nat :=
  match p with
  | PNull => 0
  | PRows l => length l
  | PObj d => size d
  end.

Definition payload_rows (p : payload) : res (list row) :=
  match p with
  | PNull => Raise TypeError
  | PRows l => Ok l
  | PObj d => if Nat.eqb (size d) 0 then Ok [] else Raise AttributeError
  end.

Definition payload_first (p : payload) : res row :=
  match p with
  | PNull => Raise TypeError
  | PRows [] => Raise KeyError
  | PRows (r :: _) => Ok r
  | PObj _ => Raise KeyError
  end.

Definition payload_head (n : nat) (p : payload) : res (list row) :=
  match p with
  | PNull => Raise TypeError
  | PRows l => Ok (firstn n l)
  | PObj _ => Raise TypeError
  end.

(** *** Arithmetic *)

(** An [int] operand of a float operation is converted first;
    [OverflowError] when it is too large for a float. *)
Definition int_to_float (z : Z) : res float :=
  let x := float_of_Z z in
  if is_infinite x then Raise OverflowError else Ok x.

Definition as_float (n : number) : res float :=
  match n with
  | PInt z => int_to_float z
  | PFloat x => Ok x
  end.

(** [n + x], [n * x] and [n / x] for a float [x] *)
Definition add_float (n : number) (x : float) : res float :=
  a ← as_float n; mret (fadd a x).

Definition mul_float (n : number) (x : float) : res float :=
  a ← as_float n; mret (fmul a x).

Definition div_float (n : number) (x : float) : res float :=
  a ← as_float n;
  if is_zero x then Raise ZeroDivisionError else mret (fdiv a x).

(** [4 / n] for a length [n]: true division of two small whole
    numbers, which is the float division of their conversions. *)
Definition four_over (n : nat) : res float :=
  if Nat.eqb n 0 then Raise ZeroDivisionError
  else mret (fdiv (float_of_Z 4) (float_of_Z (Z.of_nat n))).

(** [x < 0] and [0 <= x] on a number *)
Definition is_negative (n : number) : bool :=
  match n with
  | PInt z => (z <? 0)%Z
  | PFloat x => fltb x fzero
  end.

Definition is_nonnegative (n : number) : bool :=
  match n with
  | PInt z => (0 <=? z)%Z
  | PFloat x => fleb fzero x
  end.

(** [max(x, 0)]: the first argument unless [0 > x], and then the
    [int] 0. *)
Definition max0 (x : float) : number := if fltb x fzero then PInt 0 else PFloat x.

(** The whole number a value is when it is an [int] or a [bool]. *)
Definition whole (v : value) : option Z :=
  match v with
  | VNum (PInt z) => Some z
  | VBool b => Some (if b then 1 else 0)%Z
  | _ => None
  end.

Definition numeric (v : value) : option number :=
  match v with
  | VNum n => Some n
  | VBool b => Some (PInt (if b then 1 else 0))
  | _ => None
  end.

Definition Zsum (zs : list Z) : Z := fold_left Z.add zs 0%Z.

(** *** The record a derivation returns *)

Record FinancialRecord : Type := {
  ticker : string;
  name : value;
  exchange : value;
  country : value;
  sector : value;
  industry : value;
  marketCap : float;
  EV : float;
  EBIT : number;
  NWC : number;
  PPE_Net : float;
  Capital : float;
  Cash : float;
  TotalDebt : float;
  EY : float;
  ROC : float
}.

Definition EXCLUDE_SECTORS : list string :=
  ["Financial Services"; "Financial"; "Banks"; "Insurance"; "Utilities";
   "Utility"; "Real Estate"; "Real Estate Investment Trust"; "REIT"].

Definition in_excluded_sectors (v : value) : bool :=
  match v with
  | VStr s => existsb (String.eqb s) EXCLUDE_SECTORS
  | _ => false
  end.

(** [fmp_profile], [fmp_income] and [fmp_balance] from the payload
    [fmp_get] handed back. *)
Definition fmp_profile (answer : res payload) : res row :=
  p ← answer;
  match or_empty_list p with
  | PRows (r :: _) => mret r
  | _ => mret ∅
  end.

Definition fmp_income (answer : res payload) : res payload :=
  p ← answer; mret (or_empty_list p).

Definition fmp_balance (answer : res payload) : res payload :=
  p ← answer; mret (or_empty_list p).

Section Derivation.

(** [float(s)] for a string [s]; [None] stands for [ValueError]. *)
Variable str_to_float : string -> option float.

(** The float [sum] returns for numbers that are not all whole; how
    it accumulates them (one addition after the other, or with a
    correction term) is the interpreter's affair. *)
Variable float_sum : list number -> res number.

(** [float(v)] *)
Definition py_float (v : value) : res float :=
  match v with
  | VNone => Raise TypeError
  | VBool b => Ok (float_of_Z (if b then 1 else 0))
  | VNum n => as_float n
  | VStr s => match str_to_float s with
              | Some x => Ok x
              | None => Raise ValueError
              end
  end.

(** [sum(xs)]: whole numbers add up exactly. *)
Definition py_sum (xs : list value) : res number :=
  match mapM whole xs with
  | Some zs => Ok (PInt (Zsum zs))
  | None =>
      match mapM numeric xs with
      | Some ns => float_sum ns
      | None => Raise TypeError
      end
  end.

(** The values [q.get(field) or 0] of a list of periods. *)
Definition field_or_zero (field : string) (qs : list row) : list value :=
  map (fun q => py_or (dict_get q field) (VNum (PInt 0))) qs.

(** [sum(q.get("operatingIncome") or 0 for q in inc[:4])] *)
Definition sum_last_four (inc : payload) : res number :=
  qs ← payload_head 4 inc;
  py_sum (field_or_zero "operatingIncome" qs).

(** [sum(q.get("operatingIncome") or 0 for q in inc) * (4 / len(inc))] *)
Definition sum_annualized (inc : payload) : res number :=
  qs ← payload_rows inc;
  s ← py_sum (field_or_zero "operatingIncome" qs);
  k ← four_over (payload_size inc);
  x ← mul_float s k;
  mret (PFloat x).

(** The first, unconditional EBIT computation of [pull_company]. *)
Definition ttm_ebit (inc : payload) : res (option number) :=
  if payload_truthy inc && (4 <=? payload_size inc)%nat then
    s ← sum_last_four inc; mret (Some s)
  else if payload_truthy inc then
    s ← sum_annualized inc; mret (Some s)
  else mret None.

Definition _latest (items : payload) (field : string) : res (option float) :=
  if negb (payload_truthy items) then mret None
  else
    r ← payload_first items;
    let v := dict_get r field in
    if is_blank v then mret None
    else x ← py_float v; mret (Some x).

Fixpoint first_available_in (r : row) (fields : list string) : option float :=
  match fields with
  | [] => None
  | f :: rest =>
      let v := dict_get r f in
      if negb (is_blank v) then
        match py_float v with
        | Ok x => Some x
        | Raise _ => None
        end
      else first_available_in r rest
  end.

Definition _first_available (items : payload) (fields : list string)
    : res (option float) :=
  if negb (payload_truthy items) then mret None
  else
    match fields with
    | [] => mret None
    | _ => r ← payload_first items; mret (first_available_in r fields)
    end.

(** The second EBIT computation, the one whose value is used. *)
Definition ebit_of (annual : bool) (inc : payload) : res (option number) :=
  if annual then
    x ← _latest inc "operatingIncome";
    mret (match x with Some x => Some (PFloat x) | None => None end)
  else ttm_ebit inc.

Definition profile_mcap (prof : row) : option float :=
  let mcap :=
    match dict_get prof "mktCap" with
    | VNone => dict_get prof "marketCap"
    | v => v
    end in
  match mcap with
  | VNone => None
  | v => match py_float v with
         | Ok x => Some x
         | Raise _ => None
         end
  end.

(** [pull_company] from the balance-sheet fields on. *)
Definition derive (sym : string) (prof : row) (ebit : option number)
    (tca tcl ppe cash debt mcap : option float) : res (option FinancialRecord) :=
  match ebit, tca, tcl, ppe, cash, debt, mcap with
  | Some ebit, Some tca, Some tcl, Some ppe, Some cash, Some debt, Some mcap =>
      let ev := fsub (fadd mcap debt) cash in
      let nwc := fsub (fsub tca cash) (fsub tcl debt) in
      let nwc := max0 nwc in
      capital ← add_float nwc ppe;
      if fleb ev fzero then mret None
      else if fleb capital fzero then mret None
      else
        ey ← div_float ebit ev;
        roc ← div_float ebit capital;
        let roc := if fltb fone roc then fone else roc in
        if fltb fhalf ey then mret None
        else if fltb capital ten_million then mret None
        else
          mret (Some
            {| ticker := sym;
               name := py_or (dict_get prof "companyName")
                         (py_or (dict_get prof "company") (dict_get prof "symbol"));
               exchange := dict_get prof "exchangeShortName";
               country := dict_get prof "country";
               sector := dict_get prof "sector";
               industry := dict_get prof "industry";
               marketCap := mcap;
               EV := ev;
               EBIT := ebit;
               NWC := nwc;
               PPE_Net := ppe;
               Capital := capital;
               Cash := cash;
               TotalDebt := debt;
               EY := ey;
               ROC := roc |})
  | _, _, _, _, _, _, _ => mret None
  end.

(** The [try] body of [pull_company], given what the three calls of
    [fmp_get] hand back (a payload, or the exception they raise). *)
Definition pull_company_body (sym : string) (annual : bool)
    (profile income balance : res payload) : res (option FinancialRecord) :=
  prof ← fmp_profile profile;
  if Nat.eqb (size prof) 0 then mret None
  else if in_excluded_sectors (dict_get prof "sector") then mret None
  else
    inc ← fmp_income income;
    bal ← fmp_balance balance;
    _ ← ttm_ebit inc;
    ebit ← ebit_of annual inc;
    tca ← _latest bal "totalCurrentAssets";
    tcl ← _latest bal "totalCurrentLiabilities";
    ppe ← _latest bal "propertyPlantEquipmentNet";
    cash ← _latest bal "cashAndShortTermInvestments";
    debt ← _first_available bal ["totalDebt"; "shortTermDebt"; "longTermDebt"];
    derive sym prof ebit tca tcl ppe cash debt (profile_mcap prof).

Definition pull_company (sym : string) (annual : bool)
    (profile income balance : res payload) : option FinancialRecord :=
  match pull_company_body sym annual profile income balance with
  | Ok rec => rec
  | Raise _ => None
  end.

End Derivation.

(** *** Sample data *)

(** Addition as [+] computes it, and a [sum] that adds one number
    after the other. *)
Definition num_add (a b : number) : res number :=
  match a, b with
  | PInt x, PInt y => Ok (PInt (x + y))
  | _, _ => x ← as_float a; y ← as_float b; mret (PFloat (fadd x y))
  end.

Definition running_sum (ns : list number) : res number :=
  foldl (fun acc n => a ← acc; num_add a n) (Ok (PInt 0)) ns.

Definition no_float : string -> option float := fun _ => None.

Definition profile_of (mcap : number) : row :=
  <["companyName" := VStr "Acme Corp"]>
    (<["sector" := VStr "Technology"]>
      (<["mktCap" := VNum mcap]> ∅)).

Definition quarter (oi : Z) : row := <["operatingIncome" := VNum (PInt oi)]> ∅.

Definition balance_of (tca tcl cash : number) : row :=
  <["totalCurrentAssets" := VNum tca]>
    (<["totalCurrentLiabilities" := VNum tcl]>
      (<["propertyPlantEquipmentNet" := VNum (PInt 50000000)]>
        (<["cashAndShortTermInvestments" := VNum cash]>
          (<["totalDebt" := VNum (PInt 20000000)]> ∅)))).

(** [pull_company] on a provider that answers with a profile, [n]
    income periods of operating income [oi] each, and a balance
    sheet. *)
Definition pull_sample (ann : bool) (mcap : number) (n : nat) (oi : Z)
    (tca tcl cash : number) : option FinancialRecord :=
  pull_company no_float running_sum "ACME" ann
    (Ok (PRows [profile_of mcap]))
    (Ok (PRows (replicate n (quarter oi))))
    (Ok (PRows [balance_of tca tcl cash])).

End F64.

(** ** Predicates and sample data used in the statements below *)

(** [os.getenv("FMP_API_KEY", "")] is empty: the variable is unset or
    set to the empty string. *)
Definition key_missing (w : world) : Prop :=
  default "" (environ w !! "FMP_API_KEY") = "".

(** Python's [float] on the strings of the samples: none of them is a
    number. *)
Definition no_float : string -> option Q := fun _ => None.

Definition ok200 (p : payload) : response := {| status_code := 200; json := p |}.

Definition sample_profile : row :=
  <["companyName" := VStr "Acme Corp"]>
    (<["sector" := VStr "Technology"]>
      (<["mktCap" := VNum 500000000]> ∅)).

Definition quarter (oi : Q) : row := <["operatingIncome" := VNum oi]> ∅.

Definition sample_balance : row :=
  <["totalCurrentAssets" := VNum 200000000]>
    (<["totalCurrentLiabilities" := VNum 100000000]>
      (<["propertyPlantEquipmentNet" := VNum 50000000]>
        (<["cashAndShortTermInvestments" := VNum 30000000]>
          (<["totalDebt" := VNum 20000000]> ∅)))).

(** A provider that answers the three requests of one derivation: a
    profile, [n] income periods of operating income [oi] each, and a
    balance sheet. *)
Definition sample_world (n : nat) (oi : Q) : world :=
  {| environ := <["FMP_API_KEY" := "demo"]> ∅;
     clock := 0;
     limiter_calls := [];
     inbox := [ok200 (PRows [sample_profile]);
               ok200 (PRows (replicate n (quarter oi)));
               ok200 (PRows [sample_balance])];
     sent := [];
     files := ∅;
     disk_writable := true;
     stdout := [] |}.

(** The same provider, with no credential in the environment. *)
Definition world_without_key : world :=
  {| environ := ∅;
     clock := 0;
     limiter_calls := [];
     inbox := inbox (sample_world 4 10000000);
     sent := [];
     files := ∅;
     disk_writable := true;
     stdout := [] |}.

(** The same provider, with a cache directory that cannot be written. *)
Definition world_readonly_disk : world :=
  {| environ := environ (sample_world 4 10000000);
     clock := 0;
     limiter_calls := [];
     inbox := inbox (sample_world 4 10000000);
     sent := [];
     files := ∅;
     disk_writable := false;
     stdout := [] |}.

Definition sample_args : Args :=
  {| exchanges := ["NASDAQ"]; min_mcap := 50000000; limit := 400;
     sleep := 0.2; top := 30; random := false; countries := ["US"];
     annual := false |}.

(** The same arguments with [--top -1]. *)
Definition sample_args_all_but_last : Args :=
  {| exchanges := ["NASDAQ"]; min_mcap := 50000000; limit := 400;
     sleep := 0.2; top := -1; random := false; countries := ["US"];
     annual := false |}.

(** The record the derivation builds in [sample_world 4 10000000]. *)
Definition sample_record : FinancialRecord :=
  {| ticker := "ACME";
     name := VStr "Acme Corp";
     exchange := VNone;
     country := VNone;
     sector := VStr "Technology";
     industry := VNone;
     marketCap := 500000000;
     EV := 490000000;
     EBIT := 40000000;
     NWC := 90000000;
     PPE_Net := 50000000;
     Capital := 140000000;
     Cash := 30000000;
     TotalDebt := 20000000;
     EY := 40000000 # 490000000;
     ROC := 40000000 # 140000000 |}.

(** The record the derivation builds in [sample_world 4 (-10000000)]:
    a company with an operating loss. *)
Definition sample_loss_record : FinancialRecord :=
  {| ticker := "ACME";
     name := VStr "Acme Corp";
     exchange := VNone;
     country := VNone;
     sector := VStr "Technology";
     industry := VNone;
     marketCap := 500000000;
     EV := 490000000;
     EBIT := -40000000;
     NWC := 90000000;
     PPE_Net := 50000000;
     Capital := 140000000;
     Cash := 30000000;
     TotalDebt := 20000000;
     EY := -40000000 # 490000000;
     ROC := -40000000 # 140000000 |}.

Definition screener_row : row :=
  <["symbol" := VStr "ACME"]>
    (<["marketCap" := VNum 500000000]>
      (<["country" := VStr "US"]> ∅)).

(** A provider that answers a whole scan of one exchange listing one
    symbol; the cache directory is writable or not. *)
Definition pipeline_world (writable : bool) : world :=
  {| environ := <["FMP_API_KEY" := "demo"]> ∅;
     clock := 0;
     limiter_calls := [];
     inbox := ok200 (PRows [screener_row]) :: inbox (sample_world 4 10000000);
     sent := [];
     files := ∅;
     disk_writable := writable;
     stdout := [] |}.

(** The key of a check is in the result: the check ran. *)
Definition check_ran (v : option (option bool)) : bool :=
  match v with
  | Some _ => true
  | None => false
  end.

(** A screener row that carries no market cap. *)
Definition screener_row_no_mcap : row :=
  <["symbol" := VStr "NOCAP"]> (<["country" := VStr "US"]> ∅).

(** A provider whose screener lists a row without market cap and a
    complete one. *)
Definition screener_world : world :=
  {| environ := <["FMP_API_KEY" := "demo"]> ∅;
     clock := 0;
     limiter_calls := [];
     inbox := [ok200 (PRows [screener_row_no_mcap; screener_row])];
     sent := [];
     files := ∅;
     disk_writable := true;
     stdout := [] |}.

(** Number of cells of a column strictly greater than [x]. *)
Fixpoint count_greater (x : Q) (col : list Q) : nat :=
  match col with
  | [] => 0
  | v :: rest => (if Qltb x v then 1 else 0) + count_greater x rest
  end.

(** Both cells present: the rows [dropna] keeps. *)
Definition has_both {A} (ey roc : A -> option Q) (r : A) : bool :=
  match ey r, roc r with
  | Some _, Some _ => true
  | _, _ => false
  end.

(** Descending order on a column, and the order of the final sort. *)
Definition desc (a b : Q) : Prop := (b <= a)%Q.

Definition key_le {A} (a b : Ranked A) : Prop :=
  (MF_score a < MF_score b)%nat
  \/ MF_score a = MF_score b
     /\ ((EY_rank a < EY_rank b)%nat
         \/ EY_rank a = EY_rank b /\ (ROC_rank a <= ROC_rank b)%nat).

(** The rows of a ranked frame that carry the sort keys [(s, e, c)]:
    score, EY rank and ROC rank. *)
Definition has_keys {A} (s e c : nat) (x : Ranked A) : bool :=
  (MF_score x =? s)%nat && (EY_rank x =? e)%nat && (ROC_rank x =? c)%nat.

(** A second company with the same earnings yield and return on
    capital as [sample_record]. *)
Definition sample_twin : FinancialRecord :=
  {| ticker := "BETA";
     name := VStr "Beta Inc";
     exchange := exchange sample_record;
     country := country sample_record;
     sector := sector sample_record;
     industry := industry sample_record;
     marketCap := marketCap sample_record;
     EV := EV sample_record;
     EBIT := EBIT sample_record;
     NWC := NWC sample_record;
     PPE_Net := PPE_Net sample_record;
     Capital := Capital sample_record;
     Cash := Cash sample_record;
     TotalDebt := TotalDebt sample_record;
     EY := EY sample_record;
     ROC := ROC sample_record |}.

(** ** Predicates and sample data for the further properties *)

(** A call stamped [c] still counts at time [t]: the loop of
    [RateLimiter.wait] would not pop it. *)
Definition recent (t c : Q) : bool := negb (Qltb window (t - c)%Q).

Fixpoint count_recent (t : Q) (calls : list Q) : nat :=
  match calls with
  | [] => 0
  | c :: cs => (if recent t c then 1 else 0) + count_recent t cs
  end.

(** The state the limiter keeps: stamps in the order they were made,
    none in the future, and no more than [calls_per_minute] of them
    within the window that ends now. *)
Definition limiter_ok (w : world) : Prop :=
  StronglySorted Qle (limiter_calls w)
  /\ Forall (fun c => (c <= clock w)%Q) (limiter_calls w)
  /\ (count_recent (clock w) (limiter_calls w) <= calls_per_minute)%nat.

(** A limiter that has just seen [calls_per_minute] calls at time 0,
    one second ago. *)
Definition busy_world : world :=
  {| environ := <["FMP_API_KEY" := "demo"]> ∅;
     clock := 1;
     limiter_calls := replicate calls_per_minute 0%Q;
     inbox := [];
     sent := [];
     files := ∅;
     disk_writable := true;
     stdout := [] |}.

(** The credential in the environment is [key], and it is not empty. *)
Definition has_key (key : string) (w : world) : Prop :=
  environ w !! "FMP_API_KEY" = Some key /\ key <> "".

(** The provider asks to slow down (HTTP 429); the status is an error
    for [raise_for_status]. *)
Definition throttled (r : response) : bool := (status_code r =? 429)%Z.

Definition error_status (r : response) : bool :=
  ((400 <=? status_code r)%Z && (status_code r <? 600)%Z)%bool.

(** The request [fmp_get] sends for [path] and [params] under [key]. *)
Definition api_request (key path : string) (params : row) : request :=
  {| req_url := FMP_BASE +:+ path;
     req_params := <["apikey" := VStr key]> params |}.

(** Everything but the clock, the limiter and the traffic is the same
    in both worlds. *)
Definition same_store (w w' : world) : Prop :=
  environ w' = environ w /\ files w' = files w
  /\ disk_writable w' = disk_writable w /\ stdout w' = stdout w.

(** A provider that throttles twice and then answers, and one that
    throttles three times in a row. *)
Definition throttle : response := {| status_code := 429; json := PNull |}.

Definition patient_world : world :=
  {| environ := <["FMP_API_KEY" := "demo"]> ∅;
     clock := 0;
     limiter_calls := [];
     inbox := [throttle; throttle; ok200 (PRows [sample_profile])];
     sent := [];
     files := ∅;
     disk_writable := true;
     stdout := [] |}.

Definition throttling_world : world :=
  {| environ := <["FMP_API_KEY" := "demo"]> ∅;
     clock := 0;
     limiter_calls := [];
     inbox := [throttle; throttle; throttle; ok200 (PRows [sample_profile])];
     sent := [];
     files := ∅;
     disk_writable := true;
     stdout := [] |}.

(** A ticker written in ASCII: each byte of the string is one
    character, so [isalpha] and the length are those of Python. *)
Definition is_ascii (s : string) : bool :=
  forallb (fun c => (nat_of_ascii c <? 128)%nat) (list_ascii_of_string s).

Definition ascii_symbol (r : row) : Prop :=
  forall sym, dict_get r "symbol" = VStr sym -> is_ascii sym = true.

(** What [list_symbols] asks of a row, condition by condition: the
    ticker tests, the country list when there is one, and the market
    cap, absent counting as 0. *)
Definition listed (m : Q) (cs : option (list string)) (r : row) : Prop :=
  exists sym mc,
    dict_get r "symbol" = VStr sym
    /\ isalpha sym = true
    /\ (1 <= String.length sym <= 5)%nat
    /\ endswith sym "WT" = false /\ endswith sym "WS" = false
    /\ endswith sym "PR" = false
    /\ contains_char "-"%char sym = false
    /\ (forall l, cs = Some l ->
          exists c, dict_get r "country" = VStr c /\ c ∈ l)
    /\ as_number (py_or (dict_get r "marketCap") (VNum 0)) = Ok mc
    /\ (m <= mc)%Q.

(** A screener row whose market cap came as text. *)
Definition screener_row_text_mcap : row :=
  <["symbol" := VStr "TEXT"]>
    (<["marketCap" := VStr "1.2B"]>
      (<["country" := VStr "US"]> ∅)).

Definition text_mcap_world : world :=
  {| environ := <["FMP_API_KEY" := "demo"]> ∅;
     clock := 0;
     limiter_calls := [];
     inbox := [ok200 (PRows [screener_row; screener_row_text_mcap])];
     sent := [];
     files := ∅;
     disk_writable := true;
     stdout := [] |}.

(** [w'] is what a computation that sent at most [n] requests can
    leave of [w]: the same environment, cache files and disk; a clock
    that has not gone back; a limiter still sound if it was. *)
Definition within (n : nat) (w w' : world) : Prop :=
  environ w' = environ w /\ files w' = files w
  /\ disk_writable w' = disk_writable w
  /\ (clock w <= clock w')%Q
  /\ (limiter_ok w -> limiter_ok w')
  /\ (length (sent w') <= length (sent w) + n)%nat.

(** A balance sheet that reports no total debt, only its parts. *)
Definition split_debt_balance : row :=
  <["totalCurrentAssets" := VNum 200000000]>
    (<["totalCurrentLiabilities" := VNum 100000000]>
      (<["propertyPlantEquipmentNet" := VNum 50000000]>
        (<["cashAndShortTermInvestments" := VNum 30000000]>
          (<["shortTermDebt" := VNum 5000000]>
            (<["longTermDebt" := VNum 15000000]> ∅))))).

Definition split_debt_world : world :=
  {| environ := <["FMP_API_KEY" := "demo"]> ∅;
     clock := 0;
     limiter_calls := [];
     inbox := [ok200 (PRows [sample_profile]);
               ok200 (PRows (replicate 4 (quarter 10000000)));
               ok200 (PRows [split_debt_balance])];
     sent := [];
     files := ∅;
     disk_writable := true;
     stdout := [] |}.

(** A bank: its sector is on the exclusion list. *)
Definition bank_profile : row :=
  <["companyName" := VStr "Bank Corp"]>
    (<["sector" := VStr "Financial Services"]>
      (<["mktCap" := VNum 500000000]> ∅)).

Definition bank_world : world :=
  {| environ := <["FMP_API_KEY" := "demo"]> ∅;
     clock := 0;
     limiter_calls := [];
     inbox := [ok200 (PRows [bank_profile]);
               ok200 (PRows (replicate 4 (quarter 10000000)));
               ok200 (PRows [sample_balance])];
     sent := [];
     files := ∅;
     disk_writable := true;
     stdout := [] |}.

(** The number the health checks read off a cell,
    [q.get(field) or 0]; and a cell that is not a non-empty text, so
    that this reading cannot raise. *)
Definition amount (q : row) (field : string) : Q :=
  match as_number (py_or (dict_get q field) (VNum 0)) with
  | Ok x => x
  | Raise _ => 0%Q
  end.

Definition not_text (v : value) : Prop := forall s, v = VStr s -> s = "".

(** Quarters of a cash-flow statement and of a balance sheet. *)
Definition cash_quarter (ocf ni : Q) : row :=
  <["operatingCashFlow" := VNum ocf]> (<["netIncome" := VNum ni]> ∅).

Definition debt_quarter (debt equity : Q) : row :=
  <["totalDebt" := VNum debt]> (<["totalStockholdersEquity" := VNum equity]> ∅).

Definition revenue_quarter (rev : Q) : row := <["revenue" := VNum rev]> ∅.

(** * Properties *)

(** ** The monad *)

Lemma bind_Ok_inv {A B} (m : M A) (k : A -> M B) w b w' :
  bind m k w = (Ok b, w') ->
  exists a w1, m w = (Ok a, w1) /\ k a w1 = (Ok b, w').
Proof.
  unfold bind. destruct (m w) as [[a|e] w1]; [eauto | discriminate].
Qed.

Lemma lift_Ok_inv {A} (r : res A) w a w' :
  lift r w = (Ok a, w') -> r = Ok a /\ w' = w.
Proof. unfold lift. intros H. inversion H. auto. Qed.

(** ** The credential *)

Lemma fmp_get_with_no_key path params retries backoff w :
  key_missing w ->
  fmp_get_with path params retries backoff w = (Raise RuntimeError, w).
Proof.
  unfold key_missing, fmp_get_with, bind, getenv. intros ->. reflexivity.
Qed.

Lemma fmp_get_no_key path params w :
  key_missing w -> fmp_get path params w = (Raise RuntimeError, w).
Proof. apply fmp_get_with_no_key. Qed.

Lemma pull_company_no_key f sym ann w :
  key_missing w -> pull_company f sym ann w = (Ok None, w).
Proof.
  intros H. unfold pull_company, try_except, pull_company_body, fmp_profile, bind.
  rewrite fmp_get_no_key by exact H. reflexivity.
Qed.

Lemma list_symbols_no_key ex m cs w :
  key_missing w -> list_symbols ex m cs w = (Raise RuntimeError, w).
Proof.
  intros H. unfold list_symbols, bind. rewrite fmp_get_no_key by exact H.
  reflexivity.
Qed.

Lemma main_no_key f sh a w :
  key_missing w -> exchanges a <> [] -> main f sh a w = (Raise RuntimeError, w).
Proof.
  intros H Hex. unfold main. destruct (exchanges a) as [|ex rest]; [congruence|].
  unfold bind at 1. simpl. unfold bind at 1.
  rewrite list_symbols_no_key by exact H. reflexivity.
Qed.

(** C3 (as the code has it).  The credential is looked up by every
    provider call: with the credential missing, [fmp_get] raises
    [RuntimeError] before any request is sent.  The command-line
    pipeline asked for at least one exchange therefore stops at its
    first symbol listing, with no request sent and no per-symbol work
    done.  The per-symbol derivation, however, swallows the error: it
    returns "no record", as for any other failure. *)
Theorem missing_credential_behaviour (w : world) :
  key_missing w ->
  (forall path params, fmp_get path params w = (Raise RuntimeError, w))
  /\ (forall f sh a, exchanges a <> [] -> main f sh a w = (Raise RuntimeError, w))
  /\ (forall f sym ann, pull_company f sym ann w = (Ok None, w)).
Proof.
  intros H. split; [|split].
  - intros. apply fmp_get_no_key, H.
  - intros. apply main_no_key; assumption.
  - intros. apply pull_company_no_key, H.
Qed.

Lemma missing_credential_behaviour_witness :
  key_missing world_without_key
  /\ fmp_get "/profile/ACME" ∅ world_without_key
     = (Raise RuntimeError, world_without_key)
  /\ main no_float id sample_args world_without_key
     = (Raise RuntimeError, world_without_key)
  /\ pull_company no_float "ACME" false world_without_key
     = (Ok None, world_without_key).
Proof.
  assert (K : key_missing world_without_key) by reflexivity.
  destruct (missing_credential_behaviour world_without_key K) as (G & Mn & P).
  split; [exact K|]. split; [apply G|]. split; [|apply P].
  apply Mn. discriminate.
Defined.

(** C3 (as stated) fails: with no credential in the environment the
    per-symbol derivation does not abort; it returns the same "no
    record" answer as for a symbol without data, so the configuration
    error is swallowed as a per-symbol failure. *)
Lemma missing_credential_is_swallowed :
  key_missing world_without_key
  /\ fst (pull_company no_float "ACME" false world_without_key) = Ok None.
Proof. split; reflexivity. Qed.

(** ** The symbol universe *)

Lemma filter_symbols_kept m cs rows kept r :
  filter_symbols m cs rows = Ok kept ->
  r ∈ kept -> r ∈ rows /\ keep_symbol m cs r = Ok true.
Proof.
  revert kept. induction rows as [|x rows IH]; intros kept Hf Hr; simpl in Hf.
  - inversion Hf; subst. inversion Hr.
  - destruct (keep_symbol m cs x) as [b|e] eqn:Hk; [|discriminate].
    destruct (filter_symbols m cs rows) as [kept'|e]; [|discriminate].
    inversion Hf; subst; clear Hf.
    destruct b.
    + apply elem_of_cons in Hr as [->|Hr].
      * split; [left | exact Hk].
      * destruct (IH kept' eq_refl Hr) as [Hin Hkeep].
        split; [right; exact Hin | exact Hkeep].
    + destruct (IH kept' eq_refl Hr) as [Hin Hkeep].
      split; [right; exact Hin | exact Hkeep].
Qed.

Lemma keep_symbol_no_mcap m cs r :
  (0 < m)%Q -> dict_get r "marketCap" = VNone -> keep_symbol m cs r = Ok false.
Proof.
  intros Hm Hnone. unfold keep_symbol. rewrite Hnone. simpl.
  destruct (symbol_ok cs r); [|reflexivity].
  f_equal. apply not_true_is_false. intros Hle.
  apply Qle_bool_iff in Hle. apply (Qlt_not_le _ _ Hm Hle).
Qed.

(** C10.  A screener row whose [marketCap] is absent or null counts as
    market cap 0: under a strictly positive threshold its filter
    verdict is "drop", and it is in no universe [list_symbols]
    returns. *)
Theorem list_symbols_drops_rows_without_mcap
    (ex : string) (m : Q) (cs : option (list string)) (w w' : world)
    (rows : list row) (r : row) :
  (0 < m)%Q ->
  dict_get r "marketCap" = VNone ->
  py_or (dict_get r "marketCap") (VNum 0) = VNum 0
  /\ keep_symbol m cs r = Ok false
  /\ (list_symbols ex m cs w = (Ok rows, w') -> r ∉ rows).
Proof.
  intros Hm Hnone. split; [rewrite Hnone; reflexivity|].
  split; [apply keep_symbol_no_mcap; assumption|].
  intros Hl Hin. unfold list_symbols in Hl.
  apply bind_Ok_inv in Hl as (p & w1 & _ & Hl).
  apply bind_Ok_inv in Hl as (all & w2 & _ & Hl).
  apply lift_Ok_inv in Hl as [Hf _].
  destruct (filter_symbols_kept _ _ _ _ _ Hf Hin) as [_ Hk].
  rewrite keep_symbol_no_mcap in Hk by assumption. discriminate.
Qed.

Lemma list_symbols_drops_rows_without_mcap_witness :
  (0 < 50000000)%Q
  /\ dict_get screener_row_no_mcap "marketCap" = VNone
  /\ keep_symbol 50000000 (Some ["US"]) screener_row_no_mcap = Ok false
  /\ fst (list_symbols "NASDAQ" 50000000 (Some ["US"]) screener_world)
     = Ok [screener_row]
  /\ screener_row_no_mcap ∉ [screener_row].
Proof.
  assert (Hm : (0 < 50000000)%Q) by reflexivity.
  assert (Hn : dict_get screener_row_no_mcap "marketCap" = VNone)
    by (vm_compute; reflexivity).
  destruct (list_symbols_drops_rows_without_mcap "NASDAQ" 50000000 (Some ["US"])
              screener_world
              (snd (list_symbols "NASDAQ" 50000000 (Some ["US"]) screener_world))
              [screener_row] screener_row_no_mcap Hm Hn)
    as (_ & Hk & Hout).
  split; [exact Hm|]. split; [exact Hn|]. split; [exact Hk|].
  split; [vm_compute; reflexivity|].
  apply Hout. vm_compute. reflexivity.
Defined.

(** ** Health checks *)

Lemma run_debt_revenue_check_result sym q h w :
  exists v w',
    run_debt_revenue_check sym q h w
    = (Ok (if is_False (Some v)
           then set_passes_all false (set_debt_revenue_check v h)
           else set_debt_revenue_check v h), w').
Proof.
  unfold run_debt_revenue_check, bind, try_except, ret, lift.
  destruct (fmp_get _ _ w) as [[bs|e1] w1].
  - destruct (fmp_get _ _ w1) as [[inc|e2] w2].
    + destruct (debt_revenue_verdict bs inc) as [v|e3].
      * exists v, w2. destruct v as [[|]|]; reflexivity.
      * exists None, w2. reflexivity.
    + exists None, w2. reflexivity.
  - exists None, w1. reflexivity.
Qed.

Lemma run_cashflow_quality_check_result sym q h w :
  exists v w',
    run_cashflow_quality_check sym q h w
    = (Ok (if is_False (Some v)
           then set_passes_all false (set_cashflow_quality_check v h)
           else set_cashflow_quality_check v h), w').
Proof.
  unfold run_cashflow_quality_check, bind, try_except, ret, lift.
  destruct (fmp_get _ _ w) as [[cf|e1] w1].
  - destruct (cashflow_verdict cf) as [v|e2].
    + exists v, w1. destruct v as [[|]|]; reflexivity.
    + exists None, w1. reflexivity.
  - exists None, w1. reflexivity.
Qed.

(** C8.  [check_financial_health] always returns a result; a check's
    key is present exactly when the check is enabled; and [passes_all]
    is true unless some check stored [False].  A check that stored
    Python's [None] (too little data, or an exception inside the
    check) is not [False], so it never turns [passes_all] to false. *)
Theorem passes_all_unless_a_check_failed
    (sym : string) (check_dr check_cf : bool) (q_dr q_cf : Q) (w : world) :
  exists h w',
    check_financial_health_with sym check_dr check_cf q_dr q_cf w = (Ok h, w')
    /\ check_ran (debt_revenue_check h) = check_dr
    /\ check_ran (cashflow_quality_check h) = check_cf
    /\ passes_all h
       = negb (is_False (debt_revenue_check h)
               || is_False (cashflow_quality_check h))
    /\ is_False (Some None) = false
    /\ is_False None = false.
Proof.
  unfold check_financial_health_with.
  set (h0 := {| symbol := sym; passes_all := true;
                debt_revenue_check := None; cashflow_quality_check := None |}).
  destruct check_dr, check_cf; unfold bind.
  - destruct (run_debt_revenue_check_result sym q_dr h0 w) as (v1 & w1 & ->).
    match goal with |- context [run_cashflow_quality_check sym q_cf ?h w1] =>
      destruct (run_cashflow_quality_check_result sym q_cf h w1) as (v2 & w2 & ->)
    end.
    eexists _, w2. split; [reflexivity|].
    destruct v1 as [[|]|], v2 as [[|]|]; simpl; auto.
  - destruct (run_debt_revenue_check_result sym q_dr h0 w) as (v1 & w1 & ->).
    eexists _, w1. split; [reflexivity|].
    destruct v1 as [[|]|]; simpl; auto.
  - unfold ret.
    destruct (run_cashflow_quality_check_result sym q_cf h0 w) as (v2 & w2 & ->).
    eexists _, w2. split; [reflexivity|].
    destruct v2 as [[|]|]; simpl; auto.
  - unfold ret. eexists _, w. split; [reflexivity|].
    simpl; auto.
Qed.

(** ** Comparisons on rationals *)

Lemma Qltb_true x y : Qltb x y = true <-> (x < y)%Q.
Proof.
  unfold Qltb. rewrite negb_true_iff. split.
  - intros H. apply Qnot_le_lt. intros Hle.
    apply Qle_bool_iff in Hle. congruence.
  - intros H. apply not_true_is_false. intros Hle.
    apply Qle_bool_iff in Hle. apply (Qlt_not_le _ _ H Hle).
Qed.

Lemma Qltb_false x y : Qltb x y = false <-> (y <= x)%Q.
Proof.
  unfold Qltb. rewrite negb_false_iff. apply Qle_bool_iff.
Qed.

Lemma Qle_bool_false x y : Qle_bool x y = false <-> (y < x)%Q.
Proof.
  split.
  - intros H. apply Qnot_le_lt. intros Hle.
    apply Qle_bool_iff in Hle. congruence.
  - intros H. apply not_true_is_false. intros Hle.
    apply Qle_bool_iff in Hle. apply (Qlt_not_le _ _ H Hle).
Qed.

(** ** The per-symbol derivation *)

Section DerivationFacts.

Variable f : string -> option Q.

Lemma pull_company_total sym ann w :
  exists r w', pull_company f sym ann w = (Ok r, w').
Proof.
  unfold pull_company, try_except.
  destruct (pull_company_body f sym ann w) as [[r|e] w']; eauto.
Qed.

(** What a successful [derive] went through. *)
Lemma derive_Some sym prof ebit tca tcl ppe cash debt mcap w rec w' :
  derive sym prof ebit tca tcl ppe cash debt mcap w = (Ok (Some rec), w') ->
  exists e a l p c d m,
    ebit = Some e /\ tca = Some a /\ tcl = Some l /\ ppe = Some p
    /\ cash = Some c /\ debt = Some d /\ mcap = Some m
    /\ w' = w
    /\ marketCap rec = m /\ TotalDebt rec = d /\ Cash rec = c
    /\ PPE_Net rec = p /\ EBIT rec = e
    /\ EV rec = (m + d - c)%Q
    /\ NWC rec = max0 ((a - c) - (l - d))
    /\ Capital rec = (NWC rec + p)%Q
    /\ EY rec = (e / EV rec)%Q
    /\ ROC rec = (if Qltb 1 (e / Capital rec) then 1 else e / Capital rec)%Q
    /\ Qle_bool (EV rec) 0 = false
    /\ Qle_bool (Capital rec) 0 = false
    /\ Qltb 0.5 (EY rec) = false
    /\ Qltb (Capital rec) 10e6 = false.
Proof.
  intros H.
  destruct ebit as [e|], tca as [a|], tcl as [l|], ppe as [p|],
    cash as [c|], debt as [d|], mcap as [m|];
    try (unfold derive, bind, print, ret in H; discriminate H).
  exists e, a, l, p, c, d, m.
  unfold derive in H.
  destruct (Qle_bool (m + d - c) 0) eqn:Hev; [discriminate H|].
  destruct (Qle_bool (max0 (a - c - (l - d)) + p) 0) eqn:Hcap; [discriminate H|].
  destruct (Qltb 0.5 (e / (m + d - c))) eqn:Hey; [discriminate H|].
  destruct (Qltb (max0 (a - c - (l - d)) + p) 10e6) eqn:Hmin; [discriminate H|].
  unfold ret in H. inversion H; subst; clear H. simpl.
  repeat split; assumption.
Qed.

(** What a successful [pull_company] went through: the three fetches,
    the fields read off them, and the final [derive]. *)
Lemma pull_company_Some sym ann w rec w' :
  pull_company f sym ann w = (Ok (Some rec), w') ->
  exists prof w1 inc w2 bal ebit tca tcl ppe cash debt,
    fmp_profile sym w = (Ok prof, w1)
    /\ fmp_income sym ann w1 = (Ok inc, w2)
    /\ fmp_balance sym w2 = (Ok bal, w')
    /\ (exists x, ttm_ebit inc = Ok x)
    /\ ebit_of f ann inc = Ok ebit
    /\ _latest f bal "totalCurrentAssets" = Ok tca
    /\ _latest f bal "totalCurrentLiabilities" = Ok tcl
    /\ _latest f bal "propertyPlantEquipmentNet" = Ok ppe
    /\ _latest f bal "cashAndShortTermInvestments" = Ok cash
    /\ _first_available f bal ["totalDebt"; "shortTermDebt"; "longTermDebt"] = Ok debt
    /\ derive sym prof ebit tca tcl ppe cash debt (profile_mcap f prof) w'
       = (Ok (Some rec), w').
Proof.
  intros H. unfold pull_company, try_except in H.
  destruct (pull_company_body f sym ann w) as [[r|e] w0] eqn:Hb;
    [|unfold ret in H; discriminate H].
  inversion H; subst; clear H.
  unfold pull_company_body in Hb.
  apply bind_Ok_inv in Hb as (prof & w1 & Hprof & Hb).
  destruct (size prof =? 0)%nat; [unfold ret in Hb; discriminate Hb|].
  destruct (in_excluded_sectors (dict_get prof "sector"));
    [unfold ret in Hb; discriminate Hb|].
  apply bind_Ok_inv in Hb as (inc & w2 & Hinc & Hb).
  apply bind_Ok_inv in Hb as (bal & w3 & Hbal & Hb).
  apply bind_Ok_inv in Hb as (x & w4 & Hx & Hb).
  apply lift_Ok_inv in Hx as [Hx ->].
  apply bind_Ok_inv in Hb as (ebit & w5 & He & Hb).
  apply lift_Ok_inv in He as [He ->].
  apply bind_Ok_inv in Hb as (tca & w6 & Ha & Hb).
  apply lift_Ok_inv in Ha as [Ha ->].
  apply bind_Ok_inv in Hb as (tcl & w7 & Hl & Hb).
  apply lift_Ok_inv in Hl as [Hl ->].
  apply bind_Ok_inv in Hb as (ppe & w8 & Hp & Hb).
  apply lift_Ok_inv in Hp as [Hp ->].
  apply bind_Ok_inv in Hb as (cash & w9 & Hc & Hb).
  apply lift_Ok_inv in Hc as [Hc ->].
  apply bind_Ok_inv in Hb as (debt & w10 & Hd & Hb).
  apply lift_Ok_inv in Hd as [Hd ->].
  pose proof (derive_Some _ _ _ _ _ _ _ _ _ _ _ _ Hb) as D.
  destruct D as (_ & _ & _ & _ & _ & _ & _ & _ & _ & _ & _ & _ & _ & _ & Hw & _).
  subst w3.
  exists prof, w1, inc, w2, bal, ebit, tca, tcl, ppe, cash, debt.
  repeat split; eauto.
Qed.

End DerivationFacts.

(** ** The values a record stores *)

Section BinaryFacts.

Import F64.

Lemma res_bind_Ok {A B} (m : res A) (k : A -> res B) b :
  m ≫= k = Ok b -> exists a, m = Ok a /\ k a = Ok b.
Proof. destruct m as [a|e]; simpl; [eauto | discriminate]. Qed.

Lemma SFcompare_antisym x y :
  SFcompare y x = option_map CompOpp (SFcompare x y).
Proof.
  destruct x as [sx|sx| |sx mx ex], y as [sy|sy| |sy my ey]; simpl;
    try destruct sx; try destruct sy; try reflexivity.
  all: rewrite (Z.compare_antisym ey ex);
    destruct (ey ?= ex)%Z; simpl; try reflexivity;
    change (PosDef.Pos.compare_cont Eq my mx) with (Pos.compare my mx);
    change (PosDef.Pos.compare_cont Eq mx my) with (Pos.compare mx my);
    rewrite (Pos.compare_antisym my mx);
    destruct (my ?= mx)%positive; reflexivity.
Qed.

Lemma SFcompare_defined x y :
  is_nan x = false -> is_nan y = false -> exists c, SFcompare x y = Some c.
Proof.
  destruct x, y; simpl; intros; try discriminate; eauto.
Qed.

Lemma SFcompare_refl x : is_nan x = false -> SFcompare x x = Some Eq.
Proof.
  destruct x as [s|s| |s m e]; simpl; intros H; try discriminate; try reflexivity.
  - destruct s; reflexivity.
  - rewrite Z.compare_refl.
    change (PosDef.Pos.compare_cont Eq m m) with (Pos.compare m m).
    rewrite Pos.compare_refl. destruct s; reflexivity.
Qed.

(** Among floats that are numbers, [<=] fails exactly when [>] holds. *)
Lemma fleb_false_fltb x y :
  fleb x y = false -> is_nan x = false -> is_nan y = false -> fltb y x = true.
Proof.
  unfold fleb, fltb, SFleb, SFltb. intros H Hx Hy.
  rewrite (SFcompare_antisym x y).
  destruct (SFcompare_defined x y Hx Hy) as [c Hc]. rewrite Hc in *.
  destruct c; simpl; congruence.
Qed.

Lemma fltb_false_fleb x y :
  fltb x y = false -> is_nan x = false -> is_nan y = false -> fleb y x = true.
Proof.
  unfold fleb, fltb, SFleb, SFltb. intros H Hx Hy.
  rewrite (SFcompare_antisym x y).
  destruct (SFcompare_defined x y Hx Hy) as [c Hc]. rewrite Hc in *.
  destruct c; simpl; congruence.
Qed.

Lemma feqb_refl x : is_nan x = false -> feqb x x = true.
Proof.
  intros H. unfold feqb, SFeqb. rewrite (SFcompare_refl x H). reflexivity.
Qed.

(** A comparison with NaN is false. *)
Lemma fleb_nan_l y : fleb nan y = false.
Proof. reflexivity. Qed.

Lemma fltb_nan_r x : fltb x nan = false.
Proof. destruct x; reflexivity. Qed.

Lemma add_float_max0 x p :
  add_float (max0 x) p = Ok (fadd (if fltb x fzero then fzero else x) p).
Proof. unfold max0. destruct (fltb x fzero); reflexivity. Qed.

Lemma max0_not_negative x : is_negative (max0 x) = false.
Proof.
  unfold max0. destruct (fltb x fzero) eqn:H; simpl; [reflexivity | exact H].
Qed.

Lemma max0_nonnegative x : is_nan x = false -> is_nonnegative (max0 x) = true.
Proof.
  intros Hx. unfold max0. destruct (fltb x fzero) eqn:H; simpl; [reflexivity|].
  apply fltb_false_fleb; [exact H | exact Hx | reflexivity].
Qed.

Section DerivationReturns.

Variable f : string -> option float.
Variable s : list number -> res number.

(** What a successful [derive] went through. *)
Lemma derive_returns sym prof ebit tca tcl ppe cash debt mcap rec :
  derive sym prof ebit tca tcl ppe cash debt mcap = Ok (Some rec) ->
  exists e a l p c d m ratio,
    ebit = Some e /\ tca = Some a /\ tcl = Some l /\ ppe = Some p
    /\ cash = Some c /\ debt = Some d /\ mcap = Some m
    /\ marketCap rec = m /\ TotalDebt rec = d /\ Cash rec = c
    /\ PPE_Net rec = p /\ EBIT rec = e
    /\ EV rec = fsub (fadd m d) c
    /\ NWC rec = max0 (fsub (fsub a c) (fsub l d))
    /\ add_float (NWC rec) p = Ok (Capital rec)
    /\ div_float e (EV rec) = Ok (EY rec)
    /\ div_float e (Capital rec) = Ok ratio
    /\ ROC rec = (if fltb fone ratio then fone else ratio)
    /\ fleb (EV rec) fzero = false
    /\ fleb (Capital rec) fzero = false
    /\ fltb fhalf (EY rec) = false
    /\ fltb (Capital rec) ten_million = false.
Proof.
  intros H.
  destruct ebit as [e|], tca as [a|], tcl as [l|], ppe as [p|],
    cash as [c|], debt as [d|], mcap as [m|]; try discriminate H.
  unfold derive in H.
  apply res_bind_Ok in H as (capital & Hcap & H).
  destruct (fleb (fsub (fadd m d) c) fzero) eqn:Hev; [discriminate H|].
  destruct (fleb capital fzero) eqn:Hpos; [discriminate H|].
  apply res_bind_Ok in H as (ey & Hey & H).
  apply res_bind_Ok in H as (ratio & Hroc & H).
  destruct (fltb fhalf ey) eqn:Hhalf; [discriminate H|].
  destruct (fltb capital ten_million) eqn:Hmin; [discriminate H|].
  inversion H; subst; clear H. simpl.
  exists e, a, l, p, c, d, m, ratio.
  repeat (split; [first [reflexivity | assumption]|]). assumption.
Qed.

(** What a successful [pull_company] went through. *)
Lemma pull_company_returns sym ann profile income balance rec :
  pull_company f s sym ann profile income balance = Some rec ->
  exists prof inc bal ebit tca tcl ppe cash debt,
    fmp_profile profile = Ok prof
    /\ fmp_income income = Ok inc
    /\ fmp_balance balance = Ok bal
    /\ (exists x, ttm_ebit s inc = Ok x)
    /\ ebit_of f s ann inc = Ok ebit
    /\ _latest f bal "totalCurrentAssets" = Ok tca
    /\ _latest f bal "totalCurrentLiabilities" = Ok tcl
    /\ _latest f bal "propertyPlantEquipmentNet" = Ok ppe
    /\ _latest f bal "cashAndShortTermInvestments" = Ok cash
    /\ _first_available f bal ["totalDebt"; "shortTermDebt"; "longTermDebt"] = Ok debt
    /\ derive sym prof ebit tca tcl ppe cash debt (profile_mcap f prof)
       = Ok (Some rec).
Proof.
  unfold pull_company. intros H.
  destruct (pull_company_body f s sym ann profile income balance) as [r|e] eqn:Hb;
    [subst r | discriminate H].
  unfold pull_company_body in Hb.
  apply res_bind_Ok in Hb as (prof & Hprof & Hb).
  destruct (size prof =? 0)%nat; [discriminate Hb|].
  destruct (in_excluded_sectors (dict_get prof "sector")); [discriminate Hb|].
  apply res_bind_Ok in Hb as (inc & Hinc & Hb).
  apply res_bind_Ok in Hb as (bal & Hbal & Hb).
  apply res_bind_Ok in Hb as (x & Hx & Hb).
  apply res_bind_Ok in Hb as (ebit & He & Hb).
  apply res_bind_Ok in Hb as (tca & Ha & Hb).
  apply res_bind_Ok in Hb as (tcl & Hl & Hb).
  apply res_bind_Ok in Hb as (ppe & Hp & Hb).
  apply res_bind_Ok in Hb as (cash & Hc & Hb).
  apply res_bind_Ok in Hb as (debt & Hd & Hb).
  exists prof, inc, bal, ebit, tca, tcl, ppe, cash, debt.
  repeat (split; [first [eassumption | eexists; eassumption]|]). exact Hb.
Qed.

End DerivationReturns.

(** C7 (as the code has it).  The enterprise value a returned record
    stores is the float that [marketCap + TotalDebt - Cash] evaluates
    to on the stored fields, left to right in binary64.  The test
    [EV <= 0] is false of it: when it is a number it is positive and
    compares equal to that expression, and when it is NaN, which
    infinite inputs produce, it is neither.  A derivation whose
    enterprise value comes out at or below zero returns no record. *)
Theorem ev_is_mcap_plus_debt_minus_cash :
  (forall f s sym ann profile income balance rec,
      pull_company f s sym ann profile income balance = Some rec ->
      EV rec = fsub (fadd (marketCap rec) (TotalDebt rec)) (Cash rec)
      /\ fleb (EV rec) fzero = false
      /\ (is_nan (EV rec) = false ->
          fltb fzero (EV rec) = true
          /\ feqb (EV rec)
               (fsub (fadd (marketCap rec) (TotalDebt rec)) (Cash rec)) = true))
  /\ (forall sym prof e a l p c d m,
         fleb (fsub (fadd m d) c) fzero = true ->
         derive sym prof (Some e) (Some a) (Some l) (Some p) (Some c)
           (Some d) (Some m) = Ok None).
Proof.
  split.
  - intros f s sym ann profile income balance rec H.
    apply pull_company_returns in H
      as (prof & inc & bal & ebit & tca & tcl & ppe & cash & debt & H).
    destruct H as (_ & _ & _ & _ & _ & _ & _ & _ & _ & _ & H).
    apply derive_returns in H
      as (e & a & l & p & c & d & m & ratio & _ & _ & _ & _ & _ & _ & _
          & Hm & Hd & Hc & _ & _ & Hev & _ & _ & _ & _ & _ & Hpos & _).
    rewrite Hm, Hd, Hc.
    split; [exact Hev|]. split; [exact Hpos|].
    intros Hnan. split.
    + apply fleb_false_fltb; [exact Hpos | exact Hnan | reflexivity].
    + rewrite <- Hev. apply feqb_refl, Hnan.
  - intros sym prof e a l p c d m Hle. unfold derive.
    rewrite add_float_max0. simpl. rewrite Hle. reflexivity.
Qed.

Lemma ev_is_mcap_plus_debt_minus_cash_witness :
  exists rec,
    pull_sample false (PInt 500000000) 4 10000000
      (PInt 200000000) (PInt 100000000) (PInt 30000000) = Some rec
    /\ EV rec = float_of_Z 490000000
    /\ fltb fzero (EV rec) = true
    /\ feqb (EV rec) (fsub (fadd (marketCap rec) (TotalDebt rec)) (Cash rec)) = true
    /\ derive "ACME" (profile_of (PInt 2)) (Some (PInt 1)) (Some fone) (Some fone)
         (Some fone) (Some (float_of_Z 5)) (Some fone) (Some (float_of_Z 2))
       = Ok None.
Proof.
  destruct ev_is_mcap_plus_debt_minus_cash as [Hrec Hdrop].
  destruct (pull_sample false (PInt 500000000) 4 10000000
              (PInt 200000000) (PInt 100000000) (PInt 30000000))
    as [rec|] eqn:Hpull; [|vm_compute in Hpull; discriminate Hpull].
  exists rec. split; [reflexivity|].
  destruct (Hrec _ _ _ _ _ _ _ _ Hpull) as (_ & _ & Hnum).
  vm_compute in Hpull. inversion Hpull; subst rec; clear Hpull.
  split; [vm_compute; reflexivity|].
  destruct (Hnum eq_refl) as [Hpos Heq].
  split; [exact Hpos|]. split; [exact Heq|].
  apply Hdrop. vm_compute. reflexivity.
Defined.

(** C7 (as stated) fails when the stored enterprise value is not a
    number: with an infinite market cap and infinite cash (a provider
    sending 1e999 for both), [inf + debt - inf] is NaN, no test
    rejects it, and the record is returned with an EV that is neither
    equal to [marketCap + TotalDebt - Cash] nor positive. *)
Lemma ev_can_be_nan :
  exists rec,
    pull_sample false (PFloat infinity) 4 10000000
      (PInt 200000000) (PInt 100000000) (PFloat infinity) = Some rec
    /\ EV rec = nan
    /\ feqb (EV rec) (fsub (fadd (marketCap rec) (TotalDebt rec)) (Cash rec)) = false
    /\ fltb fzero (EV rec) = false.
Proof.
  eexists. split; [vm_compute; reflexivity|].
  vm_compute. repeat split.
Qed.

(** C9 (as the code has it).  The stored working capital is
    [max(raw, 0)] as Python computes it: the raw difference of the
    floats unless that is below zero, and then the integer 0.  So it
    is never negative, and it is at least zero unless it is NaN; the
    stored capital is the stored working capital plus net fixed
    assets, in float arithmetic. *)
Theorem stored_nwc_is_floored
    (f : string -> option float) (s : list number -> res number)
    (sym : string) (ann : bool) (profile income balance : res payload)
    (rec : FinancialRecord) :
  pull_company f s sym ann profile income balance = Some rec ->
  exists bal tca tcl,
    fmp_balance balance = Ok bal
    /\ _latest f bal "totalCurrentAssets" = Ok (Some tca)
    /\ _latest f bal "totalCurrentLiabilities" = Ok (Some tcl)
    /\ let raw := fsub (fsub tca (Cash rec)) (fsub tcl (TotalDebt rec)) in
       NWC rec = max0 raw
       /\ (fltb raw fzero = true -> NWC rec = PInt 0)
       /\ (fltb raw fzero = false -> NWC rec = PFloat raw)
       /\ is_negative (NWC rec) = false
       /\ (is_nan raw = false -> is_nonnegative (NWC rec) = true)
       /\ add_float (NWC rec) (PPE_Net rec) = Ok (Capital rec).
Proof.
  intros H.
  apply pull_company_returns in H
    as (prof & inc & bal & ebit & tca & tcl & ppe & cash & debt & H).
  destruct H as (_ & _ & Hbal & _ & _ & Ha & Hl & _ & _ & _ & H).
  apply derive_returns in H
    as (e & a & l & p & c & d & m & ratio & _ & -> & -> & _ & _ & _ & _
        & _ & Hd & Hc & Hp & _ & _ & Hnwc & Hcap & _).
  exists bal, a, l. rewrite Hd, Hc, Hp.
  split; [exact Hbal|]. split; [exact Ha|]. split; [exact Hl|].
  cbv zeta. rewrite Hnwc.
  split; [reflexivity|].
  split; [intros Hneg; unfold max0; rewrite Hneg; reflexivity|].
  split; [intros Hneg; unfold max0; rewrite Hneg; reflexivity|].
  split; [apply max0_not_negative|].
  split; [apply max0_nonnegative|].
  rewrite <- Hnwc. exact Hcap.
Qed.

Lemma stored_nwc_is_floored_witness :
  exists rec,
    pull_sample false (PInt 500000000) 4 10000000
      (PInt 100000000) (PInt 200000000) (PInt 30000000) = Some rec
    /\ fltb (fsub (fsub (float_of_Z 100000000) (Cash rec))
                  (fsub (float_of_Z 200000000) (TotalDebt rec))) fzero = true
    /\ NWC rec = PInt 0
    /\ is_negative (NWC rec) = false
    /\ add_float (NWC rec) (PPE_Net rec) = Ok (Capital rec)
    /\ Capital rec = float_of_Z 50000000.
Proof.
  destruct (pull_sample false (PInt 500000000) 4 10000000
              (PInt 100000000) (PInt 200000000) (PInt 30000000))
    as [rec|] eqn:Hpull; [|vm_compute in Hpull; discriminate Hpull].
  exists rec. split; [reflexivity|].
  destruct (stored_nwc_is_floored _ _ _ _ _ _ _ _ Hpull)
    as (bal & tca & tcl & Hbal & Ha & Hl & _ & Hfloor & _ & Hneg & _ & Hcap).
  vm_compute in Hbal. inversion Hbal; subst bal; clear Hbal.
  vm_compute in Ha. inversion Ha; subst tca; clear Ha.
  vm_compute in Hl. inversion Hl; subst tcl; clear Hl.
  vm_compute in Hpull. inversion Hpull; subst rec; clear Hpull.
  split; [vm_compute; reflexivity|].
  split; [apply Hfloor; vm_compute; reflexivity|].
  split; [exact Hneg|]. split; [exact Hcap|].
  vm_compute. reflexivity.
Defined.

(** C9 (as stated) fails when the raw working capital is not a number:
    with infinite current assets and infinite current liabilities (a
    provider sending 1e999 for both), [inf - inf] is NaN, [max(nan, 0)]
    is NaN, and the record is returned with a stored NWC for which
    [0 <= NWC] is false. *)
Lemma nwc_can_be_nan :
  exists rec,
    pull_sample false (PInt 500000000) 4 10000000
      (PFloat infinity) (PFloat infinity) (PInt 30000000) = Some rec
    /\ NWC rec = PFloat nan
    /\ is_nonnegative (NWC rec) = false
    /\ Capital rec = nan.
Proof.
  eexists. split; [vm_compute; reflexivity|].
  vm_compute. repeat split.
Qed.

(** C2 (as the code has it).  A returned record passed the four tests
    of the code: [EV <= 0], [Capital < 10e6] and [EY > 0.5] are false
    of it, and [ROC > 1.0] is false once the ratio has been clamped.
    For a field that is a number this means EV > 0, Capital >= 10e6,
    EY <= 0.5 and ROC <= 1.0; a NaN field passes every test.  ROC is
    EBIT / Capital, replaced by 1.0 when that is above 1.0, and a
    derivation whose ratio is above 1.0 does return its record.  There
    is no lower bound on ROC. *)
Theorem output_record_bounds :
  (forall f s sym ann profile income balance rec,
      pull_company f s sym ann profile income balance = Some rec ->
      fleb (EV rec) fzero = false
      /\ fltb (Capital rec) ten_million = false
      /\ fltb fhalf (EY rec) = false
      /\ fltb fone (ROC rec) = false
      /\ (is_nan (EV rec) = false -> fltb fzero (EV rec) = true)
      /\ (is_nan (Capital rec) = false -> fleb ten_million (Capital rec) = true)
      /\ (is_nan (EY rec) = false -> fleb (EY rec) fhalf = true)
      /\ (is_nan (ROC rec) = false -> fleb (ROC rec) fone = true)
      /\ exists ratio,
           div_float (EBIT rec) (Capital rec) = Ok ratio
           /\ ROC rec = (if fltb fone ratio then fone else ratio))
  /\ (forall sym prof e a l p c d m capital ey ratio,
         add_float (max0 (fsub (fsub a c) (fsub l d))) p = Ok capital ->
         fleb (fsub (fadd m d) c) fzero = false ->
         fleb capital fzero = false ->
         div_float e (fsub (fadd m d) c) = Ok ey ->
         div_float e capital = Ok ratio ->
         fltb fhalf ey = false ->
         fltb capital ten_million = false ->
         fltb fone ratio = true ->
         exists rec,
           derive sym prof (Some e) (Some a) (Some l) (Some p) (Some c)
             (Some d) (Some m) = Ok (Some rec)
           /\ EBIT rec = e /\ Capital rec = capital /\ ROC rec = fone).
Proof.
  split.
  - intros f s sym ann profile income balance rec H.
    apply pull_company_returns in H
      as (prof & inc & bal & ebit & tca & tcl & ppe & cash & debt & H).
    destruct H as (_ & _ & _ & _ & _ & _ & _ & _ & _ & _ & H).
    apply derive_returns in H
      as (e & a & l & p & c & d & m & ratio & _ & _ & _ & _ & _ & _ & _
          & _ & _ & _ & _ & He & _ & _ & _ & _ & Hratio & Hroc
          & Hev & _ & Hey & Hmin).
    assert (Hclamp : fltb fone (ROC rec) = false).
    { rewrite Hroc. destruct (fltb fone ratio) eqn:Hr; [reflexivity | exact Hr]. }
    split; [exact Hev|]. split; [exact Hmin|]. split; [exact Hey|].
    split; [exact Hclamp|].
    split; [intros Hn; apply fleb_false_fltb; [exact Hev | exact Hn | reflexivity]|].
    split; [intros Hn; apply fltb_false_fleb; [exact Hmin | exact Hn | reflexivity]|].
    split; [intros Hn; apply fltb_false_fleb; [exact Hey | reflexivity | exact Hn]|].
    split; [intros Hn; apply fltb_false_fleb; [exact Hclamp | reflexivity | exact Hn]|].
    exists ratio. rewrite He. split; [exact Hratio | exact Hroc].
  - intros sym prof e a l p c d m capital ey ratio
      Hcap Hev Hpos Hey Hratio Hhalf Hmin Hclamp.
    unfold derive. rewrite Hcap. simpl. rewrite Hev, Hpos, Hey. simpl.
    rewrite Hratio. simpl. rewrite Hhalf, Hmin, Hclamp.
    eexists. split; [reflexivity|]. simpl. repeat split.
Qed.

Lemma output_record_bounds_witness :
  exists rec,
    pull_sample false (PInt 500000000) 4 50000000
      (PInt 200000000) (PInt 100000000) (PInt 30000000) = Some rec
    /\ EBIT rec = PInt 200000000
    /\ Capital rec = float_of_Z 140000000
    /\ div_float (EBIT rec) (Capital rec)
       = Ok (fdiv (float_of_Z 200000000) (float_of_Z 140000000))
    /\ fltb fone (fdiv (float_of_Z 200000000) (float_of_Z 140000000)) = true
    /\ ROC rec = fone
    /\ fltb fzero (EV rec) = true
    /\ fleb ten_million (Capital rec) = true
    /\ fleb (EY rec) fhalf = true
    /\ fleb (ROC rec) fone = true
    /\ exists kept,
         derive "ACME" (profile_of (PInt 500000000)) (Some (PInt 200000000))
           (Some (float_of_Z 200000000)) (Some (float_of_Z 100000000))
           (Some (float_of_Z 50000000)) (Some (float_of_Z 30000000))
           (Some (float_of_Z 20000000)) (Some (float_of_Z 500000000))
         = Ok (Some kept)
         /\ ROC kept = fone.
Proof.
  destruct output_record_bounds as [Hrec Hkeep].
  destruct (pull_sample false (PInt 500000000) 4 50000000
              (PInt 200000000) (PInt 100000000) (PInt 30000000))
    as [rec|] eqn:Hpull; [|vm_compute in Hpull; discriminate Hpull].
  exists rec. split; [reflexivity|].
  destruct (Hrec _ _ _ _ _ _ _ _ Hpull)
    as (_ & _ & _ & _ & Hev & Hcap & Hey & Hroc & ratio & Hratio & Hclamp).
  vm_compute in Hpull. inversion Hpull; subst rec; clear Hpull.
  split; [reflexivity|]. split; [vm_compute; reflexivity|].
  split; [vm_compute; reflexivity|]. split; [vm_compute; reflexivity|].
  split; [vm_compute; reflexivity|].
  split; [apply Hev; reflexivity|]. split; [apply Hcap; reflexivity|].
  split; [apply Hey; reflexivity|]. split; [apply Hroc; reflexivity|].
  destruct (Hkeep "ACME" (profile_of (PInt 500000000)) (PInt 200000000)
              (float_of_Z 200000000) (float_of_Z 100000000)
              (float_of_Z 50000000) (float_of_Z 30000000)
              (float_of_Z 20000000) (float_of_Z 500000000)
              (float_of_Z 140000000)
              (fdiv (float_of_Z 200000000) (float_of_Z 490000000))
              (fdiv (float_of_Z 200000000) (float_of_Z 140000000)))
    as (kept & Hk & _ & _ & Hone); try (vm_compute; reflexivity).
  exists kept. split; [exact Hk | exact Hone].
Defined.

(** C2 (as stated) fails on its lower bound for return on capital: a
    company with an operating loss passes every test and its record
    carries a negative return on capital. *)
Lemma output_roc_can_be_negative :
  exists rec,
    pull_sample false (PInt 500000000) 4 (-10000000)
      (PInt 200000000) (PInt 100000000) (PInt 30000000) = Some rec
    /\ EBIT rec = PInt (-40000000)
    /\ fltb (ROC rec) fzero = true
    /\ fleb fzero (ROC rec) = false.
Proof.
  eexists. split; [vm_compute; reflexivity|].
  vm_compute. repeat split.
Qed.

(** ** EBIT *)

Lemma mapM_whole_ints zs :
  mapM whole (map (fun z => VNum (PInt z)) zs) = Some zs.
Proof.
  induction zs as [|z zs IH]; [reflexivity|].
  simpl. rewrite IH. reflexivity.
Qed.

Lemma py_sum_whole s field qs zs :
  Forall2 (fun q z => py_or (dict_get q field) (VNum (PInt 0)) = VNum (PInt z))
    qs zs ->
  py_sum s (field_or_zero field qs) = Ok (PInt (Zsum zs)).
Proof.
  intros H.
  assert (E : field_or_zero field qs = map (fun z => VNum (PInt z)) zs).
  { induction H as [|q z qs zs Hq _ IH]; [reflexivity|].
    unfold field_or_zero in *. cbn [map]. rewrite Hq, IH. reflexivity. }
  rewrite E. unfold py_sum. rewrite mapM_whole_ints. reflexivity.
Qed.

Section EbitFacts.

Variable f : string -> option float.
Variable s : list number -> res number.

Lemma ebit_of_annual q rest x :
  is_blank (dict_get q "operatingIncome") = false ->
  py_float f (dict_get q "operatingIncome") = Ok x ->
  ebit_of f s true (PRows (q :: rest)) = Ok (Some (PFloat x)).
Proof.
  intros Hb Hx. unfold ebit_of, _latest. simpl. rewrite Hb, Hx. reflexivity.
Qed.

Lemma ebit_of_four periods n :
  (4 <= length periods)%nat ->
  py_sum s (field_or_zero "operatingIncome" (firstn 4 periods)) = Ok n ->
  ebit_of f s false (PRows periods) = Ok (Some n).
Proof.
  intros Hlen Hn.
  assert (Ht : payload_truthy (PRows periods) = true)
    by (destruct periods; [simpl in Hlen; lia | reflexivity]).
  unfold ebit_of, ttm_ebit. rewrite Ht.
  change (payload_size (PRows periods)) with (length periods).
  rewrite (proj2 (Nat.leb_le _ _) Hlen). cbn [andb].
  unfold sum_last_four, payload_head. cbn [mbind res_bind].
  rewrite Hn. reflexivity.
Qed.

Lemma ebit_of_fewer periods n x :
  periods <> [] -> (length periods < 4)%nat ->
  py_sum s (field_or_zero "operatingIncome" periods) = Ok n ->
  mul_float n (fdiv (float_of_Z 4) (float_of_Z (Z.of_nat (length periods)))) = Ok x ->
  ebit_of f s false (PRows periods) = Ok (Some (PFloat x)).
Proof.
  intros Hne Hlen Hn Hx.
  assert (Ht : payload_truthy (PRows periods) = true)
    by (destruct periods; [congruence | reflexivity]).
  assert (H0 : (length periods =? 0)%nat = false)
    by (destruct periods; [congruence | reflexivity]).
  unfold ebit_of, ttm_ebit. rewrite Ht.
  change (payload_size (PRows periods)) with (length periods).
  rewrite (proj2 (Nat.leb_gt _ _) Hlen). cbn [andb].
  unfold sum_annualized, payload_rows, four_over.
  change (payload_size (PRows periods)) with (length periods).
  cbn [mbind res_bind]. rewrite Hn, H0. cbn [mbind res_bind mret res_ret].
  rewrite Hx. reflexivity.
Qed.

Lemma ttm_ebit_PObj d :
  payload_truthy (PObj d) = true -> exists e, ttm_ebit s (PObj d) = Raise e.
Proof.
  intros Ht. unfold ttm_ebit. rewrite Ht.
  destruct (4 <=? payload_size (PObj d))%nat; cbn [andb].
  - eexists. reflexivity.
  - unfold sum_annualized, payload_rows. unfold payload_truthy in Ht.
    apply negb_true_iff in Ht. rewrite Ht. eexists. reflexivity.
Qed.

(** The EBIT of a returned record, by mode and number of periods. *)
Lemma ebit_of_returned sym ann profile income balance rec :
  pull_company f s sym ann profile income balance = Some rec ->
  exists periods,
    fmp_income income = Ok (PRows periods)
    /\ periods <> []
    /\ ebit_of f s ann (PRows periods) = Ok (Some (EBIT rec))
    /\ (ann = true ->
        exists q rest x,
          periods = q :: rest
          /\ is_blank (dict_get q "operatingIncome") = false
          /\ py_float f (dict_get q "operatingIncome") = Ok x
          /\ EBIT rec = PFloat x)
    /\ (ann = false -> (4 <= length periods)%nat ->
        py_sum s (field_or_zero "operatingIncome" (firstn 4 periods))
        = Ok (EBIT rec))
    /\ (ann = false -> (length periods < 4)%nat ->
        exists n x,
          py_sum s (field_or_zero "operatingIncome" periods) = Ok n
          /\ mul_float n (fdiv (float_of_Z 4)
                            (float_of_Z (Z.of_nat (length periods)))) = Ok x
          /\ EBIT rec = PFloat x).
Proof.
  intros H.
  apply pull_company_returns in H
    as (prof & inc & bal & ebit & tca & tcl & ppe & cash & debt & H).
  destruct H as (_ & Hinc & _ & [x0 Httm] & Hebit & _ & _ & _ & _ & _ & H).
  apply derive_returns in H
    as (e & a & l & p & c & d & m & ratio & -> & _ & _ & _ & _ & _ & _
        & _ & _ & _ & _ & He & _).
  rewrite He. clear He.
  destruct inc as [|periods|obj].
  - destruct ann; discriminate Hebit.
  - exists periods. split; [exact Hinc|].
    destruct periods as [|q rest].
    { destruct ann; discriminate Hebit. }
    split; [discriminate|]. split; [exact Hebit|].
    split; [|split].
    + intros ->. exists q, rest.
      unfold ebit_of, _latest in Hebit. simpl in Hebit.
      destruct (is_blank (dict_get q "operatingIncome")) eqn:Hblank;
        [discriminate|].
      destruct (py_float f (dict_get q "operatingIncome")) as [x|] eqn:Hx;
        [|discriminate].
      exists x. simpl in Hebit. inversion Hebit; subst.
      repeat split; reflexivity.
    + intros -> Hlen.
      unfold ebit_of, ttm_ebit in Hebit.
      change (payload_truthy (PRows (q :: rest))) with true in Hebit.
      change (payload_size (PRows (q :: rest))) with (length (q :: rest)) in Hebit.
      rewrite (proj2 (Nat.leb_le _ _) Hlen) in Hebit. cbn [andb] in Hebit.
      unfold sum_last_four, payload_head in Hebit.
      cbn [mbind res_bind] in Hebit.
      destruct (py_sum s (field_or_zero "operatingIncome" (firstn 4 (q :: rest))))
        as [n|]; [|discriminate].
      simpl in Hebit. inversion Hebit; subst. reflexivity.
    + intros -> Hlen.
      unfold ebit_of, ttm_ebit in Hebit.
      change (payload_truthy (PRows (q :: rest))) with true in Hebit.
      change (payload_size (PRows (q :: rest))) with (length (q :: rest)) in Hebit.
      rewrite (proj2 (Nat.leb_gt _ _) Hlen) in Hebit. cbn [andb] in Hebit.
      unfold sum_annualized, payload_rows, four_over in Hebit.
      change (payload_size (PRows (q :: rest))) with (length (q :: rest)) in Hebit.
      cbn [mbind res_bind] in Hebit.
      destruct (py_sum s (field_or_zero "operatingIncome" (q :: rest)))
        as [n|]; [|discriminate].
      change (length (q :: rest) =? 0)%nat with false in Hebit.
      cbn [mbind res_bind mret res_ret] in Hebit.
      destruct (mul_float n _) as [x|] eqn:Hx; [|discriminate].
      simpl in Hebit. inversion Hebit; subst.
      exists n, x. repeat split; [exact Hx].
  - destruct (payload_truthy (PObj obj)) eqn:Ht.
    + destruct (ttm_ebit_PObj obj Ht) as [e' Hr]. congruence.
    + unfold ebit_of, _latest, ttm_ebit in Hebit. rewrite Ht in Hebit.
      destruct ann; discriminate Hebit.
Qed.

End EbitFacts.



End BinaryFacts.

(** ** The result cache *)

Lemma pull_all_raises f a sym rest acc e w w1 :
  pull_company_cached f sym (annual a) w = (Raise e, w1) ->
  pull_all f a (sym :: rest) acc w = (Raise e, w1).
Proof. intros H. simpl. unfold bind. rewrite H. reflexivity. Qed.

(** C4 (as the code has it).  On a cache miss for which the derivation
    yields a record: if the cache file can be written, the record is
    stored under the symbol's path and returned; if the write raises,
    the exception leaves [pull_company_cached], the record is not
    returned, and the loop over the symbols of the command-line
    pipeline stops with that exception. *)
Theorem cache_write_failure_propagates
    (f : string -> option Q) (sym : string) (ann : bool) (w w1 : world)
    (rec : FinancialRecord) :
  fresh_entry (cache_path sym) w = None ->
  pull_company f sym ann w = (Ok (Some rec), w1) ->
  (disk_writable w1 = true ->
   pull_company_cached f sym ann w
   = (Ok (Some rec),
      with_files (<[cache_path sym := {| st_mtime := clock w1; content := rec |}]>
                    (files w1)) w1))
  /\ (disk_writable w1 = false ->
      pull_company_cached f sym ann w = (Raise OSError, w1)
      /\ forall a rest acc,
           annual a = ann ->
           pull_all f a (sym :: rest) acc w = (Raise OSError, w1)).
Proof.
  intros Hmiss Hpull.
  assert (Hc : pull_company_cached f sym ann w
               = (if disk_writable w1
                  then (Ok (Some rec),
                        with_files (<[cache_path sym :=
                                        {| st_mtime := clock w1; content := rec |}]>
                                      (files w1)) w1)
                  else (Raise OSError, w1))).
  { unfold pull_company_cached. rewrite Hmiss. unfold bind. rewrite Hpull.
    unfold write_cache. destruct (disk_writable w1); reflexivity. }
  split; intros Hd; rewrite Hd in Hc.
  - exact Hc.
  - split; [exact Hc|].
    intros a rest acc <-. apply pull_all_raises. exact Hc.
Qed.

Lemma cache_write_failure_propagates_witness :
  fst (pull_company_cached no_float "ACME" false (sample_world 4 10000000))
  = Ok (Some sample_record)
  /\ fst (pull_company_cached no_float "ACME" false world_readonly_disk)
     = Raise OSError
  /\ fst (pull_all no_float sample_args ["ACME"; "BETA"] [] world_readonly_disk)
     = Raise OSError.
Proof.
  pose proof (cache_write_failure_propagates no_float "ACME" false
                (sample_world 4 10000000)
                (snd (pull_company no_float "ACME" false (sample_world 4 10000000)))
                sample_record) as Hw.
  destruct Hw as [Hw _]; [vm_compute; reflexivity | vm_compute; reflexivity|].
  pose proof (cache_write_failure_propagates no_float "ACME" false
                world_readonly_disk
                (snd (pull_company no_float "ACME" false world_readonly_disk))
                sample_record) as Hr.
  destruct Hr as [_ Hr]; [vm_compute; reflexivity | vm_compute; reflexivity|].
  destruct Hr as [Hr1 Hr2]; [vm_compute; reflexivity|].
  split; [rewrite Hw by (vm_compute; reflexivity); reflexivity|].
  split; [rewrite Hr1; reflexivity|].
  rewrite (Hr2 sample_args ["BETA"] [] eq_refl). reflexivity.
Defined.

(** C4 (as stated) fails: with a cache directory that cannot be
    written, the derivation of the symbol yields a record, but the
    cached derivation raises instead of returning it, and the
    command-line pipeline ends with the same exception. *)
Lemma cache_write_failure_aborts :
  fst (pull_company no_float "ACME" false world_readonly_disk)
  = Ok (Some sample_record)
  /\ fst (pull_company_cached no_float "ACME" false world_readonly_disk)
     = Raise OSError
  /\ fst (main no_float id sample_args (pipeline_world false)) = Raise OSError.
Proof. repeat split; vm_compute; reflexivity. Qed.

(** ** Ranking *)

Lemma Qltb_Qeq_l x y v : (x == y)%Q -> Qltb x v = Qltb y v.
Proof.
  intros E. apply eq_true_iff_eq. rewrite !Qltb_true, E. reflexivity.
Qed.

Lemma insert_desc_perm x l : insert_desc x l ≡ₚ x :: l.
Proof.
  induction l as [|y l IH]; simpl; [reflexivity|].
  destruct (Qle_bool y x); [reflexivity|].
  rewrite IH. apply perm_swap.
Qed.

Lemma sort_desc_perm l : sort_desc l ≡ₚ l.
Proof.
  induction l as [|x l IH]; simpl; [reflexivity|].
  rewrite insert_desc_perm, IH. reflexivity.
Qed.

Lemma insert_desc_sorted x l :
  StronglySorted desc l -> StronglySorted desc (insert_desc x l).
Proof.
  induction 1 as [|y l Hs IH Hall]; simpl.
  - constructor; constructor.
  - destruct (Qle_bool y x) eqn:Hyx.
    + apply Qle_bool_iff in Hyx.
      constructor; [constructor; assumption|].
      constructor; [exact Hyx|].
      eapply Forall_impl; [exact Hall|].
      intros z Hz. unfold desc in *. eapply Qle_trans; eassumption.
    + apply Qle_bool_false in Hyx. constructor; [exact IH|].
      rewrite insert_desc_perm.
      constructor; [apply Qlt_le_weak, Hyx | exact Hall].
Qed.

Lemma sort_desc_sorted l : StronglySorted desc (sort_desc l).
Proof.
  induction l as [|x l IH]; simpl; [constructor|].
  apply insert_desc_sorted, IH.
Qed.

Lemma count_greater_none x l :
  Forall (fun z => (z <= x)%Q) l -> count_greater x l = 0.
Proof.
  induction 1 as [|z l Hz _ IH]; simpl; [reflexivity|].
  apply Qltb_false in Hz. rewrite Hz, IH. reflexivity.
Qed.

Lemma leading_greater_sorted x l :
  StronglySorted desc l -> leading_greater x l = count_greater x l.
Proof.
  induction 1 as [|y l Hs IH Hall]; simpl; [reflexivity|].
  destruct (Qltb x y) eqn:Hxy; [rewrite IH; reflexivity|].
  apply Qltb_false in Hxy. symmetry. apply count_greater_none.
  eapply Forall_impl; [exact Hall|].
  intros z Hz. unfold desc in Hz. eapply Qle_trans; eassumption.
Qed.

Lemma count_greater_perm x l l' :
  l ≡ₚ l' -> count_greater x l = count_greater x l'.
Proof.
  induction 1 as [|v l l' _ IH|u v l|l1 l2 l3 _ IH1 _ IH2]; simpl.
  - reflexivity.
  - rewrite IH. reflexivity.
  - lia.
  - congruence.
Qed.

(** The rank of a cell is one more than the number of cells of the
    column that are strictly greater: competition ranking. *)
Lemma rank_desc_min_count col x :
  rank_desc_min col x = S (count_greater x col).
Proof.
  unfold rank_desc_min.
  rewrite (leading_greater_sorted x _ (sort_desc_sorted col)).
  rewrite (count_greater_perm x _ _ (sort_desc_perm col)). reflexivity.
Qed.

Lemma count_greater_Qeq x y col :
  (x == y)%Q -> count_greater x col = count_greater y col.
Proof.
  intros E. induction col as [|v col IH]; simpl; [reflexivity|].
  rewrite (Qltb_Qeq_l x y v E), IH. reflexivity.
Qed.

Lemma count_greater_mono x y col :
  (x <= y)%Q -> (count_greater y col <= count_greater x col)%nat.
Proof.
  intros Hxy. induction col as [|v col IH]; simpl; [lia|].
  destruct (Qltb y v) eqn:Hy; [|lia].
  apply Qltb_true in Hy.
  assert (Hx : Qltb x v = true)
    by (apply Qltb_true; eapply Qle_lt_trans; eassumption).
  rewrite Hx. lia.
Qed.

(** A strictly greater value of the column has a strictly lower rank. *)
Lemma count_greater_strict x y col :
  (x < y)%Q -> y ∈ col -> (count_greater y col < count_greater x col)%nat.
Proof.
  intros Hxy Hin. induction col as [|v col IH]; [inversion Hin|].
  simpl. apply elem_of_cons in Hin as [<-|Hin].
  - assert (Hx : Qltb x y = true) by (apply Qltb_true; exact Hxy).
    assert (Hy : Qltb y y = false) by (apply Qltb_false; apply Qle_refl).
    rewrite Hx, Hy.
    pose proof (count_greater_mono x y col (Qlt_le_weak _ _ Hxy)). lia.
  - specialize (IH Hin).
    destruct (Qltb y v) eqn:Hy; [|lia].
    apply Qltb_true in Hy.
    assert (Hx : Qltb x v = true)
      by (apply Qltb_true; eapply Qlt_trans; eassumption).
    rewrite Hx. lia.
Qed.

Lemma count_greater_eq_tied x y col :
  x ∈ col -> y ∈ col ->
  count_greater x col = count_greater y col -> (x == y)%Q.
Proof.
  intros Hx Hy Hc.
  destruct (Qcompare_spec x y) as [E|L|G]; [exact E| |].
  - pose proof (count_greater_strict x y col L Hy). lia.
  - pose proof (count_greater_strict y x col G Hx). lia.
Qed.

Lemma key_leb_spec {A} (a b : Ranked A) : key_leb a b = true <-> key_le a b.
Proof.
  unfold key_leb, key_le.
  rewrite !orb_true_iff, !andb_true_iff, !orb_true_iff, !andb_true_iff.
  rewrite !Nat.ltb_lt, !Nat.eqb_eq, Nat.leb_le. reflexivity.
Qed.

Lemma key_leb_false {A} (a b : Ranked A) : key_leb a b = false -> key_le b a.
Proof.
  intros H. assert (N : ~ key_le a b).
  { intros K. apply key_leb_spec in K. congruence. }
  unfold key_le in *. lia.
Qed.

Lemma key_le_trans {A} (a b c : Ranked A) : key_le a b -> key_le b c -> key_le a c.
Proof. unfold key_le. lia. Qed.

Lemma key_le_antisym {A} (a b : Ranked A) :
  key_le a b -> key_le b a ->
  MF_score a = MF_score b /\ EY_rank a = EY_rank b /\ ROC_rank a = ROC_rank b.
Proof. unfold key_le. lia. Qed.

Lemma insert_row_perm {A} (x : Ranked A) l : insert_row x l ≡ₚ x :: l.
Proof.
  induction l as [|y l IH]; simpl; [reflexivity|].
  destruct (key_leb x y); [reflexivity|].
  rewrite IH. apply perm_swap.
Qed.

Lemma sort_values_perm {A} (l : list (Ranked A)) : sort_values l ≡ₚ l.
Proof.
  induction l as [|x l IH]; simpl; [reflexivity|].
  rewrite insert_row_perm, IH. reflexivity.
Qed.

Lemma insert_row_sorted {A} (x : Ranked A) l :
  StronglySorted key_le l -> StronglySorted key_le (insert_row x l).
Proof.
  induction 1 as [|y l Hs IH Hall]; simpl.
  - constructor; constructor.
  - destruct (key_leb x y) eqn:Hxy.
    + apply key_leb_spec in Hxy.
      constructor; [constructor; assumption|].
      constructor; [exact Hxy|].
      eapply Forall_impl; [exact Hall|].
      intros z Hz. eapply key_le_trans; eassumption.
    + apply key_leb_false in Hxy. constructor; [exact IH|].
      rewrite insert_row_perm. constructor; assumption.
Qed.

Lemma sort_values_sorted {A} (l : list (Ranked A)) :
  StronglySorted key_le (sort_values l).
Proof.
  induction l as [|x l IH]; simpl; [constructor|].
  apply insert_row_sorted, IH.
Qed.

Lemma elem_of_map {A B} (g : A -> B) (l : list A) (y : B) :
  y ∈ map g l <-> exists x, y = g x /\ x ∈ l.
Proof.
  rewrite list_elem_of_In, in_map_iff. split.
  - intros (x & <- & Hx). exists x. split; [reflexivity|].
    apply list_elem_of_In, Hx.
  - intros (x & -> & Hx). exists x. split; [reflexivity|].
    apply list_elem_of_In, Hx.
Qed.

Section RankingFacts.

Context {A : Type}.
Variable ey roc : A -> option Q.

Lemma dropna_cons r df :
  dropna ey roc (r :: df)
  = match ey r, roc r with
    | Some e, Some c => (r, e, c) :: dropna ey roc df
    | _, _ => dropna ey roc df
    end.
Proof. unfold dropna. simpl. destruct (ey r), (roc r); reflexivity. Qed.

Lemma dropna_rows df :
  map (fun t => fst (fst t)) (dropna ey roc df) = List.filter (has_both ey roc) df.
Proof.
  induction df as [|r df IH]; [reflexivity|].
  rewrite dropna_cons. simpl List.filter. unfold has_both at 1.
  destruct (ey r), (roc r); simpl; rewrite ?IH; reflexivity.
Qed.

Lemma dropna_cells df t :
  t ∈ dropna ey roc df ->
  fst (fst t) ∈ df
  /\ ey (fst (fst t)) = Some (snd (fst t)) /\ roc (fst (fst t)) = Some (snd t).
Proof.
  unfold dropna. intros H. apply list_elem_of_omap in H as (r & Hr & Ht).
  destruct (ey r) as [e|] eqn:He; [|discriminate].
  destruct (roc r) as [c|] eqn:Hc; [|discriminate].
  inversion Ht; subst. simpl. auto.
Qed.

Lemma dropna_perm df df' : df ≡ₚ df' -> dropna ey roc df ≡ₚ dropna ey roc df'.
Proof. intros H. unfold dropna. rewrite H. reflexivity. Qed.

Lemma magic_formula_rank_unfold df :
  magic_formula_rank ey roc df
  = sort_values
      (map (ranked_row (map (fun t => snd (fst t)) (dropna ey roc df))
                       (map snd (dropna ey roc df)))
           (dropna ey roc df)).
Proof. reflexivity. Qed.

Lemma ranked_row_perm c1 c1' c2 c2' (t : A * Q * Q) :
  c1 ≡ₚ c1' -> c2 ≡ₚ c2' -> ranked_row c1 c2 t = ranked_row c1' c2' t.
Proof.
  intros H1 H2. unfold ranked_row. rewrite !rank_desc_min_count.
  rewrite (count_greater_perm _ _ _ H1), (count_greater_perm _ _ _ H2).
  reflexivity.
Qed.

Lemma magic_formula_rank_elem df x :
  x ∈ magic_formula_rank ey roc df ->
  exists t, t ∈ dropna ey roc df
    /\ x = ranked_row (map (fun t => snd (fst t)) (dropna ey roc df))
                      (map snd (dropna ey roc df)) t.
Proof.
  rewrite magic_formula_rank_unfold, sort_values_perm.
  intros H. apply elem_of_map in H as (t & -> & Ht). eauto.
Qed.

Lemma magic_formula_rank_perm df df' :
  df ≡ₚ df' -> magic_formula_rank ey roc df ≡ₚ magic_formula_rank ey roc df'.
Proof.
  intros H. rewrite !magic_formula_rank_unfold, !sort_values_perm.
  pose proof (dropna_perm _ _ H) as Hk.
  rewrite (map_ext _ (ranked_row (map (fun t => snd (fst t)) (dropna ey roc df))
                                 (map snd (dropna ey roc df)))
             (fun t => ranked_row_perm _ _ _ _ t
                         (Permutation_map _ (Permutation_sym Hk))
                         (Permutation_map _ (Permutation_sym Hk)))).
  apply Permutation_map, Hk.
Qed.

End RankingFacts.

(** C1.  [magic_formula_rank] keeps exactly the rows that have both
    an EY and a ROC cell, in their order; gives each kept row, as
    [EY_rank], one plus the number of kept rows with a strictly
    greater EY (so tied rows share the best rank of their group and
    the ranks after a group skip), and likewise [ROC_rank]; sets
    [MF_score] to their sum; and returns the rows in ascending order
    of [MF_score], then [EY_rank], then [ROC_rank].  On the column
    [0.10, 0.10, 0.05] the ranks are [1, 1, 3]. *)
Theorem magic_formula_rank_correct {A : Type} (ey roc : A -> option Q) (df : list A) :
  let kept := dropna ey roc df in
  let ey_col := map (fun t => snd (fst t)) kept in
  let roc_col := map snd kept in
  let out := magic_formula_rank ey roc df in
  map (fun t => fst (fst t)) kept = List.filter (has_both ey roc) df
  /\ Forall (fun t => ey (fst (fst t)) = Some (snd (fst t))
                      /\ roc (fst (fst t)) = Some (snd t)) kept
  /\ map base out ≡ₚ List.filter (has_both ey roc) df
  /\ Forall (fun x =>
               exists e c,
                 ey (base x) = Some e /\ roc (base x) = Some c
                 /\ EY_rank x = S (count_greater e ey_col)
                 /\ ROC_rank x = S (count_greater c roc_col)
                 /\ MF_score x = EY_rank x + ROC_rank x) out
  /\ StronglySorted key_le out
  /\ map (rank_desc_min [0.10; 0.10; 0.05]%Q) [0.10; 0.10; 0.05]%Q = [1; 1; 3].
Proof.
  intros kept ey_col roc_col out.
  split; [apply dropna_rows|].
  split.
  { apply Forall_forall. intros t Ht.
    apply (dropna_cells ey roc df t) in Ht as (_ & He & Hc). auto. }
  split.
  { rewrite <- dropna_rows. subst out. rewrite magic_formula_rank_unfold.
    rewrite sort_values_perm, map_map. reflexivity. }
  split.
  { apply Forall_forall. intros x Hx.
    apply magic_formula_rank_elem in Hx as (t & Ht & ->).
    apply (dropna_cells ey roc df t) in Ht as (_ & He & Hc).
    exists (snd (fst t)), (snd t). simpl.
    rewrite !rank_desc_min_count. auto. }
  split; [apply sort_values_sorted|].
  vm_compute. reflexivity.
Qed.

(** The spec's end-to-end example: A (0.20, 0.30), B (0.10, 0.50) and
    C (0.15, 0.10) come out in the order A, B, C with scores 3, 4, 5. *)
Example rank_three_companies :
  map (fun x => (fst (base x), EY_rank x, ROC_rank x, MF_score x))
      (magic_formula_rank (fun r => Some (fst (snd r))) (fun r => Some (snd (snd r)))
         [("A", (0.20, 0.30)); ("B", (0.10, 0.50)); ("C", (0.15, 0.10))]%Q)
  = [("A", 1, 2, 3); ("B", 3, 1, 4); ("C", 2, 3, 5)].
Proof. vm_compute. reflexivity. Qed.

(** ** Order of the input *)

Lemma ranked_row_inj_on_untied {A : Type} (ey roc : A -> option Q) (df : list A)
    (t1 t2 : A * Q * Q) :
  (forall r1 r2 e1 c1 e2 c2,
      r1 ∈ df -> r2 ∈ df ->
      ey r1 = Some e1 -> roc r1 = Some c1 ->
      ey r2 = Some e2 -> roc r2 = Some c2 ->
      (e1 == e2)%Q -> (c1 == c2)%Q -> r1 = r2) ->
  t1 ∈ dropna ey roc df -> t2 ∈ dropna ey roc df ->
  let row := ranked_row (map (fun t => snd (fst t)) (dropna ey roc df))
                        (map snd (dropna ey roc df)) in
  EY_rank (row t1) = EY_rank (row t2) ->
  ROC_rank (row t1) = ROC_rank (row t2) ->
  t1 = t2.
Proof.
  intros Hties H1 H2 row He Hc. subst row. simpl in He, Hc.
  rewrite !rank_desc_min_count in He, Hc.
  injection He as He. injection Hc as Hc.
  pose proof (dropna_cells ey roc df t1 H1) as (Hd1 & Hey1 & Hroc1).
  pose proof (dropna_cells ey roc df t2 H2) as (Hd2 & Hey2 & Hroc2).
  assert (Ee : (snd (fst t1) == snd (fst t2))%Q).
  { assert (M1 : snd (fst t1) ∈ map (fun t : A * Q * Q => snd (fst t)) (dropna ey roc df))
      by (apply elem_of_map; eauto).
    assert (M2 : snd (fst t2) ∈ map (fun t : A * Q * Q => snd (fst t)) (dropna ey roc df))
      by (apply elem_of_map; eauto).
    exact (count_greater_eq_tied _ _ _ M1 M2 He). }
  assert (Ec : (snd t1 == snd t2)%Q).
  { assert (M1 : snd t1 ∈ map snd (dropna ey roc df))
      by (apply elem_of_map; eauto).
    assert (M2 : snd t2 ∈ map snd (dropna ey roc df))
      by (apply elem_of_map; eauto).
    exact (count_greater_eq_tied _ _ _ M1 M2 Hc). }
  pose proof (Hties _ _ _ _ _ _ Hd1 Hd2 Hey1 Hroc1 Hey2 Hroc2 Ee Ec) as Hr.
  destruct t1 as [[r1 e1] c1], t2 as [[r2 e2] c2]. simpl in *. subst r2.
  congruence.
Qed.

Lemma key_leb_tied {A} (x y : Ranked A) s e c :
  has_keys s e c x = true -> has_keys s e c y = true -> key_leb x y = true.
Proof.
  unfold has_keys. rewrite !andb_true_iff, !Nat.eqb_eq.
  intros [[? ?] ?] [[? ?] ?]. apply key_leb_spec. unfold key_le. lia.
Qed.

(** The final sort is stable: it never moves a row past another row
    with the same keys. *)
Lemma insert_row_stable {A} s e c (x : Ranked A) l :
  List.filter (has_keys s e c) (insert_row x l)
  = List.filter (has_keys s e c) (x :: l).
Proof.
  induction l as [|y l IH]; [reflexivity|].
  cbn [insert_row]. destruct (key_leb x y) eqn:Hxy; [reflexivity|].
  cbn [List.filter] in *. rewrite IH.
  destruct (has_keys s e c x) eqn:Hx, (has_keys s e c y) eqn:Hy;
    try reflexivity.
  rewrite (key_leb_tied x y s e c Hx Hy) in Hxy. discriminate.
Qed.

Lemma sort_values_stable {A} s e c (l : list (Ranked A)) :
  List.filter (has_keys s e c) (sort_values l) = List.filter (has_keys s e c) l.
Proof.
  induction l as [|x l IH]; [reflexivity|].
  cbn [sort_values]. rewrite insert_row_stable. cbn [List.filter].
  rewrite IH. reflexivity.
Qed.

Lemma List_filter_sublist {B} (p : B -> bool) l : sublist (List.filter p l) l.
Proof.
  induction l as [|x l IH]; [constructor|].
  cbn [List.filter]. destruct (p x); [apply sublist_skip | apply sublist_cons];
    exact IH.
Qed.

Lemma tied_rows_keep_input_order {A : Type} (ey roc : A -> option Q)
    (df : list A) s e c :
  sublist
    (map base (List.filter (has_keys s e c) (magic_formula_rank ey roc df))) df.
Proof.
  rewrite magic_formula_rank_unfold, sort_values_stable.
  transitivity (map (fun t : A * Q * Q => fst (fst t)) (dropna ey roc df)).
  - generalize (map (fun t : A * Q * Q => snd (fst t)) (dropna ey roc df)) as c1.
    generalize (map snd (dropna ey roc df)) as c2.
    intros c2 c1. induction (dropna ey roc df) as [|t l IH]; [constructor|].
    cbn [map List.filter].
    destruct (has_keys s e c (ranked_row c1 c2 t));
      [apply sublist_skip | apply sublist_cons]; exact IH.
  - rewrite dropna_rows. apply List_filter_sublist.
Qed.

(** C6 (as the code has it).  Reordering the input never changes
    which ranked rows come out (same rows, same ranks and scores), and
    the output sequence itself is identical whenever no two different
    rows tie on both EY and ROC.  Rows that tie on every sort key keep
    the order they had in the input: the output rows carrying given
    keys are the ranked input rows carrying them, in input order. *)
Theorem ranking_under_reordering {A : Type} (ey roc : A -> option Q) (df df' : list A) :
  df ≡ₚ df' ->
  magic_formula_rank ey roc df ≡ₚ magic_formula_rank ey roc df'
  /\ ((forall r1 r2 e1 c1 e2 c2,
          r1 ∈ df -> r2 ∈ df ->
          ey r1 = Some e1 -> roc r1 = Some c1 ->
          ey r2 = Some e2 -> roc r2 = Some c2 ->
          (e1 == e2)%Q -> (c1 == c2)%Q -> r1 = r2) ->
      magic_formula_rank ey roc df = magic_formula_rank ey roc df')
  /\ (forall s e c,
         List.filter (has_keys s e c) (magic_formula_rank ey roc df)
         = List.filter (has_keys s e c)
             (map (ranked_row (map (fun t => snd (fst t)) (dropna ey roc df))
                              (map snd (dropna ey roc df)))
                  (dropna ey roc df)))
  /\ (forall s e c,
         sublist
           (map base
              (List.filter (has_keys s e c) (magic_formula_rank ey roc df)))
           df).
Proof.
  intros Hperm.
  pose proof (magic_formula_rank_perm ey roc df df' Hperm) as Hout.
  split; [exact Hout|].
  split; [|split].
  - intros Hties.
    apply (StronglySorted_unique_strong key_le);
      [|apply sort_values_sorted|apply sort_values_sorted|exact Hout].
    intros x1 x2 Hx1 Hx2 H12 H21.
    rewrite <- Hout in Hx2.
    apply magic_formula_rank_elem in Hx1 as (t1 & Ht1 & ->).
    apply magic_formula_rank_elem in Hx2 as (t2 & Ht2 & ->).
    destruct (key_le_antisym _ _ H12 H21) as (_ & He & Hc).
    f_equal. eapply ranked_row_inj_on_untied; eassumption.
  - intros s e c. rewrite magic_formula_rank_unfold. apply sort_values_stable.
  - intros s e c. apply tied_rows_keep_input_order.
Qed.

Lemma ranking_under_reordering_witness :
  [sample_record; sample_loss_record] ≡ₚ [sample_loss_record; sample_record]
  /\ magic_formula_rank frame_ey frame_roc [sample_record; sample_loss_record]
     = magic_formula_rank frame_ey frame_roc [sample_loss_record; sample_record]
  /\ [sample_twin; sample_record] ≡ₚ [sample_record; sample_twin]
  /\ map (fun x => ticker (base x))
       (List.filter (has_keys 2 1 1)
          (magic_formula_rank frame_ey frame_roc [sample_twin; sample_record]))
     = ["BETA"; "ACME"].
Proof.
  assert (Hp : [sample_record; sample_loss_record]
               ≡ₚ [sample_loss_record; sample_record]) by apply perm_swap.
  split; [exact Hp|].
  destruct (ranking_under_reordering frame_ey frame_roc _ _ Hp) as (_ & Hsame & _).
  split.
  { apply Hsame.
    intros r1 r2 e1 c1 e2 c2 H1 H2 He1 _ He2 _ Hee _.
    unfold frame_ey in He1, He2. injection He1 as <-. injection He2 as <-.
    apply elem_of_cons in H1 as [->|H1]; apply elem_of_cons in H2 as [->|H2].
    - reflexivity.
    - apply list_elem_of_singleton in H2 as ->. vm_compute in Hee. discriminate Hee.
    - apply list_elem_of_singleton in H1 as ->. vm_compute in Hee. discriminate Hee.
    - apply list_elem_of_singleton in H1 as ->.
      apply list_elem_of_singleton in H2 as ->. reflexivity. }
  assert (Hq : [sample_twin; sample_record] ≡ₚ [sample_record; sample_twin])
    by apply perm_swap.
  split; [exact Hq|].
  destruct (ranking_under_reordering frame_ey frame_roc _ _ Hq) as (_ & _ & Hstable & _).
  rewrite (Hstable 2 1 1)%nat. vm_compute. reflexivity.
Defined.

(** C6 (as stated) fails: two companies with the same earnings yield
    and the same return on capital tie on every sort key, and the
    ranking returns them in the order it received them, so the two
    input orders give two different output sequences. *)
Lemma ranking_depends_on_input_order :
  [sample_record; sample_twin] ≡ₚ [sample_twin; sample_record]
  /\ map (fun x => ticker (base x))
       (magic_formula_rank frame_ey frame_roc [sample_record; sample_twin])
     = ["ACME"; "BETA"]
  /\ map (fun x => ticker (base x))
       (magic_formula_rank frame_ey frame_roc [sample_twin; sample_record])
     = ["BETA"; "ACME"]
  /\ magic_formula_rank frame_ey frame_roc [sample_record; sample_twin]
     <> magic_formula_rank frame_ey frame_roc [sample_twin; sample_record].
Proof.
  split; [apply perm_swap|].
  split; [vm_compute; reflexivity|].
  split; [vm_compute; reflexivity|].
  intros H.
  apply (f_equal (map (fun x => ticker (base x)))) in H.
  vm_compute in H. discriminate H.
Qed.

(** * Further properties *)

(** ** The rate limiter *)

Lemma recent_true t c : recent t c = true <-> (t - c <= window)%Q.
Proof. unfold recent. rewrite negb_true_iff. apply Qltb_false. Qed.

Lemma recent_false t c : recent t c = false <-> (window < t - c)%Q.
Proof. unfold recent. rewrite negb_false_iff. apply Qltb_true. Qed.

Lemma count_recent_le_length t l : (count_recent t l <= length l)%nat.
Proof.
  induction l as [|c l IH]; simpl; [lia|]. destruct (recent t c); lia.
Qed.

Lemma count_recent_all t l :
  Forall (fun c => recent t c = true) l -> count_recent t l = length l.
Proof.
  induction 1 as [|c l Hc _ IH]; simpl; [reflexivity|]. rewrite Hc, IH. reflexivity.
Qed.

Lemma count_recent_app t l1 l2 :
  count_recent t (l1 ++ l2) = (count_recent t l1 + count_recent t l2)%nat.
Proof. induction l1 as [|c l1 IH]; simpl; [reflexivity|]. rewrite IH. lia. Qed.

(** As time passes, fewer stamps count. *)
Lemma count_recent_later t t' l :
  (t <= t')%Q -> (count_recent t' l <= count_recent t l)%nat.
Proof.
  intros Ht. induction l as [|c l IH]; simpl; [lia|].
  destruct (recent t' c) eqn:H'; [|lia].
  apply recent_true in H'.
  assert (H : recent t c = true) by (apply recent_true; lra).
  rewrite H. lia.
Qed.

(** On stamps in order, the popping loop leaves a tail of the list
    whose stamps all still count. *)
Lemma drop_expired_sorted now l :
  StronglySorted Qle l ->
  (exists pre, l = pre ++ drop_expired now l)
  /\ StronglySorted Qle (drop_expired now l)
  /\ Forall (fun c => recent now c = true) (drop_expired now l).
Proof.
  induction 1 as [|c l Hs IH Hall]; simpl.
  - split; [exists []; reflexivity|]. split; constructor.
  - destruct (Qltb window (now - c)) eqn:Hc.
    + destruct IH as ([pre Hpre] & IHs & IHr).
      split; [exists (c :: pre); simpl; congruence|]. split; assumption.
    + split; [exists []; reflexivity|].
      split; [constructor; assumption|].
      apply Qltb_false in Hc.
      constructor; [apply recent_true; exact Hc|].
      eapply Forall_impl; [exact Hall|].
      intros d Hd. apply recent_true. lra.
Qed.

Lemma StronglySorted_snoc_Qle l t :
  StronglySorted Qle l -> Forall (fun c => (c <= t)%Q) l ->
  StronglySorted Qle (l ++ [t]).
Proof.
  induction 1 as [|c l Hs IH Hall]; intros Ht; simpl.
  - constructor; constructor.
  - inversion Ht as [|? ? Hc Hl]; subst.
    constructor; [apply IH, Hl|].
    apply Forall_app. split; [exact Hall|]. constructor; [exact Hc|constructor].
Qed.

(** X1.  [RateLimiter.wait] keeps the limiter's state sound and
    enforces the rate: started in a sound state, it never fails, never
    moves the clock back, stamps the call with the time at which it
    lets the caller go, and at that time no more than
    [calls_per_minute] stamped calls, this one included, lie within
    the window. *)
Theorem limiter_wait_bounds_rate (w : world) :
  limiter_ok w ->
  exists w',
    limiter_wait w = (Ok tt, w')
    /\ limiter_ok w'
    /\ (clock w <= clock w')%Q
    /\ (exists kept pre,
          limiter_calls w = pre ++ kept
          /\ limiter_calls w' = kept ++ [clock w'])
    /\ (count_recent (clock w') (limiter_calls w') <= calls_per_minute)%nat
    /\ inbox w' = inbox w /\ sent w' = sent w /\ files w' = files w
    /\ environ w' = environ w.
Proof.
  intros (Hs & Hle & Hcount).
  destruct (drop_expired_sorted (clock w) _ Hs) as ([pre Hpre] & Hs' & Hr').
  remember (drop_expired (clock w) (limiter_calls w)) as L' eqn:EL'.
  assert (Hle' : Forall (fun c => (c <= clock w)%Q) L').
  { rewrite Hpre in Hle. apply Forall_app in Hle. apply Hle. }
  assert (Hlen : (length L' <= calls_per_minute)%nat).
  { rewrite <- (count_recent_all _ _ Hr').
    etransitivity; [|exact Hcount].
    rewrite Hpre, count_recent_app. lia. }
  unfold limiter_wait. rewrite <- EL'. clear EL'.
  destruct (calls_per_minute <=? length L')%nat eqn:Hfull.
  - apply Nat.leb_le in Hfull.
    destruct L' as [|c0 tl] eqn:EL.
    { unfold calls_per_minute in Hfull. simpl in Hfull. lia. }
    inversion Hr' as [|? ? Hc0 _]; subst. apply recent_true in Hc0.
    unfold window in Hc0.
    assert (Hpos : Qltb 0 (window - (clock w - c0) + 0.01) = true).
    { apply Qltb_true. unfold window. lra. }
    cbn [hd with_limiter_calls clock limiter_calls]. rewrite Hpos.
    eexists. split; [reflexivity|].
    cbn [with_limiter_calls with_clock clock limiter_calls inbox sent files environ].
    set (t := (clock w + (window - (clock w - c0) + 0.01))%Q).
    assert (Ht : (t == c0 + 60 + 0.01)%Q) by (unfold t, window; lra).
    assert (Hnow : (clock w <= t)%Q) by lra.
    assert (Hle'' : Forall (fun c => (c <= t)%Q) (c0 :: tl)).
    { eapply Forall_impl; [exact Hle'|]. intros d Hd. simpl in Hd. lra. }
    assert (Hbound : (count_recent t ((c0 :: tl) ++ [t]) <= calls_per_minute)%nat).
    { rewrite count_recent_app. simpl.
      assert (H0 : recent t c0 = false)
        by (apply recent_false; unfold window; lra).
      assert (Ht' : recent t t = true)
        by (apply recent_true; unfold window; lra).
      rewrite H0, Ht'.
      pose proof (count_recent_le_length t tl). simpl in Hlen. lia. }
    split; [|split; [exact Hnow|split; [|split; [exact Hbound|auto]]]].
    + split; [apply StronglySorted_snoc_Qle; assumption|].
      split; [|exact Hbound].
      apply Forall_app. split; [exact Hle''|].
      constructor; [apply Qle_refl|constructor].
    + exists (c0 :: tl), pre. split; [exact Hpre|reflexivity].
  - apply Nat.leb_gt in Hfull.
    eexists. split; [reflexivity|].
    cbn [with_limiter_calls with_clock clock limiter_calls inbox sent files environ].
    assert (Hbound : (count_recent (clock w) (L' ++ [clock w]) <= calls_per_minute)%nat).
    { pose proof (count_recent_le_length (clock w) (L' ++ [clock w])) as Hl.
      rewrite length_app in Hl. simpl in Hl. lia. }
    split; [|split; [apply Qle_refl|split; [|split; [exact Hbound|auto]]]].
    + split; [apply StronglySorted_snoc_Qle; assumption|].
      split; [|exact Hbound].
      apply Forall_app. split; [exact Hle'|].
      constructor; [apply Qle_refl|constructor].
    + exists L', pre. split; [exact Hpre|reflexivity].
Qed.

Lemma replicate_all_le n (x t : Q) : (x <= t)%Q -> Forall (fun c => (c <= t)%Q) (replicate n x).
Proof. intros H. induction n; simpl; constructor; assumption. Qed.

Lemma replicate_sorted n (x : Q) : StronglySorted Qle (replicate n x).
Proof.
  induction n as [|n IH]; simpl; constructor; [exact IH|].
  clear IH. induction n; simpl; constructor; [apply Qle_refl | assumption].
Qed.

Lemma limiter_wait_bounds_rate_witness :
  limiter_ok busy_world
  /\ limiter_ok (snd (limiter_wait busy_world))
  /\ (clock busy_world <= clock (snd (limiter_wait busy_world)))%Q.
Proof.
  assert (H : limiter_ok busy_world).
  { split; [apply replicate_sorted|]. split.
    - apply replicate_all_le. simpl. discriminate.
    - pose proof (count_recent_le_length 1 (replicate calls_per_minute 0%Q)) as Hl.
      rewrite length_replicate in Hl. exact Hl. }
  split; [exact H|].
  destruct (limiter_wait_bounds_rate busy_world H) as (w' & E & Hok & Hclk & _).
  rewrite E. split; [exact Hok | exact Hclk].
Defined.

(** The limiter's state stays sound while time passes. *)
Lemma limiter_ok_later w t :
  limiter_ok w -> (clock w <= t)%Q -> limiter_ok (with_clock t w).
Proof.
  intros (Hs & Hle & Hc) Ht. split; [exact Hs|]. split.
  - eapply Forall_impl; [exact Hle|]. intros c Hcw. simpl in *. lra.
  - simpl. pose proof (count_recent_later _ _ (limiter_calls w) Ht). lia.
Qed.

Lemma limiter_wait_frame w :
  exists w',
    limiter_wait w = (Ok tt, w')
    /\ inbox w' = inbox w /\ sent w' = sent w /\ same_store w w'
    /\ (clock w <= clock w')%Q.
Proof.
  unfold limiter_wait, same_store.
  destruct (calls_per_minute <=? _)%nat.
  - destruct (Qltb 0 _) eqn:Hpos.
    + apply Qltb_true in Hpos. eexists. split; [reflexivity|].
      simpl in *. repeat split; try reflexivity. lra.
    + eexists. split; [reflexivity|]. simpl. repeat split; try reflexivity.
      apply Qle_refl.
  - eexists. split; [reflexivity|]. simpl. repeat split; try reflexivity.
    apply Qle_refl.
Qed.

(** ** The HTTP helper *)

(** One turn of the retry loop. *)
Lemma attempt_step url params backoff a n w :
  exists wl,
    limiter_wait w = (Ok tt, wl)
    /\ fmp_get_attempts url params backoff a (S n) w
       = match inbox w with
         | [] =>
             (Raise ConnectionError,
              with_traffic [] ({| req_url := url; req_params := params |} :: sent w) wl)
         | r :: rest =>
             let ws := with_traffic rest
                         ({| req_url := url; req_params := params |} :: sent w) wl in
             if throttled r then
               fmp_get_attempts url params backoff (S a) n
                 (with_clock (clock ws + backoff * (inject_Z (Z.of_nat a) + 1))%Q ws)
             else if error_status r then (Raise HTTPError, ws)
             else (Ok (json r), ws)
         end.
Proof.
  destruct (limiter_wait_frame w) as (wl & E & Hi & Hs & _ & _).
  exists wl. split; [exact E|].
  simpl. unfold bind at 1. rewrite E. unfold bind at 1. unfold S_get.
  rewrite Hi, Hs. destruct (inbox w) as [|r rest]; [reflexivity|].
  unfold throttled, error_status. cbn zeta.
  destruct (status_code r =? 429)%Z.
  - unfold bind at 1. unfold time_sleep. reflexivity.
  - unfold bind at 1. unfold raise_for_status.
    destruct ((400 <=? status_code r)%Z && (status_code r <? 600)%Z)%bool;
      reflexivity.
Qed.

Lemma replicate_snoc_cons {A} n (x : A) l :
  replicate n x ++ x :: l = x :: replicate n x ++ l.
Proof. induction n as [|n IH]; simpl; [reflexivity|]. rewrite IH. reflexivity. Qed.

Lemma backoff_delay_nonneg backoff a :
  (0 <= backoff)%Q -> (0 <= backoff * (inject_Z (Z.of_nat a) + 1))%Q.
Proof.
  intros Hb. apply Qmult_le_0_compat; [exact Hb|].
  assert (0 <= inject_Z (Z.of_nat a))%Q by (unfold Qle; simpl; lia). lra.
Qed.

Lemma limiter_ok_traffic i s w : limiter_ok w -> limiter_ok (with_traffic i s w).
Proof. intros H. exact H. Qed.

(** What the retry loop does to the world, whatever its outcome. *)
Lemma fmp_get_attempts_effects url params backoff :
  (0 <= backoff)%Q ->
  forall n a w r w',
    fmp_get_attempts url params backoff a n w = (r, w') ->
    same_store w w'
    /\ (clock w <= clock w')%Q
    /\ (limiter_ok w -> limiter_ok w')
    /\ exists k, (k <= n)%nat
         /\ sent w' = replicate k {| req_url := url; req_params := params |} ++ sent w
         /\ inbox w' = drop k (inbox w).
Proof.
  intros Hb. induction n as [|n IH]; intros a w r w' H.
  - simpl in H. unfold raise in H. inversion H; subst.
    split; [repeat split|]. split; [apply Qle_refl|]. split; [auto|].
    exists 0. split; [lia|]. split; reflexivity.
  - destruct (attempt_step url params backoff a n w) as (wl & E & Hstep).
    rewrite Hstep in H. clear Hstep.
    destruct (limiter_wait_frame w) as (wl' & E' & Hi & Hs & Hst & Hclk).
    rewrite E in E'. inversion E'; subst wl'. clear E'.
    assert (Hok : limiter_ok w -> limiter_ok wl).
    { intros Hw. destruct (limiter_wait_bounds_rate w Hw) as (w2 & E2 & Hok2 & _).
      rewrite E in E2. inversion E2; subst. exact Hok2. }
    destruct (inbox w) as [|rsp rest] eqn:Hin.
    + inversion H; subst. split; [exact Hst|]. split; [exact Hclk|].
      split; [exact Hok|]. exists 1. split; [lia|]. split; reflexivity.
    + cbn zeta in H. destruct (throttled rsp).
      * apply IH in H as (Hst2 & Hclk2 & Hok2 & k & Hk & Hsent & Hinb).
        pose proof (backoff_delay_nonneg backoff a Hb) as Hd.
        split.
        { destruct Hst as (? & ? & ? & ?), Hst2 as (? & ? & ? & ?).
          simpl in *. repeat split; congruence. }
        split; [simpl in Hclk2; lra|].
        split.
        { intros Hw. apply Hok2. apply limiter_ok_later; [apply Hok, Hw|].
          simpl. lra. }
        exists (S k). split; [lia|]. simpl in Hsent, Hinb.
        split; [rewrite Hsent; apply replicate_snoc_cons | exact Hinb].
      * assert (Hw' : w' = with_traffic rest
                       ({| req_url := url; req_params := params |} :: sent w) wl)
          by (destruct (error_status rsp); inversion H; reflexivity).
        subst w'. split; [exact Hst|]. split; [exact Hclk|].
        split; [exact Hok|]. exists 1. split; [lia|]. split; reflexivity.
Qed.

(** After a run of throttled answers the loop is where it started,
    with as many turns used up. *)
Lemma fmp_get_attempts_after_throttles url params backoff :
  forall pre a n w rest,
    inbox w = pre ++ rest ->
    Forall (fun r => throttled r = true) pre ->
    exists w1,
      fmp_get_attempts url params backoff a (length pre + n) w
      = fmp_get_attempts url params backoff (length pre + a) n w1
      /\ inbox w1 = rest
      /\ sent w1 = replicate (length pre) {| req_url := url; req_params := params |}
                   ++ sent w.
Proof.
  induction pre as [|r pre IH]; intros a n w rest Hin Hall.
  - exists w. simpl. auto.
  - inversion Hall as [|? ? Hr Hpre]; subst.
    destruct (attempt_step url params backoff a (length pre + n) w)
      as (wl & E & Hstep).
    simpl length. simpl Nat.add. rewrite Hstep, Hin. simpl. rewrite Hr.
    match goal with |- context [fmp_get_attempts _ _ _ (S a) _ ?w0] =>
      destruct (IH (S a) n w0 rest eq_refl Hpre) as (w1 & E1 & Hi1 & Hs1)
    end.
    exists w1. rewrite E1. rewrite Nat.add_succ_r.
    split; [reflexivity|]. split; [exact Hi1|].
    rewrite Hs1. simpl. apply replicate_snoc_cons.
Qed.

Lemma fmp_get_with_key key path params retries backoff w :
  has_key key w ->
  fmp_get_with path params retries backoff w
  = fmp_get_attempts (FMP_BASE +:+ path) (<["apikey" := VStr key]> params)
      backoff 0 retries w.
Proof.
  intros [Hk Hne]. unfold fmp_get_with, bind, getenv. rewrite Hk. simpl.
  destruct (String.eqb_spec key ""); [contradiction | reflexivity].
Qed.

(** X2.  When the provider answers 429 as many times as there are
    retries, [fmp_get] gives up with an HTTP error, having sent
    exactly that many requests, each for the same URL and carrying the
    API key, and leaves the later answers untouched. *)
Theorem fmp_get_gives_up_after_retries
    (key path : string) (params : row) (retries : nat) (backoff : Q)
    (w : world) (pre rest : list response) :
  has_key key w ->
  inbox w = pre ++ rest ->
  length pre = retries ->
  Forall (fun r => throttled r = true) pre ->
  exists w',
    fmp_get_with path params retries backoff w = (Raise HTTPError, w')
    /\ inbox w' = rest
    /\ sent w' = replicate retries (api_request key path params) ++ sent w.
Proof.
  intros Hkey Hin Hlen Hall.
  rewrite (fmp_get_with_key key) by exact Hkey.
  destruct (fmp_get_attempts_after_throttles (FMP_BASE +:+ path)
              (<["apikey" := VStr key]> params) backoff pre 0 0 w rest Hin Hall)
    as (w1 & E & Hi & Hs).
  rewrite Nat.add_0_r, Hlen in E. rewrite E. simpl. unfold raise.
  exists w1. rewrite <- Hlen. auto.
Qed.

Lemma fmp_get_gives_up_after_retries_witness :
  has_key "demo" throttling_world
  /\ fst (fmp_get "/profile/ACME" ∅ throttling_world) = Raise HTTPError
  /\ inbox (snd (fmp_get "/profile/ACME" ∅ throttling_world))
     = [ok200 (PRows [sample_profile])].
Proof.
  assert (K : has_key "demo" throttling_world) by (split; [reflexivity|discriminate]).
  split; [exact K|].
  destruct (fmp_get_gives_up_after_retries "demo" "/profile/ACME" ∅ 3 0.8
              throttling_world [throttle; throttle; throttle]
              [ok200 (PRows [sample_profile])] K eq_refl eq_refl)
    as (w' & E & Hi & _).
  { repeat constructor. }
  unfold fmp_get. rewrite E. split; [reflexivity | exact Hi].
Defined.

(** X3.  Behind fewer throttled answers than there are retries, the
    first other answer decides: an error status (400 to 599) raises an
    HTTP error at once, without further retries; any other status
    returns the decoded body.  One request was sent per answer
    consumed. *)
Theorem fmp_get_first_unthrottled_answer
    (key path : string) (params : row) (retries : nat) (backoff : Q)
    (w : world) (pre : list response) (r : response) (rest : list response) :
  has_key key w ->
  inbox w = pre ++ r :: rest ->
  (length pre < retries)%nat ->
  Forall (fun r => throttled r = true) pre ->
  throttled r = false ->
  exists w',
    fmp_get_with path params retries backoff w
    = (if error_status r then Raise HTTPError else Ok (json r), w')
    /\ inbox w' = rest
    /\ sent w' = replicate (S (length pre)) (api_request key path params) ++ sent w.
Proof.
  intros Hkey Hin Hlen Hall Hr.
  rewrite (fmp_get_with_key key) by exact Hkey.
  destruct (fmp_get_attempts_after_throttles (FMP_BASE +:+ path)
              (<["apikey" := VStr key]> params) backoff pre 0
              (retries - length pre) w (r :: rest) Hin Hall)
    as (w1 & E & Hi & Hs).
  replace (length pre + (retries - length pre))%nat with retries in E by lia.
  rewrite E. clear E.
  destruct (retries - length pre)%nat as [|m] eqn:Hm; [lia|].
  destruct (attempt_step (FMP_BASE +:+ path) (<["apikey" := VStr key]> params)
              backoff (length pre + 0) m w1) as (wl & _ & Hstep).
  rewrite Hstep, Hi. cbn zeta. rewrite Hr.
  eexists. split.
  - destruct (error_status r); reflexivity.
  - simpl. split; [reflexivity|]. rewrite Hs. reflexivity.
Qed.

Lemma fmp_get_first_unthrottled_answer_witness :
  has_key "demo" patient_world
  /\ fst (fmp_get "/profile/ACME" ∅ patient_world) = Ok (PRows [sample_profile])
  /\ inbox (snd (fmp_get "/profile/ACME" ∅ patient_world)) = [].
Proof.
  assert (K : has_key "demo" patient_world) by (split; [reflexivity|discriminate]).
  split; [exact K|].
  destruct (fmp_get_first_unthrottled_answer "demo" "/profile/ACME" ∅ 3 0.8
              patient_world [throttle; throttle] (ok200 (PRows [sample_profile])) []
              K eq_refl)
    as (w' & E & Hi & _).
  { simpl. lia. }
  { repeat constructor. }
  { reflexivity. }
  unfold fmp_get. rewrite E. split; [reflexivity | exact Hi].
Defined.

(** X4.  Whatever the provider answers, a call of [fmp_get] with a
    credential sends at most [retries] requests, all of them the same
    request carrying the API key, and consumes one answer per request;
    it never moves the clock back; it leaves the environment, the
    cache files and the standard output alone; and it keeps the rate
    limiter's state sound. *)
Theorem fmp_get_effects
    (key path : string) (params : row) (retries : nat) (backoff : Q)
    (w w' : world) (r : res payload) :
  has_key key w ->
  (0 <= backoff)%Q ->
  fmp_get_with path params retries backoff w = (r, w') ->
  same_store w w'
  /\ (clock w <= clock w')%Q
  /\ (limiter_ok w -> limiter_ok w')
  /\ exists k, (k <= retries)%nat
       /\ sent w' = replicate k (api_request key path params) ++ sent w
       /\ inbox w' = drop k (inbox w).
Proof.
  intros Hkey Hb H. rewrite (fmp_get_with_key key) in H by exact Hkey.
  exact (fmp_get_attempts_effects _ _ _ Hb _ _ _ _ _ H).
Qed.

Lemma fmp_get_effects_witness :
  has_key "demo" patient_world
  /\ (0 <= 0.8)%Q
  /\ same_store patient_world (snd (fmp_get "/profile/ACME" ∅ patient_world))
  /\ (clock patient_world <= clock (snd (fmp_get "/profile/ACME" ∅ patient_world)))%Q.
Proof.
  assert (K : has_key "demo" patient_world) by (split; [reflexivity|discriminate]).
  assert (B : (0 <= 0.8)%Q) by discriminate.
  split; [exact K|]. split; [exact B|].
  destruct (fmp_get_effects "demo" "/profile/ACME" ∅ 3 0.8 patient_world
              (snd (fmp_get "/profile/ACME" ∅ patient_world))
              (fst (fmp_get "/profile/ACME" ∅ patient_world)) K B)
    as (Hs & Hc & _).
  { unfold fmp_get. destruct (fmp_get_with _ _ _ _ _). reflexivity. }
  split; [exact Hs | exact Hc].
Defined.

(** ** The symbol universe, continued *)

Lemma existsb_eqb_elem (x : string) (l : list string) :
  existsb (String.eqb x) l = true <-> x ∈ l.
Proof.
  rewrite existsb_exists, list_elem_of_In. split.
  - intros (y & Hy & E). apply String.eqb_eq in E. subst. exact Hy.
  - intros H. exists x. split; [exact H | apply String.eqb_refl].
Qed.

Lemma isalpha_length sym : isalpha sym = true -> (1 <= String.length sym)%nat.
Proof.
  unfold isalpha. destruct sym; simpl; [discriminate | lia].
Qed.

Lemma symbol_ok_listed m cs r :
  keep_symbol m cs r = Ok true <-> listed m cs r.
Proof.
  unfold keep_symbol, listed, symbol_ok. split.
  - destruct (dict_get r "symbol") as [| |?|sym] eqn:Hsym; try discriminate.
    match goal with |- (if ?c then _ else _) = _ -> _ =>
      destruct c eqn:Hc; [|discriminate]
    end.
    rewrite !andb_true_iff in Hc.
    destruct Hc as (((((H1 & H2) & H3) & H4) & H5) & H6).
    simpl existsb in H3. rewrite orb_false_r, negb_true_iff in H3.
    rewrite !orb_false_iff in H3. destruct H3 as (E1 & E2 & E3).
    apply negb_true_iff in H4. apply Nat.leb_le in H6.
    destruct (as_number _) as [mc|] eqn:Hmc; [|discriminate].
    intros H. injection H as Hle. exists sym, mc.
    apply Qle_bool_iff in Hle.
    pose proof (isalpha_length sym H5).
    repeat split; try assumption; try lia.
    intros l ->. destruct (dict_get r "country") as [| |?|c]; try discriminate.
    exists c. split; [reflexivity|]. apply existsb_eqb_elem, H2.
  - intros (sym & mc & Hsym & H5 & [Hlo Hhi] & E1 & E2 & E3 & H4 & Hc & Hmc & Hle).
    rewrite Hsym.
    assert (H1 : negb (sym =? "")%string = true).
    { destruct sym; [simpl in Hlo; lia | reflexivity]. }
    rewrite H1. simpl existsb. rewrite E1, E2, E3, H4, H5.
    apply Nat.leb_le in Hhi. rewrite Hhi.
    assert (H2 : match cs with
                 | Some l => match dict_get r "country" with
                             | VStr c => existsb (String.eqb c) l
                             | _ => false
                             end
                 | None => true
                 end = true).
    { destruct cs as [l|]; [|reflexivity].
      destruct (Hc l eq_refl) as (c & -> & Hin). apply existsb_eqb_elem, Hin. }
    rewrite H2. simpl. rewrite Hmc. f_equal. apply Qle_bool_iff, Hle.
Qed.

Lemma filter_symbols_spec m cs rows kept :
  filter_symbols m cs rows = Ok kept ->
  sublist kept rows
  /\ forall r, r ∈ kept <-> r ∈ rows /\ keep_symbol m cs r = Ok true.
Proof.
  revert kept. induction rows as [|x rows IH]; intros kept H; simpl in H.
  - inversion H; subst. split; [constructor|].
    intros r. split; [intros Hr; inversion Hr | intros [Hr _]; inversion Hr].
  - destruct (keep_symbol m cs x) as [b|] eqn:Hx; [|discriminate].
    destruct (filter_symbols m cs rows) as [kept'|]; [|discriminate].
    destruct (IH kept' eq_refl) as [Hsub Hiff].
    inversion H; subst; clear H. destruct b.
    + split; [apply sublist_skip, Hsub|].
      intros r. rewrite !elem_of_cons, Hiff. split.
      * intros [->|[Hr Hk]]; auto.
      * intros [[->|Hr] Hk]; auto.
    + split; [apply sublist_cons, Hsub|].
      intros r. rewrite elem_of_cons, Hiff. split.
      * intros [Hr Hk]; auto.
      * intros [[->|Hr] Hk]; [congruence | auto].
Qed.

(** X5.  On a screener answer whose tickers are written in ASCII,
    [list_symbols], when it returns, returns exactly the rows of the
    answer that pass every test (letters only, one to five of them,
    none of the suffixes WT, WS, PR, no dash, a listed country when a
    list is given, market cap of at least [min_mcap] with an absent
    one counting as 0), in the screener's order. *)
Theorem list_symbols_returns_the_listed_rows
    (ex : string) (m : Q) (cs : option (list string)) (w w1 w' : world)
    (p : payload) (all rows : list row) :
  fmp_get "/stock-screener" (screener_params ex) w = (Ok p, w1) ->
  payload_rows (or_empty_list p) = Ok all ->
  Forall ascii_symbol all ->
  list_symbols ex m cs w = (Ok rows, w') ->
  w' = w1
  /\ sublist rows all
  /\ forall r, r ∈ rows <-> r ∈ all /\ listed m cs r.
Proof.
  intros Hp Hall _ H. unfold list_symbols in H.
  apply bind_Ok_inv in H as (p' & w2 & Hp' & H).
  rewrite Hp in Hp'. inversion Hp'; subst p' w2; clear Hp'.
  apply bind_Ok_inv in H as (all' & w2 & Hall' & H).
  apply lift_Ok_inv in Hall' as [Hall' ->].
  rewrite Hall in Hall'. inversion Hall'; subst all'; clear Hall'.
  apply lift_Ok_inv in H as [H ->].
  destruct (filter_symbols_spec _ _ _ _ H) as [Hsub Hiff].
  split; [reflexivity|]. split; [exact Hsub|].
  intros r. rewrite Hiff, symbol_ok_listed. reflexivity.
Qed.

Lemma list_symbols_returns_the_listed_rows_witness :
  Forall ascii_symbol [screener_row_no_mcap; screener_row]
  /\ fst (list_symbols "NASDAQ" 50000000 (Some ["US"]) screener_world)
     = Ok [screener_row]
  /\ listed 50000000 (Some ["US"]) screener_row
  /\ ~ listed 50000000 (Some ["US"]) screener_row_no_mcap.
Proof.
  assert (Ha : Forall ascii_symbol [screener_row_no_mcap; screener_row]).
  { repeat constructor; intros sym Hs; vm_compute in Hs; inversion Hs;
      reflexivity. }
  split; [exact Ha|]. split; [vm_compute; reflexivity|].
  destruct (list_symbols_returns_the_listed_rows "NASDAQ" 50000000 (Some ["US"])
              screener_world
              (snd (fmp_get "/stock-screener" (screener_params "NASDAQ")
                      screener_world))
              (snd (list_symbols "NASDAQ" 50000000 (Some ["US"]) screener_world))
              (PRows [screener_row_no_mcap; screener_row])
              [screener_row_no_mcap; screener_row]
              [screener_row])
    as (_ & _ & Hiff);
    [vm_compute; reflexivity | vm_compute; reflexivity | exact Ha
     | vm_compute; reflexivity |].
  split.
  - apply (Hiff screener_row). left.
  - intros (sym & mc & _ & _ & _ & _ & _ & _ & _ & _ & Hmc & Hle).
    vm_compute in Hmc. inversion Hmc; subst. vm_compute in Hle. apply Hle. reflexivity.
Defined.

Lemma filter_symbols_raises m cs rows r e :
  r ∈ rows -> keep_symbol m cs r = Raise e ->
  exists e', filter_symbols m cs rows = Raise e'.
Proof.
  intros Hin Hr. induction rows as [|x rows IH]; [inversion Hin|].
  simpl. apply elem_of_cons in Hin as [<-|Hin].
  - rewrite Hr. eauto.
  - destruct (keep_symbol m cs x); [|eauto].
    destruct (IH Hin) as [e' ->]. eauto.
Qed.

Lemma keep_symbol_raises_TypeError m cs r e :
  keep_symbol m cs r = Raise e -> e = TypeError.
Proof.
  unfold keep_symbol. destruct (symbol_ok cs r); [|discriminate].
  destruct (py_or _ _) as [|[]|?|?]; simpl; intros H; inversion H; reflexivity.
Qed.

Lemma filter_symbols_raises_TypeError m cs rows e :
  filter_symbols m cs rows = Raise e -> e = TypeError.
Proof.
  induction rows as [|x rows IH]; simpl; [discriminate|].
  destruct (keep_symbol m cs x) eqn:Hx.
  - destruct (filter_symbols m cs rows); [discriminate|].
    intros H. inversion H; subst. apply IH. reflexivity.
  - intros H. inversion H; subst. eapply keep_symbol_raises_TypeError, Hx.
Qed.

(** X6.  One bad row spoils the listing of an exchange: if a row that
    passes the ticker and country tests carries its market cap as a
    non-empty text, [list_symbols] raises [TypeError] and returns no
    row at all. *)
Theorem list_symbols_fails_on_text_mcap
    (ex : string) (m : Q) (cs : option (list string)) (w w' : world)
    (p : payload) (all : list row) (r : row) (s : string) :
  fmp_get "/stock-screener" (screener_params ex) w = (Ok p, w') ->
  payload_rows (or_empty_list p) = Ok all ->
  r ∈ all ->
  symbol_ok cs r = true ->
  dict_get r "marketCap" = VStr s ->
  s <> "" ->
  list_symbols ex m cs w = (Raise TypeError, w').
Proof.
  intros Hp Hall Hin Hok Hmc Hs.
  assert (Hr : keep_symbol m cs r = Raise TypeError).
  { unfold keep_symbol. rewrite Hok, Hmc. unfold py_or. simpl.
    destruct (String.eqb_spec s ""); [contradiction | reflexivity]. }
  destruct (filter_symbols_raises m cs all r _ Hin Hr) as [e He].
  pose proof (filter_symbols_raises_TypeError _ _ _ _ He). subst e.
  unfold list_symbols, bind. rewrite Hp. unfold lift. rewrite Hall, He.
  reflexivity.
Qed.

Lemma list_symbols_fails_on_text_mcap_witness :
  symbol_ok (Some ["US"]) screener_row_text_mcap = true
  /\ dict_get screener_row_text_mcap "marketCap" = VStr "1.2B"
  /\ fst (list_symbols "NASDAQ" 50000000 (Some ["US"]) text_mcap_world)
     = Raise TypeError.
Proof.
  assert (Hok : symbol_ok (Some ["US"]) screener_row_text_mcap = true)
    by (vm_compute; reflexivity).
  assert (Hmc : dict_get screener_row_text_mcap "marketCap" = VStr "1.2B")
    by (vm_compute; reflexivity).
  split; [exact Hok|]. split; [exact Hmc|].
  rewrite (list_symbols_fails_on_text_mcap "NASDAQ" 50000000 (Some ["US"])
             text_mcap_world
             (snd (fmp_get "/stock-screener" (screener_params "NASDAQ")
                     text_mcap_world))
             (PRows [screener_row; screener_row_text_mcap])
             [screener_row; screener_row_text_mcap]
             screener_row_text_mcap "1.2B").
  - reflexivity.
  - vm_compute. reflexivity.
  - reflexivity.
  - right. left.
  - exact Hok.
  - exact Hmc.
  - discriminate.
Defined.

(** ** The per-symbol derivation, continued *)

Lemma within_refl w : within 0 w w.
Proof.
  unfold within.
  refine (conj eq_refl (conj eq_refl (conj eq_refl (conj _ (conj _ _)))));
    [apply Qle_refl | auto | lia].
Qed.

Lemma within_trans n m w1 w2 w3 :
  within n w1 w2 -> within m w2 w3 -> within (n + m) w1 w3.
Proof.
  unfold within.
  intros (E1 & F1 & D1 & C1 & L1 & S1) (E2 & F2 & D2 & C2 & L2 & S2).
  refine (conj _ (conj _ (conj _ (conj _ (conj _ _)))));
    [congruence | congruence | congruence | lra | auto | lia].
Qed.

Lemma within_weaken n m w w' : (n <= m)%nat -> within n w w' -> within m w w'.
Proof.
  unfold within. intros Hnm (E & F & D & C & L & S).
  refine (conj E (conj F (conj D (conj C (conj L _))))). lia.
Qed.

Lemma fmp_get_within path params w r w' :
  fmp_get path params w = (r, w') -> within 3 w w'.
Proof.
  intros H. destruct (environ w !! "FMP_API_KEY") as [key|] eqn:Hk.
  - destruct (String.eqb_spec key "") as [->|Hne].
    + rewrite fmp_get_no_key in H by (unfold key_missing; rewrite Hk; reflexivity).
      inversion H; subst. apply (within_weaken 0); [lia | apply within_refl].
    + assert (K : has_key key w) by (split; assumption).
      assert (B : (0 <= 0.8)%Q) by discriminate.
      destruct (fmp_get_effects key path params 3 0.8 w w' r K B H)
        as ((E & F & D & _) & C & L & k & Hk3 & Hs & _).
      unfold within. refine (conj E (conj F (conj D (conj C (conj L _))))).
      rewrite Hs, length_app, length_replicate. lia.
  - rewrite fmp_get_no_key in H by (unfold key_missing; rewrite Hk; reflexivity).
    inversion H; subst. apply (within_weaken 0); [lia | apply within_refl].
Qed.

Lemma fmp_profile_within sym w r w' :
  fmp_profile sym w = (r, w') -> within 3 w w'.
Proof.
  unfold fmp_profile, bind. intros H.
  destruct (fmp_get _ _ w) as [[p|e] w1] eqn:Hg.
  - apply fmp_get_within in Hg.
    destruct (or_empty_list p) as [|[|? ?]|?]; unfold ret in H;
      inversion H; subst; exact Hg.
  - inversion H; subst. eapply fmp_get_within, Hg.
Qed.

Lemma fmp_income_within sym ann w r w' :
  fmp_income sym ann w = (r, w') -> within 3 w w'.
Proof.
  unfold fmp_income, bind. intros H.
  destruct ann; destruct (fmp_get _ _ w) as [[p|e] w1] eqn:Hg;
    unfold ret in H; inversion H; subst; eapply fmp_get_within, Hg.
Qed.

Lemma fmp_balance_within sym w r w' :
  fmp_balance sym w = (r, w') -> within 3 w w'.
Proof.
  unfold fmp_balance, bind. intros H.
  destruct (fmp_get _ _ w) as [[p|e] w1] eqn:Hg;
    unfold ret in H; inversion H; subst; eapply fmp_get_within, Hg.
Qed.

Lemma within_stdout n w w' o : within n w w' -> within n w (with_stdout o w').
Proof. intros H. exact H. Qed.

Lemma derive_within sym prof ebit tca tcl ppe cash debt mcap w r w' :
  derive sym prof ebit tca tcl ppe cash debt mcap w = (r, w') -> within 0 w w'.
Proof.
  intros H.
  assert (Hw : w' = w \/ exists o, w' = with_stdout o w).
  { unfold derive in H.
    destruct ebit, tca, tcl, ppe, cash, debt, mcap;
      try (unfold bind, print, ret in H; inversion H; right; eauto; fail).
    repeat match type of H with
           | (if ?c then _ else _) _ = _ => destruct c
           end; unfold ret in H; inversion H; auto. }
  destruct Hw as [->|[o ->]]; [apply within_refl|].
  apply within_stdout, within_refl.
Qed.

Section DerivationEffects.

Variable f : string -> option Q.

Lemma pull_company_body_within sym ann w r w' :
  pull_company_body f sym ann w = (r, w') -> within 9 w w'.
Proof.
  unfold pull_company_body. intros H. unfold bind at 1 in H.
  destruct (fmp_profile sym w) as [[prof|e] w1] eqn:Hp;
    [|inversion H; subst; apply (within_weaken 3); [lia|];
      eapply fmp_profile_within, Hp].
  apply fmp_profile_within in Hp.
  destruct (size prof =? 0)%nat;
    [unfold ret in H; inversion H; subst;
     apply (within_weaken 3); [lia | exact Hp]|].
  destruct (in_excluded_sectors _);
    [unfold ret in H; inversion H; subst;
     apply (within_weaken 3); [lia | exact Hp]|].
  unfold bind at 1 in H.
  destruct (fmp_income sym ann w1) as [[inc|e] w2] eqn:Hi;
    apply fmp_income_within in Hi;
    pose proof (within_trans _ _ _ _ _ Hp Hi) as H2;
    [|inversion H; subst; apply (within_weaken (3 + 3)); [lia | exact H2]].
  unfold bind at 1 in H.
  destruct (fmp_balance sym w2) as [[bal|e] w3] eqn:Hb;
    apply fmp_balance_within in Hb;
    pose proof (within_trans _ _ _ _ _ H2 Hb) as H3;
    [|inversion H; subst; exact H3].
  repeat (unfold bind at 1 in H; unfold lift at 1 in H;
          match type of H with
          | match ?x with Ok _ => _ | Raise _ => _ end = _ =>
              destruct x; [|inversion H; subst; exact H3]
          | (let (_, _) := ?x in _) = _ => idtac
          | _ => idtac
          end).
  apply derive_within in H.
  apply (within_weaken (3 + 3 + 3 + 0)); [lia|].
  eapply within_trans; eassumption.
Qed.

(** X7.  [pull_company] never raises, whatever the provider does
    (errors, throttling, no answer, malformed records).  It sends at
    most nine requests per symbol, never writes to the environment or
    to the cache directory, never moves the clock back and keeps the
    rate limiter's state sound. *)
Theorem pull_company_is_contained (sym : string) (ann : bool) (w : world) :
  exists r w',
    pull_company f sym ann w = (Ok r, w')
    /\ environ w' = environ w /\ files w' = files w
    /\ disk_writable w' = disk_writable w
    /\ (clock w <= clock w')%Q
    /\ (length (sent w') <= length (sent w) + 9)%nat.
Proof.
  unfold pull_company, try_except.
  destruct (pull_company_body f sym ann w) as [[r|e] w'] eqn:Hb;
    apply pull_company_body_within in Hb;
    destruct Hb as (E & F & D & C & _ & S);
    eexists _, w';
    exact (conj eq_refl (conj E (conj F (conj D (conj C S))))).
Qed.

Lemma pull_company_within sym ann w r w' :
  pull_company f sym ann w = (r, w') -> within 9 w w'.
Proof.
  unfold pull_company, try_except.
  destruct (pull_company_body f sym ann w) as [[x|e] w1] eqn:Hb;
    apply pull_company_body_within in Hb; intros H; inversion H; subst; exact Hb.
Qed.

End DerivationEffects.

Lemma derive_Some_labels sym prof ebit tca tcl ppe cash debt mcap w rec w' :
  derive sym prof ebit tca tcl ppe cash debt mcap w = (Ok (Some rec), w') ->
  ticker rec = sym
  /\ name rec = py_or (dict_get prof "companyName")
                  (py_or (dict_get prof "company") (dict_get prof "symbol"))
  /\ exchange rec = dict_get prof "exchangeShortName"
  /\ country rec = dict_get prof "country"
  /\ sector rec = dict_get prof "sector"
  /\ industry rec = dict_get prof "industry"
  /\ mcap = Some (marketCap rec).
Proof.
  intros H.
  destruct ebit as [e|], tca as [a|], tcl as [l|], ppe as [p|],
    cash as [c|], debt as [d|], mcap as [m|];
    try (unfold derive, bind, print, ret in H; discriminate H).
  unfold derive in H.
  destruct (Qle_bool (m + d - c) 0); [discriminate H|].
  destruct (Qle_bool (max0 (a - c - (l - d)) + p) 0); [discriminate H|].
  destruct (Qltb 0.5 (e / (m + d - c))); [discriminate H|].
  destruct (Qltb (max0 (a - c - (l - d)) + p) 10e6); [discriminate H|].
  unfold ret in H. inversion H; subst; clear H. simpl.
  repeat split; reflexivity.
Qed.

Lemma in_excluded_sectors_false v :
  in_excluded_sectors v = false ->
  forall s, v = VStr s -> s ∉ EXCLUDE_SECTORS.
Proof.
  intros H s -> Hin. apply existsb_eqb_elem in Hin.
  unfold in_excluded_sectors in H. congruence.
Qed.

Lemma latest_rows f items field x :
  _latest f items field = Ok (Some x) ->
  exists b rest,
    items = PRows (b :: rest)
    /\ is_blank (dict_get b field) = false
    /\ py_float f (dict_get b field) = Ok x.
Proof.
  unfold _latest. intros H.
  destruct items as [|[|b rest]|obj]; simpl in H; try discriminate H.
  - destruct (is_blank (dict_get b field)) eqn:Hb; [discriminate H|].
    destruct (py_float f (dict_get b field)) eqn:Hf; [|discriminate H].
    inversion H; subst. exists b, rest. auto.
  - destruct (negb (negb (size obj =? 0)%nat)); discriminate H.
Qed.

Section DerivationDetails.

Variable f : string -> option Q.

(** What a successful [pull_company] saw in the profile. *)
Lemma pull_company_Some_profile sym ann w rec w' :
  pull_company f sym ann w = (Ok (Some rec), w') ->
  exists prof w1,
    fmp_profile sym w = (Ok prof, w1)
    /\ prof <> ∅
    /\ in_excluded_sectors (dict_get prof "sector") = false
    /\ ticker rec = sym
    /\ sector rec = dict_get prof "sector"
    /\ profile_mcap f prof = Some (marketCap rec).
Proof.
  intros H. unfold pull_company, try_except in H.
  destruct (pull_company_body f sym ann w) as [[r|e] w0] eqn:Hb;
    [|unfold ret in H; discriminate H].
  inversion H; subst; clear H.
  unfold pull_company_body in Hb.
  apply bind_Ok_inv in Hb as (prof & w1 & Hprof & Hb).
  destruct (size prof =? 0)%nat eqn:Hsz; [unfold ret in Hb; discriminate Hb|].
  destruct (in_excluded_sectors (dict_get prof "sector")) eqn:Hex;
    [unfold ret in Hb; discriminate Hb|].
  apply bind_Ok_inv in Hb as (inc & w2 & _ & Hb).
  apply bind_Ok_inv in Hb as (bal & w3 & _ & Hb).
  do 7 (apply bind_Ok_inv in Hb as (? & ? & _ & Hb)).
  apply derive_Some_labels in Hb as (Ht & _ & _ & _ & Hs & _ & Hm).
  exists prof, w1. split; [exact Hprof|]. split.
  { intros ->. rewrite map_size_empty in Hsz. discriminate. }
  auto.
Qed.

(** X8.  A symbol with an empty profile, or whose sector is on the
    exclusion list, yields no record, and [pull_company] stops right
    after the profile request: no statement is fetched for it. *)
Theorem pull_company_stops_at_excluded_profile
    (sym : string) (ann : bool) (w w1 : world) (prof : row) :
  fmp_profile sym w = (Ok prof, w1) ->
  (prof = ∅
   \/ exists s, dict_get prof "sector" = VStr s /\ s ∈ EXCLUDE_SECTORS) ->
  pull_company f sym ann w = (Ok None, w1).
Proof.
  intros Hp Hex. unfold pull_company, try_except, pull_company_body.
  unfold bind at 1. rewrite Hp.
  destruct Hex as [->|(s & Hs & Hin)].
  - rewrite map_size_empty. reflexivity.
  - destruct (size prof =? 0)%nat; [reflexivity|].
    rewrite Hs. unfold in_excluded_sectors.
    apply existsb_eqb_elem in Hin. rewrite Hin. reflexivity.
Qed.

(** X9.  Where the labels of a returned record come from: the ticker
    is the symbol asked for; the sector is the profile's and is not on
    the exclusion list; the market cap is read off the profile's
    [mktCap], or off its [marketCap] when [mktCap] is absent. *)
Theorem returned_record_provenance
    (sym : string) (ann : bool) (w w' : world) (rec : FinancialRecord) :
  pull_company f sym ann w = (Ok (Some rec), w') ->
  exists prof w1,
    fmp_profile sym w = (Ok prof, w1)
    /\ ticker rec = sym
    /\ sector rec = dict_get prof "sector"
    /\ (forall s, sector rec = VStr s -> s ∉ EXCLUDE_SECTORS)
    /\ (dict_get prof "mktCap" <> VNone ->
        py_float f (dict_get prof "mktCap") = Ok (marketCap rec))
    /\ (dict_get prof "mktCap" = VNone ->
        py_float f (dict_get prof "marketCap") = Ok (marketCap rec)).
Proof.
  intros H.
  destruct (pull_company_Some_profile _ _ _ _ _ H)
    as (prof & w1 & Hp & _ & Hex & Ht & Hs & Hm).
  exists prof, w1. split; [exact Hp|]. split; [exact Ht|]. split; [exact Hs|].
  split; [rewrite Hs; apply in_excluded_sectors_false, Hex|].
  unfold profile_mcap in Hm.
  split.
  - intros Hne. revert Hm.
    destruct (dict_get prof "mktCap") as [|b|q|s]; [congruence| | |];
      destruct (py_float f _); congruence.
  - intros E. rewrite E in Hm. revert Hm.
    destruct (dict_get prof "marketCap") as [|b|q|s]; [discriminate| | |];
      destruct (py_float f _); congruence.
Qed.

End DerivationDetails.

Lemma returned_record_provenance_witness :
  pull_company no_float "ACME" false (sample_world 4 10000000)
  = (Ok (Some sample_record),
     snd (pull_company no_float "ACME" false (sample_world 4 10000000)))
  /\ ticker sample_record = "ACME"
  /\ "Technology" ∉ EXCLUDE_SECTORS.
Proof.
  split; [vm_compute; reflexivity|].
  destruct (returned_record_provenance no_float "ACME" false (sample_world 4 10000000)
              (snd (pull_company no_float "ACME" false (sample_world 4 10000000)))
              sample_record)
    as (prof & w1 & _ & Ht & _ & Hex & _).
  - vm_compute. reflexivity.
  - split; [exact Ht|]. apply Hex. reflexivity.
Defined.


Lemma pull_company_stops_at_excluded_profile_witness :
  fmp_profile "BANK" bank_world
  = (Ok bank_profile, snd (fmp_profile "BANK" bank_world))
  /\ pull_company no_float "BANK" false bank_world
     = (Ok None, snd (fmp_profile "BANK" bank_world))
  /\ length (sent (snd (pull_company no_float "BANK" false bank_world))) = 1.
Proof.
  assert (Hp : fmp_profile "BANK" bank_world
               = (Ok bank_profile, snd (fmp_profile "BANK" bank_world)))
    by (vm_compute; reflexivity).
  split; [exact Hp|].
  assert (Hx : pull_company no_float "BANK" false bank_world
               = (Ok None, snd (fmp_profile "BANK" bank_world))).
  { apply (pull_company_stops_at_excluded_profile no_float "BANK" false
             bank_world _ bank_profile Hp).
    right. exists "Financial Services". split; [vm_compute; reflexivity|].
    left. }
  split; [exact Hx|]. rewrite Hx. vm_compute. reflexivity.
Defined.

(** X10.  The total debt of a returned record is read from a single
    field of the latest balance sheet: [totalDebt] when it is there,
    else [shortTermDebt], else [longTermDebt].  The parts are never
    added up: with no [totalDebt], long-term debt is ignored as soon
    as a short-term debt is reported. *)
Theorem total_debt_is_first_reported_field
    (f : string -> option Q) (sym : string) (ann : bool) (w w' : world)
    (rec : FinancialRecord) :
  pull_company f sym ann w = (Ok (Some rec), w') ->
  exists w2 b rest,
    fmp_balance sym w2 = (Ok (PRows (b :: rest)), w')
    /\ ((is_blank (dict_get b "totalDebt") = false
         /\ py_float f (dict_get b "totalDebt") = Ok (TotalDebt rec))
        \/ (is_blank (dict_get b "totalDebt") = true
            /\ is_blank (dict_get b "shortTermDebt") = false
            /\ py_float f (dict_get b "shortTermDebt") = Ok (TotalDebt rec))
        \/ (is_blank (dict_get b "totalDebt") = true
            /\ is_blank (dict_get b "shortTermDebt") = true
            /\ is_blank (dict_get b "longTermDebt") = false
            /\ py_float f (dict_get b "longTermDebt") = Ok (TotalDebt rec))).
Proof.
  intros H.
  apply pull_company_Some in H
    as (prof & w1 & inc & w2 & bal & ebit & tca & tcl & ppe & cash & debt & H).
  destruct H as (_ & _ & Hbal & _ & _ & Ha & _ & _ & _ & Hd & H).
  apply derive_Some in H
    as (e & a & l & p & c & d & m & _ & -> & _ & _ & _ & -> & _ & _
        & _ & Htd & _).
  apply latest_rows in Ha as (b & rest & -> & _ & _).
  exists w2, b, rest. split; [exact Hbal|].
  rewrite Htd. unfold _first_available in Hd. simpl in Hd.
  destruct (is_blank (dict_get b "totalDebt")) eqn:B1; simpl in Hd.
  - destruct (is_blank (dict_get b "shortTermDebt")) eqn:B2; simpl in Hd.
    + destruct (is_blank (dict_get b "longTermDebt")) eqn:B3; simpl in Hd;
        [discriminate Hd|].
      right. right.
      destruct (py_float f (dict_get b "longTermDebt")); [|discriminate Hd].
      inversion Hd; subst. auto.
    + right. left.
      destruct (py_float f (dict_get b "shortTermDebt")); [|discriminate Hd].
      inversion Hd; subst. auto.
  - left.
    destruct (py_float f (dict_get b "totalDebt")); [|discriminate Hd].
    inversion Hd; subst. auto.
Qed.

Lemma total_debt_is_first_reported_field_witness :
  exists rec,
    fst (pull_company no_float "ACME" false split_debt_world) = Ok (Some rec)
    /\ TotalDebt rec = 5000000%Q
    /\ dict_get split_debt_balance "longTermDebt" = VNum 15000000.
Proof.
  destruct (pull_company no_float "ACME" false split_debt_world)
    as [[[rec|]|e] w'] eqn:E; try (vm_compute in E; discriminate E).
  exists rec. split; [reflexivity|].
  destruct (total_debt_is_first_reported_field no_float "ACME" false
              split_debt_world w' rec E) as (w2 & b & rest & _ & _).
  split; [|vm_compute; reflexivity].
  vm_compute in E. inversion E. reflexivity.
Defined.

(** ** The result cache, continued *)

Lemma string_length_append (s t : string) :
  String.length (s +:+ t) = (String.length s + String.length t)%nat.
Proof. induction s as [|c s IH]; simpl; [reflexivity|]. rewrite IH. reflexivity. Qed.

Lemma append_inj_r (t s s' : string) : s +:+ t = s' +:+ t -> s = s'.
Proof.
  revert s'. induction s as [|c s IH]; intros [|c' s'] H; simpl in H.
  - reflexivity.
  - apply (f_equal String.length) in H. simpl in H.
    rewrite !string_length_append in H. simpl in H. exfalso. lia.
  - apply (f_equal String.length) in H. simpl in H.
    rewrite !string_length_append in H. simpl in H. exfalso. lia.
  - inversion H; subst. f_equal. apply IH. assumption.
Qed.

Lemma cache_path_inj sym sym' : cache_path sym = cache_path sym' -> sym = sym'.
Proof.
  unfold cache_path. intros H. apply String.app_inj in H.
  eapply append_inj_r, H.
Qed.

Section CacheFacts.

Variable f : string -> option Q.

(** The three ways [pull_company_cached] can end. *)
Lemma pull_company_cached_cases sym ann w r w' :
  pull_company_cached f sym ann w = (r, w') ->
  (exists rec, fresh_entry (cache_path sym) w = Some rec
               /\ r = Ok (Some rec) /\ w' = w)
  \/ (fresh_entry (cache_path sym) w = None
      /\ exists x w0,
           pull_company f sym ann w = (Ok x, w0)
           /\ match x with
              | None => r = Ok None /\ w' = w0
              | Some rec =>
                  if disk_writable w0 then
                    r = Ok (Some rec)
                    /\ w' = with_files
                              (<[cache_path sym :=
                                   {| st_mtime := clock w0; content := rec |}]>
                                 (files w0)) w0
                  else r = Raise OSError /\ w' = w0
              end).
Proof.
  unfold pull_company_cached. intros H.
  destruct (fresh_entry (cache_path sym) w) as [rec|] eqn:Hf.
  - left. inversion H; subst. eauto.
  - right. split; [reflexivity|].
    destruct (pull_company_total f sym ann w) as (x & w0 & Hx).
    exists x, w0. split; [exact Hx|].
    unfold bind at 1 in H. rewrite Hx in H.
    destruct x as [rec|].
    + unfold bind, write_cache in H.
      destruct (disk_writable w0); unfold ret in H; inversion H; auto.
    + unfold ret in H. inversion H; auto.
Qed.

(** X11.  Put then get.  After a cache miss on which
    [pull_company_cached] returned a record, the record sits in the
    symbol's cache file, stamped with the time of the write.  From
    then on, as long as that file is not touched, any call for the
    symbol made less than seven days after the write returns the same
    record without sending a request or changing anything, in annual
    and in trailing mode alike; at seven days or more the entry is
    stale. *)
Theorem cached_record_is_served
    (sym : string) (ann : bool) (w w1 : world) (rec : FinancialRecord) :
  fresh_entry (cache_path sym) w = None ->
  pull_company_cached f sym ann w = (Ok (Some rec), w1) ->
  files w1 !! cache_path sym = Some {| st_mtime := clock w1; content := rec |}
  /\ forall w2 ann',
       files w2 !! cache_path sym = files w1 !! cache_path sym ->
       ((clock w2 - clock w1 < seven_days)%Q ->
        pull_company_cached f sym ann' w2 = (Ok (Some rec), w2))
       /\ ((seven_days <= clock w2 - clock w1)%Q ->
           fresh_entry (cache_path sym) w2 = None).
Proof.
  intros Hmiss H.
  apply pull_company_cached_cases in H as [(r0 & Hf & _)|(_ & x & w0 & Hx & H)];
    [congruence|].
  destruct x as [r0|]; [|destruct H; discriminate].
  destruct (disk_writable w0); [|destruct H; discriminate].
  destruct H as [Hr ->]. inversion Hr; subst r0. clear Hr.
  assert (Hl : files (with_files (<[cache_path sym :=
                        {| st_mtime := clock w0; content := rec |}]> (files w0)) w0)
               !! cache_path sym
               = Some {| st_mtime := clock w0; content := rec |}).
  { simpl. apply lookup_insert_eq. }
  split; [exact Hl|].
  intros w2 ann' Hsame. rewrite Hl in Hsame. simpl clock.
  split; intros Hage.
  - unfold pull_company_cached, fresh_entry. rewrite Hsame. simpl.
    apply Qltb_true in Hage. rewrite Hage. reflexivity.
  - unfold fresh_entry. rewrite Hsame. simpl.
    apply Qltb_false in Hage. rewrite Hage. reflexivity.
Qed.

End CacheFacts.

Lemma cached_record_is_served_witness :
  fresh_entry (cache_path "ACME") (sample_world 4 10000000) = None
  /\ fst (pull_company_cached no_float "ACME" false (sample_world 4 10000000))
     = Ok (Some sample_record)
  /\ pull_company_cached no_float "ACME" true
       (with_clock 518400
          (snd (pull_company_cached no_float "ACME" false (sample_world 4 10000000))))
     = (Ok (Some sample_record),
        with_clock 518400
          (snd (pull_company_cached no_float "ACME" false (sample_world 4 10000000))))
  /\ fresh_entry (cache_path "ACME")
       (with_clock 691200
          (snd (pull_company_cached no_float "ACME" false (sample_world 4 10000000))))
     = None.
Proof.
  assert (Hm : fresh_entry (cache_path "ACME") (sample_world 4 10000000) = None)
    by reflexivity.
  split; [exact Hm|]. split; [vm_compute; reflexivity|].
  destruct (cached_record_is_served no_float "ACME" false
              (sample_world 4 10000000)
              (snd (pull_company_cached no_float "ACME" false
                      (sample_world 4 10000000)))
              sample_record Hm) as [_ Hserve]; [vm_compute; reflexivity|].
  split.
  - destruct (Hserve
                (with_clock 518400
                   (snd (pull_company_cached no_float "ACME" false
                           (sample_world 4 10000000)))) true eq_refl) as [Hs _].
    apply Hs. vm_compute. reflexivity.
  - destruct (Hserve
                (with_clock 691200
                   (snd (pull_company_cached no_float "ACME" false
                           (sample_world 4 10000000)))) true eq_refl) as [_ Hs].
    apply Hs. vm_compute. discriminate.
Defined.




(** ** Ranking, continued *)

Lemma count_greater_lt_length x col :
  x ∈ col -> (count_greater x col < length col)%nat.
Proof.
  intros Hin. induction col as [|v col IH]; [inversion Hin|].
  simpl. apply elem_of_cons in Hin as [<-|Hin].
  - assert (H : Qltb x x = false) by (apply Qltb_false, Qle_refl).
    rewrite H. clear IH.
    assert (count_greater x col <= length col)%nat; [|lia].
    induction col as [|u col IH]; simpl; [lia|]. destruct (Qltb x u); lia.
  - specialize (IH Hin). destruct (Qltb x v); lia.
Qed.

(** A non-empty column has a cell no other exceeds. *)
Lemma count_greater_top col :
  col <> [] -> exists x, x ∈ col /\ count_greater x col = 0.
Proof.
  induction col as [|v col IH]; [congruence|]. intros _.
  destruct col as [|u col'].
  - exists v. split; [left|]. simpl.
    assert (H : Qltb v v = false) by (apply Qltb_false, Qle_refl).
    rewrite H. reflexivity.
  - destruct IH as (m & Hm & Hc); [discriminate|].
    destruct (Qltb m v) eqn:Hmv.
    + apply Qltb_true in Hmv. exists v. split; [left|].
      change (count_greater v (v :: u :: col'))
        with ((if Qltb v v then 1 else 0) + count_greater v (u :: col'))%nat.
      assert (H : Qltb v v = false) by (apply Qltb_false, Qle_refl).
      rewrite H.
      pose proof (count_greater_mono m v (u :: col') (Qlt_le_weak _ _ Hmv)). lia.
    + exists m. split; [right; exact Hm|].
      change (count_greater m (v :: u :: col'))
        with ((if Qltb m v then 1 else 0) + count_greater m (u :: col'))%nat.
      rewrite Hmv, Hc. reflexivity.
Qed.

Lemma sort_values_sorted_id {A} (l : list (Ranked A)) :
  StronglySorted key_le l -> sort_values l = l.
Proof.
  induction 1 as [|x l Hs IH Hall]; [reflexivity|].
  simpl. rewrite IH. destruct l as [|y l']; [reflexivity|].
  simpl. inversion Hall as [|? ? Hxy _]; subst.
  apply key_leb_spec in Hxy. rewrite Hxy. reflexivity.
Qed.

Section RankingMore.

Context {A : Type}.
Variable ey roc : A -> option Q.

(** The rows of the output, with the cells they were ranked on. *)
Lemma ranked_output_cells df x :
  x ∈ magic_formula_rank ey roc df ->
  exists e c,
    (base x, e, c) ∈ dropna ey roc df
    /\ ey (base x) = Some e /\ roc (base x) = Some c
    /\ x = ranked_row (map (fun t => snd (fst t)) (dropna ey roc df))
                      (map snd (dropna ey roc df)) (base x, e, c).
Proof.
  intros Hx. apply magic_formula_rank_elem in Hx as (t & Ht & ->).
  destruct (dropna_cells ey roc df t Ht) as (_ & He & Hc).
  destruct t as [[r e] c]. simpl in *. exists e, c. auto.
Qed.

Lemma magic_formula_rank_length df :
  length (magic_formula_rank ey roc df) = length (dropna ey roc df).
Proof.
  rewrite magic_formula_rank_unfold, sort_values_perm, length_map. reflexivity.
Qed.

(** X13.  Ranks follow the values.  Two rows of the output whose EY
    cells are equal have the same [EY_rank], and a row with a strictly
    greater EY has a strictly lower [EY_rank]; likewise for ROC.  Rows
    equal on both cells have the same score. *)
Theorem ranks_follow_values (df : list A) (x y : Ranked A) (ex cx ey' cy : Q) :
  x ∈ magic_formula_rank ey roc df ->
  y ∈ magic_formula_rank ey roc df ->
  ey (base x) = Some ex -> roc (base x) = Some cx ->
  ey (base y) = Some ey' -> roc (base y) = Some cy ->
  ((ex == ey')%Q -> EY_rank x = EY_rank y)
  /\ ((ey' < ex)%Q -> (EY_rank x < EY_rank y)%nat)
  /\ ((cx == cy)%Q -> ROC_rank x = ROC_rank y)
  /\ ((cy < cx)%Q -> (ROC_rank x < ROC_rank y)%nat)
  /\ ((ex == ey')%Q -> (cx == cy)%Q -> MF_score x = MF_score y).
Proof.
  intros Hx Hy Hex Hcx Hey Hcy.
  apply ranked_output_cells in Hx as (e1 & c1 & Ht1 & He1 & Hc1 & Ex).
  apply ranked_output_cells in Hy as (e2 & c2 & Ht2 & He2 & Hc2 & Ey).
  assert (e1 = ex) by congruence. assert (c1 = cx) by congruence.
  assert (e2 = ey') by congruence. assert (c2 = cy) by congruence.
  subst e1 c1 e2 c2.
  assert (Min1 : ex ∈ map (fun t : A * Q * Q => snd (fst t)) (dropna ey roc df))
    by (apply elem_of_map; exists (base x, ex, cx); auto).
  assert (Min2 : cx ∈ map snd (dropna ey roc df))
    by (apply elem_of_map; exists (base x, ex, cx); auto).
  rewrite Ex, Ey. unfold ranked_row. cbn [EY_rank ROC_rank MF_score fst snd].
  rewrite !rank_desc_min_count.
  split; [|split; [|split; [|split]]].
  - intros E. rewrite (count_greater_Qeq _ _ _ E). reflexivity.
  - intros L. pose proof (count_greater_strict _ _ _ L Min1). lia.
  - intros E. rewrite (count_greater_Qeq _ _ _ E). reflexivity.
  - intros L. pose proof (count_greater_strict _ _ _ L Min2). lia.
  - intros E1 E2.
    rewrite (count_greater_Qeq _ _ _ E1), (count_greater_Qeq _ _ _ E2). reflexivity.
Qed.

(** X14.  Ranks stay within bounds.  With [n] rows in the output,
    every [EY_rank] and [ROC_rank] lies between 1 and [n] and every
    [MF_score] between 2 and [2n]; and when the output is not empty,
    some row has [EY_rank] 1 and some row has [ROC_rank] 1. *)
Theorem ranks_are_bounded (df : list A) :
  let out := magic_formula_rank ey roc df in
  Forall (fun x =>
            (1 <= EY_rank x <= length out)%nat
            /\ (1 <= ROC_rank x <= length out)%nat
            /\ (2 <= MF_score x <= 2 * length out)%nat) out
  /\ (out <> [] ->
      (exists x, x ∈ out /\ EY_rank x = 1)
      /\ (exists y, y ∈ out /\ ROC_rank y = 1)).
Proof.
  intros out. subst out. split.
  - apply Forall_forall. intros x Hx.
    apply ranked_output_cells in Hx as (e & c & Ht & _ & _ & ->).
    rewrite magic_formula_rank_length.
    unfold ranked_row. cbn [EY_rank ROC_rank MF_score fst snd].
    rewrite !rank_desc_min_count.
    assert (M1 : e ∈ map (fun t : A * Q * Q => snd (fst t)) (dropna ey roc df))
      by (apply elem_of_map; exists (base x, e, c); auto).
    assert (M2 : c ∈ map snd (dropna ey roc df))
      by (apply elem_of_map; exists (base x, e, c); auto).
    apply count_greater_lt_length in M1, M2.
    rewrite length_map in M1, M2. lia.
  - intros Hne.
    assert (Hk : dropna ey roc df <> []).
    { intros E. apply Hne. apply length_zero_iff_nil.
      rewrite magic_formula_rank_length, E. reflexivity. }
    assert (Hrow : forall t, t ∈ dropna ey roc df ->
              ranked_row (map (fun t => snd (fst t)) (dropna ey roc df))
                         (map snd (dropna ey roc df)) t
              ∈ magic_formula_rank ey roc df).
    { intros t Ht. rewrite magic_formula_rank_unfold, sort_values_perm.
      apply elem_of_map. eauto. }
    split.
    + destruct (count_greater_top
                  (map (fun t : A * Q * Q => snd (fst t)) (dropna ey roc df)))
        as (e & He & Hc).
      { destruct (dropna ey roc df); [congruence | discriminate]. }
      apply elem_of_map in He as (t & -> & Ht).
      eexists. split; [apply (Hrow t Ht)|].
      simpl. rewrite rank_desc_min_count, Hc. reflexivity.
    + destruct (count_greater_top (map snd (dropna ey roc df)))
        as (c & Hc & Hz).
      { destruct (dropna ey roc df); [congruence | discriminate]. }
      apply elem_of_map in Hc as (t & -> & Ht).
      eexists. split; [apply (Hrow t Ht)|].
      simpl. rewrite rank_desc_min_count, Hz. reflexivity.
Qed.

Lemma dropna_ranked_rows c1 c2 (ts : list (A * Q * Q)) :
  Forall (fun t => ey (fst (fst t)) = Some (snd (fst t))
                   /\ roc (fst (fst t)) = Some (snd t)) ts ->
  dropna ey roc (map base (map (ranked_row c1 c2) ts)) = ts.
Proof.
  induction 1 as [|t ts [He Hc] _ IH]; [reflexivity|].
  cbn [map]. rewrite dropna_cons. cbn [base ranked_row]. rewrite He, Hc, IH.
  destruct t as [[r e] c]. reflexivity.
Qed.

Lemma ranked_rows_rebuilt c1 c2 (l : list (Ranked A)) :
  Forall (fun x => exists e c,
            ey (base x) = Some e /\ roc (base x) = Some c
            /\ x = ranked_row c1 c2 (base x, e, c)) l ->
  map (ranked_row c1 c2) (dropna ey roc (map base l)) = l.
Proof.
  induction 1 as [|x l (e & c & He & Hc & Hx) _ IH]; [reflexivity|].
  cbn [map]. rewrite dropna_cons, He, Hc. cbn [map]. rewrite IH, <- Hx.
  reflexivity.
Qed.

(** X15.  Ranking is idempotent: ranking again the rows of a ranked
    frame, in the order the ranking left them, gives the same frame
    (same order, same ranks, same scores). *)
Theorem ranking_is_idempotent (df : list A) :
  magic_formula_rank ey roc (map base (magic_formula_rank ey roc df))
  = magic_formula_rank ey roc df.
Proof.
  set (kept := dropna ey roc df).
  set (c1 := map (fun t : A * Q * Q => snd (fst t)) kept).
  set (c2 := map snd kept).
  set (out := magic_formula_rank ey roc df).
  assert (Hout : out ≡ₚ map (ranked_row c1 c2) kept).
  { subst out. rewrite magic_formula_rank_unfold. apply sort_values_perm. }
  assert (Hcells : Forall (fun t => ey (fst (fst t)) = Some (snd (fst t))
                                    /\ roc (fst (fst t)) = Some (snd t)) kept).
  { apply Forall_forall. intros t Ht.
    destruct (dropna_cells ey roc df t Ht) as (_ & He & Hc). auto. }
  assert (Hkept : dropna ey roc (map base out) ≡ₚ kept).
  { rewrite <- (dropna_ranked_rows c1 c2 kept Hcells).
    apply dropna_perm, Permutation_map, Hout. }
  assert (Hrows : Forall (fun x => exists e c,
                     ey (base x) = Some e /\ roc (base x) = Some c
                     /\ x = ranked_row c1 c2 (base x, e, c)) out).
  { apply Forall_forall. intros x Hx.
    apply ranked_output_cells in Hx as (e & c & _ & He & Hc & Hx). eauto. }
  rewrite (magic_formula_rank_unfold ey roc (map base out)).
  rewrite (map_ext _ (ranked_row c1 c2)
             (fun t => ranked_row_perm _ _ _ _ t
                         (Permutation_map _ Hkept) (Permutation_map _ Hkept))).
  rewrite (ranked_rows_rebuilt c1 c2 out Hrows).
  apply sort_values_sorted_id. subst out. rewrite magic_formula_rank_unfold.
  apply sort_values_sorted.
Qed.

End RankingMore.

Lemma ranks_follow_values_witness :
  exists x y,
    x ∈ magic_formula_rank frame_ey frame_roc [sample_loss_record; sample_record]
    /\ y ∈ magic_formula_rank frame_ey frame_roc [sample_loss_record; sample_record]
    /\ base x = sample_record /\ base y = sample_loss_record
    /\ (EY_rank x < EY_rank y)%nat.
Proof.
  set (df := [sample_loss_record; sample_record]).
  set (x := {| base := sample_record; EY_rank := 1; ROC_rank := 1; MF_score := 2 |}).
  set (y := {| base := sample_loss_record; EY_rank := 2; ROC_rank := 2;
               MF_score := 4 |}).
  assert (Hout : magic_formula_rank frame_ey frame_roc df = [x; y])
    by (vm_compute; reflexivity).
  assert (Hx : x ∈ magic_formula_rank frame_ey frame_roc df)
    by (rewrite Hout; left).
  assert (Hy : y ∈ magic_formula_rank frame_ey frame_roc df)
    by (rewrite Hout; right; left).
  exists x, y. split; [exact Hx|]. split; [exact Hy|].
  split; [reflexivity|]. split; [reflexivity|].
  destruct (ranks_follow_values frame_ey frame_roc df x y
              (EY sample_record) (ROC sample_record)
              (EY sample_loss_record) (ROC sample_loss_record)
              Hx Hy eq_refl eq_refl eq_refl eq_refl) as (_ & Hlt & _).
  apply Hlt. vm_compute. reflexivity.
Defined.

Lemma ranks_are_bounded_witness :
  magic_formula_rank frame_ey frame_roc [sample_loss_record; sample_record] <> []
  /\ exists x,
       x ∈ magic_formula_rank frame_ey frame_roc [sample_loss_record; sample_record]
       /\ EY_rank x = 1.
Proof.
  assert (Hne : magic_formula_rank frame_ey frame_roc
                  [sample_loss_record; sample_record] <> [])
    by (vm_compute; discriminate).
  split; [exact Hne|].
  destruct (ranks_are_bounded frame_ey frame_roc
              [sample_loss_record; sample_record]) as [_ Htop].
  destruct (Htop Hne) as [Hx _]. exact Hx.
Defined.

(** ** The command-line pipeline *)

Lemma dedup_elem seen l x :
  x ∈ dedup seen l <-> x ∈ l /\ x ∉ seen.
Proof.
  revert seen. induction l as [|y l IH]; intros seen; simpl.
  - split; [intros H; inversion H | intros [H _]; inversion H].
  - destruct (existsb (String.eqb y) seen) eqn:Hy.
    + apply existsb_eqb_elem in Hy. rewrite IH, elem_of_cons. split.
      * intros [Hl Hs]. auto.
      * intros [[->|Hl] Hs]; [contradiction | auto].
    + assert (Hn : y ∉ seen).
      { intros Hin. apply existsb_eqb_elem in Hin. congruence. }
      rewrite !elem_of_cons, IH, elem_of_cons. split.
      * intros [->|[Hl Hs]]; [auto|]. split; [auto|]. intros Hin. apply Hs. auto.
      * intros [[->|Hl] Hs]; [auto|].
        destruct (decide (x = y)) as [->|Hne]; [auto|].
        right. split; [exact Hl|]. intros [E|Hin]; contradiction.
Qed.

Lemma dedup_NoDup seen l : NoDup (dedup seen l).
Proof.
  revert seen. induction l as [|y l IH]; intros seen; simpl; [constructor|].
  destruct (existsb (String.eqb y) seen); [apply IH|].
  constructor; [|apply IH].
  rewrite dedup_elem. intros [_ Hn]. apply Hn. left.
Qed.

Lemma dedup_sublist seen l : sublist (dedup seen l) l.
Proof.
  revert seen. induction l as [|y l IH]; intros seen; simpl; [constructor|].
  destruct (existsb (String.eqb y) seen);
    [apply sublist_cons, IH | apply sublist_skip, IH].
Qed.

Lemma dedup_prefix seen l l' :
  exists more, dedup seen (l ++ l') = dedup seen l ++ more.
Proof.
  revert seen. induction l as [|y l IH]; intros seen; simpl.
  - eauto.
  - destruct (existsb (String.eqb y) seen); [apply IH|].
    destruct (IH (y :: seen)) as [more ->]. eauto.
Qed.

Lemma dedup_NoDup_id seen l :
  NoDup l -> (forall x, x ∈ l -> x ∉ seen) -> dedup seen l = l.
Proof.
  intros Hnd. revert seen. induction Hnd as [|y l Hy Hnd IH]; intros seen Hs;
    simpl; [reflexivity|].
  assert (Hn : existsb (String.eqb y) seen = false).
  { apply not_true_is_false. intros H. apply existsb_eqb_elem in H.
    apply (Hs y); [left | exact H]. }
  rewrite Hn. f_equal. apply IH.
  intros x Hx [->|Hin]%elem_of_cons; [contradiction|].
  apply (Hs x); [right; exact Hx | exact Hin].
Qed.

(** X16.  Deduplication of the gathered symbols: the result has no
    duplicate, holds exactly the symbols of the input, keeps them in
    the order of their first occurrence (what was gathered from the
    earlier exchanges stays in front when more is appended), and
    leaves a list without duplicates as it is. *)
Theorem dedup_keeps_first_occurrences (l l' : list string) :
  NoDup (dedup [] l)
  /\ (forall x, x ∈ dedup [] l <-> x ∈ l)
  /\ sublist (dedup [] l) l
  /\ (exists more, dedup [] (l ++ l') = dedup [] l ++ more)
  /\ (NoDup l -> dedup [] l = l).
Proof.
  split; [apply dedup_NoDup|]. split.
  { intros x. rewrite dedup_elem. split; [intros [H _]; exact H|].
    intros H. split; [exact H|]. intros Hin. inversion Hin. }
  split; [apply dedup_sublist|]. split; [apply dedup_prefix|].
  intros Hnd. apply dedup_NoDup_id; [exact Hnd|].
  intros x _ Hin. inversion Hin.
Qed.

Lemma dedup_keeps_first_occurrences_witness :
  NoDup ["AAA"; "BBB"]
  /\ dedup [] ["AAA"; "BBB"] = ["AAA"; "BBB"]
  /\ dedup [] (["AAA"; "BBB"] ++ ["BBB"; "CCC"; "AAA"]) = ["AAA"; "BBB"; "CCC"].
Proof.
  assert (Hnd : NoDup ["AAA"; "BBB"]).
  { constructor; [|constructor; [|constructor]].
    - intros H. apply list_elem_of_singleton in H. discriminate.
    - intros H. inversion H. }
  split; [exact Hnd|].
  destruct (dedup_keeps_first_occurrences ["AAA"; "BBB"] ["BBB"; "CCC"; "AAA"])
    as (_ & _ & _ & _ & Hid).
  split; [apply Hid, Hnd | reflexivity].
Defined.

Section PipelineFacts.

Variable f : string -> option Q.
Variable sh : list string -> list string.

Lemma pull_all_keeps a syms :
  forall acc w recs w',
    pull_all f a syms acc w = (Ok recs, w') ->
    Forall (fun r => (min_mcap a <= marketCap r)%Q) acc ->
    Forall (fun r => (min_mcap a <= marketCap r)%Q) recs.
Proof.
  induction syms as [|sym syms IH]; intros acc w recs w' H Hacc; simpl in H.
  - unfold ret in H. inversion H; subst. exact Hacc.
  - apply bind_Ok_inv in H as (rec & w1 & _ & H).
    destruct rec as [r|]; [|eapply IH; eassumption].
    destruct (Qle_bool (min_mcap a) (marketCap r)) eqn:Hm;
      [|eapply IH; eassumption].
    eapply IH; [exact H|]. apply Forall_app. split; [exact Hacc|].
    constructor; [apply Qle_bool_iff, Hm | constructor].
Qed.

Lemma frame_rows_all_kept (records : list FinancialRecord) :
  List.filter (has_both frame_ey frame_roc) records = records.
Proof.
  induction records as [|r records IH]; [reflexivity|].
  simpl. rewrite IH. reflexivity.
Qed.

Lemma firstn_elem {B} n (l : list B) y : y ∈ firstn n l -> y ∈ l.
Proof.
  revert n. induction l as [|x l IH]; intros [|n] H; simpl in H;
    try (inversion H; fail).
  apply elem_of_cons in H as [->|H]; [left | right; eapply IH, H].
Qed.

Lemma StronglySorted_firstn {B} (R : B -> B -> Prop) n l :
  StronglySorted R l -> StronglySorted R (firstn n l).
Proof.
  intros H. revert n. induction H as [|x l Hs IH Hall]; intros [|n]; simpl;
    try constructor; [apply IH|].
  apply Forall_forall. intros y Hy.
  rewrite Forall_forall in Hall. eapply Hall, firstn_elem, Hy.
Qed.

End PipelineFacts.

Lemma take_upto_firstn {B} (n : Z) (l : list B) :
  exists k, take_upto n l = firstn k l.
Proof. unfold take_upto. destruct (0 <=? n)%Z; eauto. Qed.

(** X17.  What [main] hands over for export.  When it returns a
    frame, the frame is the head of the ranking of a non-empty list of
    records, as [head(top)] cuts it: at most [top] rows when [top] is
    not negative, all but the last [-top] rows when it is; every row
    has a market cap of at least [min_mcap] (records served from the
    cache included); the rows are in ascending order of score and
    ranks.  When it returns nothing, it has just printed the "No
    qualifying records" hint. *)
Theorem main_exports_ranked_head
    (f : string -> option Q) (sh : list string -> list string)
    (a : Args) (w w' : world) :
  (forall out,
      main f sh a w = (Ok (Some out), w') ->
      (exists records,
          records <> []
          /\ out = take_upto (top a) (magic_formula_rank frame_ey frame_roc records)
          /\ ((top a < 0)%Z ->
              length out
              = (length (magic_formula_rank frame_ey frame_roc records)
                 - Z.to_nat (- top a))%nat))
      /\ ((0 <= top a)%Z -> (Z.of_nat (length out) <= top a)%Z)
      /\ Forall (fun x => (min_mcap a <= marketCap (base x))%Q) out
      /\ StronglySorted key_le out)
  /\ (main f sh a w = (Ok None, w') ->
      exists printed,
        stdout w'
        = "No qualifying records. Try increasing --limit or lowering --min-mcap."
          :: printed).
Proof.
  split.
  - intros out H. unfold main in H.
    apply bind_Ok_inv in H as (syms & w1 & _ & H).
    apply bind_Ok_inv in H as (syms' & w2 & _ & H).
    apply bind_Ok_inv in H as (records & w3 & Hpull & H).
    destruct records as [|r records].
    { apply bind_Ok_inv in H as (? & ? & _ & H). unfold ret in H. discriminate H. }
    unfold ret in H. inversion H; subst; clear H.
    apply pull_all_keeps in Hpull; [|constructor].
    split.
    { exists (r :: records). split; [discriminate|]. split; [reflexivity|].
      intros Hneg. unfold take_upto.
      destruct (0 <=? top a)%Z eqn:Hle; [apply Z.leb_le in Hle; lia|].
      rewrite length_take. lia. }
    split.
    { intros Hpos. unfold take_upto. apply Z.leb_le in Hpos. rewrite Hpos.
      rewrite length_take. apply Z.leb_le in Hpos. lia. }
    destruct (take_upto_firstn (top a)
                (magic_formula_rank frame_ey frame_roc (r :: records)))
      as [k ->].
    split.
    { apply Forall_forall. intros x Hx. apply firstn_elem in Hx.
      apply ranked_output_cells in Hx as (e & c & Ht & _).
      apply dropna_cells in Ht as (Hin & _). simpl in Hin.
      rewrite Forall_forall in Hpull. apply Hpull, Hin. }
    apply StronglySorted_firstn. rewrite magic_formula_rank_unfold.
    apply sort_values_sorted.
  - intros H. unfold main in H.
    apply bind_Ok_inv in H as (syms & w1 & _ & H).
    apply bind_Ok_inv in H as (syms' & w2 & _ & H).
    apply bind_Ok_inv in H as (records & w3 & _ & H).
    destruct records as [|r records]; [|unfold ret in H; discriminate H].
    apply bind_Ok_inv in H as (u & w4 & Hp & H).
    unfold ret in H. inversion H; subst.
    unfold print in Hp. inversion Hp; subst. simpl. eauto.
Qed.

Lemma main_exports_ranked_head_witness :
  (exists out,
      fst (main no_float id sample_args (pipeline_world true)) = Ok (Some out)
      /\ (Z.of_nat (length out) <= 30)%Z
      /\ Forall (fun x => (50000000 <= marketCap (base x))%Q) out)
  /\ (exists out,
        fst (main no_float id sample_args_all_but_last (pipeline_world true))
        = Ok (Some out)
        /\ exists records,
             out = take_upto (-1) (magic_formula_rank frame_ey frame_roc records)
             /\ length out
                = (length (magic_formula_rank frame_ey frame_roc records) - 1)%nat).
Proof.
  split.
  - destruct (main no_float id sample_args (pipeline_world true))
      as [[[out|]|e] w'] eqn:E; try (vm_compute in E; discriminate E).
    exists out. split; [reflexivity|].
    destruct (main_exports_ranked_head no_float id sample_args
                (pipeline_world true) w') as [Hsome _].
    destruct (Hsome out E) as (_ & Hlen & Hcap & _).
    split; [apply Hlen; vm_compute; discriminate | exact Hcap].
  - destruct (main no_float id sample_args_all_but_last (pipeline_world true))
      as [[[out|]|e] w'] eqn:E; try (vm_compute in E; discriminate E).
    exists out. split; [reflexivity|].
    destruct (main_exports_ranked_head no_float id sample_args_all_but_last
                (pipeline_world true) w') as [Hsome _].
    destruct (Hsome out E) as ((records & _ & Hout & Hlen) & _).
    exists records. split; [exact Hout|].
    apply Hlen. reflexivity.
Defined.

(** ** Health checks, continued *)

Lemma cell_or_zero v :
  not_text v ->
  exists x,
    as_number (py_or v (VNum 0)) = Ok x
    /\ (py_or v (VNum 0) = VNum x \/ py_or v (VNum 0) = VBool true /\ x = 1%Q).
Proof.
  intros Hv. destruct v as [|[|]|x|s]; unfold py_or; simpl.
  - exists 0%Q. auto.
  - exists 1%Q. auto.
  - exists 0%Q. auto.
  - destruct (negb (Qeq_bool x 0)); [exists x | exists 0%Q]; auto.
  - rewrite (Hv s eq_refl). simpl. exists 0%Q. auto.
Qed.

Lemma py_gt_cells a b :
  not_text a -> not_text b ->
  exists x y,
    as_number (py_or a (VNum 0)) = Ok x
    /\ as_number (py_or b (VNum 0)) = Ok y
    /\ py_gt (py_or a (VNum 0)) (py_or b (VNum 0)) = Ok (Qltb y x).
Proof.
  intros Ha Hb.
  destruct (cell_or_zero a Ha) as (x & Hx & Sx).
  destruct (cell_or_zero b Hb) as (y & Hy & Sy).
  exists x, y. split; [exact Hx|]. split; [exact Hy|].
  destruct Sx as [->|[-> ->]], Sy as [->|[-> ->]]; reflexivity.
Qed.

Lemma py_le_cells a b :
  not_text a -> not_text b ->
  exists x y,
    as_number (py_or a (VNum 0)) = Ok x
    /\ as_number (py_or b (VNum 0)) = Ok y
    /\ py_le (py_or a (VNum 0)) (py_or b (VNum 0)) = Ok (Qle_bool x y).
Proof.
  intros Ha Hb.
  destruct (cell_or_zero a Ha) as (x & Hx & Sx).
  destruct (cell_or_zero b Hb) as (y & Hy & Sy).
  exists x, y. split; [exact Hx|]. split; [exact Hy|].
  destruct Sx as [->|[-> ->]], Sy as [->|[-> ->]]; reflexivity.
Qed.

Lemma amount_number q field x :
  as_number (py_or (dict_get q field) (VNum 0)) = Ok x -> amount q field = x.
Proof. unfold amount. intros ->. reflexivity. Qed.

Lemma all_res_pure {B} (c : B -> res bool) (p : B -> bool) l :
  Forall (fun q => c q = Ok (p q)) l -> all_res c l = Ok (forallb p l).
Proof.
  induction 1 as [|q l Hq _ IH]; simpl; [reflexivity|].
  rewrite Hq. destruct (p q); [exact IH | reflexivity].
Qed.

Lemma all_adjacent_map {B C} (g : B -> C) (c : C -> C -> res bool)
    (R : B -> B -> Prop) l :
  (forall a b, a ∈ l -> b ∈ l ->
     exists t, c (g a) (g b) = Ok t /\ (t = true <-> R a b)) ->
  exists t, all_adjacent c (map g l) = Ok t /\ (t = true <-> Sorted R l).
Proof.
  induction l as [|a l IH]; intros Hc.
  - exists true. split; [reflexivity|]. split; [constructor | reflexivity].
  - destruct l as [|b l'].
    + exists true. split; [reflexivity|].
      split; [intros _; repeat constructor | reflexivity].
    + destruct IH as (t' & Ht' & Hiff).
      { intros x y Hx Hy. apply Hc; right; assumption. }
      destruct (Hc a b) as (t & Ht & Hab); [left | right; left|].
      change (all_adjacent c (map g (a :: b :: l')))
        with (match c (g a) (g b) with
              | Raise e => Raise e
              | Ok false => Ok false
              | Ok true => all_adjacent c (map g (b :: l'))
              end).
      rewrite Ht. destruct t.
      * exists t'. split; [exact Ht'|]. rewrite Hiff. split.
        -- intros Hs. constructor; [exact Hs|]. constructor. apply Hab. reflexivity.
        -- intros Hs. inversion Hs; assumption.
      * exists false. split; [reflexivity|]. split; [discriminate|].
        intros Hs. inversion Hs as [|? ? _ Hhd]; subst.
        inversion Hhd; subst. apply Hab. assumption.
Qed.

(** X18.  With no credential in the environment every enabled health
    check comes out unknown and [passes_all] stays true: the symbol
    passes the health filter unchecked, and nothing is sent. *)
Theorem health_checks_unknown_without_key
    (sym : string) (check_dr check_cf : bool) (q_dr q_cf : Q) (w : world) :
  key_missing w ->
  check_financial_health_with sym check_dr check_cf q_dr q_cf w
  = (Ok {| symbol := sym;
           passes_all := true;
           debt_revenue_check := if check_dr then Some None else None;
           cashflow_quality_check := if check_cf then Some None else None |},
     w).
Proof.
  intros K. unfold check_financial_health_with, run_debt_revenue_check,
    run_cashflow_quality_check.
  destruct check_dr, check_cf; unfold bind, try_except;
    rewrite ?(fmp_get_no_key _ _ _ K); simpl;
    rewrite ?(fmp_get_no_key _ _ _ K); reflexivity.
Qed.

Lemma health_checks_unknown_without_key_witness :
  key_missing world_without_key
  /\ fst (check_financial_health "ACME" true true world_without_key)
     = Ok {| symbol := "ACME"; passes_all := true;
             debt_revenue_check := Some None;
             cashflow_quality_check := Some None |}.
Proof.
  assert (K : key_missing world_without_key) by reflexivity.
  split; [exact K|]. unfold check_financial_health.
  rewrite (health_checks_unknown_without_key "ACME" true true 6 8
             world_without_key K).
  reflexivity.
Defined.

(** X19.  The cash-flow check on a statement whose cells are numbers
    (or absent): with fewer than four quarters the verdict is unknown,
    whatever the cells hold; with four or more it is known, and it is
    a pass exactly when operating cash flow exceeds net income in
    every quarter of the statement, an absent amount counting as 0. *)
Theorem cashflow_verdict_on_numbers (cf : list row) :
  ((length cf < 4)%nat -> cashflow_verdict (PRows cf) = Ok None)
  /\ (Forall (fun q => not_text (dict_get q "operatingCashFlow")
                       /\ not_text (dict_get q "netIncome")) cf ->
      (4 <= length cf)%nat ->
      exists b,
        cashflow_verdict (PRows cf) = Ok (Some b)
        /\ (b = true <->
            Forall (fun q => (amount q "netIncome"
                              < amount q "operatingCashFlow")%Q) cf)).
Proof.
  unfold cashflow_verdict. split.
  - intros Hlen. apply Nat.leb_gt in Hlen. simpl payload_size.
    rewrite Hlen, andb_false_r. reflexivity.
  - intros Hcells Hlen.
    assert (Ht : payload_truthy (PRows cf) = true)
      by (destruct cf; [simpl in Hlen; lia | reflexivity]).
    apply Nat.leb_le in Hlen. simpl payload_size. rewrite Ht, Hlen.
    cbn [andb payload_rows].
    rewrite (all_res_pure _
               (fun q => Qltb (amount q "netIncome") (amount q "operatingCashFlow"))).
    + eexists. split; [reflexivity|].
      rewrite forallb_forall, Forall_forall. split.
      * intros H q Hq. apply Qltb_true, H, list_elem_of_In, Hq.
      * intros H q Hq. apply Qltb_true, H, list_elem_of_In, Hq.
    + eapply Forall_impl; [exact Hcells|].
      intros q [Ho Hn]. cbv beta.
      destruct (py_gt_cells _ _ Ho Hn) as (x & y & Hx & Hy & ->).
      rewrite (amount_number _ _ _ Hx), (amount_number _ _ _ Hy). reflexivity.
Qed.

Lemma cashflow_verdict_on_numbers_witness :
  cashflow_verdict (PRows (replicate 3 (cash_quarter 5 1))) = Ok None
  /\ cashflow_verdict (PRows (replicate 4 (cash_quarter 5 1))) = Ok (Some true)
  /\ cashflow_verdict
       (PRows (cash_quarter 1 5 :: replicate 4 (cash_quarter 5 1)))
     = Ok (Some false).
Proof.
  split.
  - apply (cashflow_verdict_on_numbers (replicate 3 (cash_quarter 5 1))).
    simpl. lia.
  - split.
    + destruct (cashflow_verdict_on_numbers (replicate 4 (cash_quarter 5 1)))
        as [_ H].
      destruct H as (b & -> & Hb).
      * repeat constructor; intros s Hs; vm_compute in Hs; discriminate Hs.
      * simpl. lia.
      * f_equal. f_equal. apply Hb. repeat constructor.
    + vm_compute. reflexivity.
Defined.

(** X20.  The debt and revenue check: with fewer than three quarters
    of either statement the verdict is unknown; and the check never
    passes a company whose revenue fell.  A pass needs three quarters
    or more of both statements and, when the revenue cells are numbers
    (or absent, counting as 0), a revenue that never falls from the
    oldest quarter to the newest. *)
Theorem debt_revenue_verdict_on_numbers (bs inc : list row) :
  ((length bs < 3)%nat \/ (length inc < 3)%nat ->
   debt_revenue_verdict (PRows bs) (PRows inc) = Ok None)
  /\ (debt_revenue_verdict (PRows bs) (PRows inc) = Ok (Some true) ->
      (3 <= length bs)%nat /\ (3 <= length inc)%nat
      /\ (Forall (fun q => not_text (dict_get q "revenue")) inc ->
          Sorted (fun x y => (amount x "revenue" <= amount y "revenue")%Q)
            (rev inc))).
Proof.
  unfold debt_revenue_verdict. split.
  - intros Hlen. simpl payload_size.
    assert (H : ((3 <=? length bs)%nat && (3 <=? length inc)%nat)%bool = false).
    { apply andb_false_iff. destruct Hlen as [H|H];
        [left | right]; apply Nat.leb_gt, H. }
    rewrite <- andb_assoc, H, andb_false_r. reflexivity.
  - simpl payload_size.
    destruct (payload_truthy (PRows bs) && payload_truthy (PRows inc)
              && (3 <=? length bs)%nat && (3 <=? length inc)%nat) eqn:Hc;
      [|discriminate].
    rewrite !andb_true_iff in Hc. destruct Hc as [[_ Hlb] Hli].
    apply Nat.leb_le in Hlb, Hli.
    cbn [payload_rows].
    destruct (mapM_res de_ratio (rev bs)) as [de|]; [|discriminate].
    intros H. split; [exact Hlb|]. split; [exact Hli|].
    intros Hinc.
    destruct (all_adjacent_map
                (fun q => py_or (dict_get q "revenue") (VNum 0)) py_le
                (fun x y => (amount x "revenue" <= amount y "revenue")%Q) (rev inc))
      as (t2 & Ht2 & H2).
    { intros a b Ha Hb. rewrite Forall_forall in Hinc.
      apply list_elem_of_In, in_rev, list_elem_of_In in Ha, Hb.
      destruct (py_le_cells _ _ (Hinc a Ha) (Hinc b Hb)) as (x & y & Hx & Hy & ->).
      rewrite (amount_number _ _ _ Hx), (amount_number _ _ _ Hy).
      eexists. split; [reflexivity | apply Qle_bool_iff]. }
    rewrite Ht2 in H.
    destruct (all_adjacent (fun a b => Ok (ratio_ge a b)) de) as [d|];
      [|discriminate].
    injection H as Hv. apply andb_true_iff in Hv as [_ Hv].
    apply H2, Hv.
Qed.

Lemma debt_revenue_verdict_on_numbers_witness :
  debt_revenue_verdict
    (PRows [debt_quarter 10 100; debt_quarter 20 100])
    (PRows (replicate 3 (revenue_quarter 1))) = Ok None
  /\ debt_revenue_verdict
       (PRows [debt_quarter 10 100; debt_quarter 20 100; debt_quarter 30 100])
       (PRows [revenue_quarter 3; revenue_quarter 2; revenue_quarter 1])
     = Ok (Some true)
  /\ Sorted (fun x y => (amount x "revenue" <= amount y "revenue")%Q)
       [revenue_quarter 1; revenue_quarter 2; revenue_quarter 3]
  /\ debt_revenue_verdict
       (PRows [debt_quarter 10 100; debt_quarter 20 100; debt_quarter 30 100])
       (PRows [revenue_quarter 1; revenue_quarter 2; revenue_quarter 3])
     = Ok (Some false).
Proof.
  destruct (debt_revenue_verdict_on_numbers
              [debt_quarter 10 100; debt_quarter 20 100]
              (replicate 3 (revenue_quarter 1))) as [Hshort _].
  split; [apply Hshort; left; simpl; lia|].
  assert (Hpass : debt_revenue_verdict
            (PRows [debt_quarter 10 100; debt_quarter 20 100; debt_quarter 30 100])
            (PRows [revenue_quarter 3; revenue_quarter 2; revenue_quarter 1])
          = Ok (Some true)) by (vm_compute; reflexivity).
  split; [exact Hpass|].
  destruct (debt_revenue_verdict_on_numbers
              [debt_quarter 10 100; debt_quarter 20 100; debt_quarter 30 100]
              [revenue_quarter 3; revenue_quarter 2; revenue_quarter 1])
    as [_ Hrev].
  destruct (Hrev Hpass) as (_ & _ & Hsorted).
  split.
  - apply Hsorted.
    repeat constructor; intros s Hs; vm_compute in Hs; discriminate Hs.
  - vm_compute. reflexivity.
Defined.
